(** * A Go REST API example: [/health] and [/process] over net/http

    Shallow embedding of [api_using_http_lib.go].  The two handlers and the
    start-up part of [main] are translated from the source; the parts of the
    Go standard library they call ([encoding/json], [net/http], [os], [log],
    [strconv], [unicode/utf8]) are embedded as far as the handlers use them,
    each in a module carrying the name of its Go package.

    Conventions.
    - A Go [string] or [[]byte] is a [string]: a sequence of 8-bit bytes.
    - A Go [int] is a [Z]; the program is taken to run on a 64-bit platform,
      so decoding checks the range of [int64].
    - A rune is a [Z].
    - The clock is not modelled: a log entry is the text handed to the
      logger, without the date and time prefix. *)

From Stdlib Require Import ZArith Ascii String Lia.
From Stdlib Require DecimalString DecimalPos DecimalFacts.
From stdpp Require Import base option list strings gmap.

Local Open Scope Z_scope.

(** ** Bytes *)

(** The newline. *)
Definition LF : string := String "010" EmptyString.

(** The quotation mark. *)
Definition DQ : ascii := "034".

(** JSON texts are written here with an apostrophe in the place of every
    quotation mark: [js s] is [s] with each apostrophe turned into one. *)
Fixpoint js (s : string) : string :=
  match s with
  | EmptyString => EmptyString
  | String c s => String (if Ascii.eqb c "'" then DQ else c) (js s)
  end.

Definition byte_val (c : ascii) : Z := Z.of_N (N_of_ascii c).

(** Go's conversion [byte(x)]: the low eight bits. *)
Definition byte_of (x : Z) : ascii := ascii_of_N (Z.to_N (Z.land x 255)).

Definition between (lo hi x : Z) : bool := (lo <=? x) && (x <=? hi).

Definition bytes (l : list Z) : string :=
  foldr (fun x s => String (byte_of x) s) EmptyString l.

Definition byte_eqb (c d : ascii) : bool := Ascii.eqb c d.

Fixpoint skip (n : nat) (s : string) : string :=
  match n, s with
  | O, _ => s
  | S n, String _ s => skip n s
  | S _, EmptyString => EmptyString
  end.

Definition hex_digit (x : Z) : ascii :=
  byte_of (if x <? 10 then 48 + x else 87 + x).

(** The value of a hexadecimal digit in either case; -1 for other bytes. *)
Definition unhex (c : ascii) : Z :=
  let x := byte_val c in
  if between 48 57 x then x - 48
  else if between 97 102 x then x - 97 + 10
  else if between 65 70 x then x - 65 + 10
  else -1.

(** ** unicode/utf8 *)

Module utf8.

Definition RuneError : Z := 0xFFFD.
Definition RuneSelf : Z := 0x80.
Definition MaxRune : Z := 0x10FFFF.
Definition surrogateMin : Z := 0xD800.
Definition surrogateMax : Z := 0xDFFF.

Definition locb : Z := 0x80.
Definition hicb : Z := 0xBF.

(** Entries of the table [first]: [xx] invalid, [as_] ASCII, otherwise the
    accept-range index in the high nibble and the size in the low one. *)
Definition xx : Z := 0xF1.
Definition as_ : Z := 0xF0.
Definition s1 : Z := 0x02.
Definition s2 : Z := 0x13.
Definition s3 : Z := 0x03.
Definition s4 : Z := 0x23.
Definition s5 : Z := 0x34.
Definition s6 : Z := 0x04.
Definition s7 : Z := 0x44.

Definition first (b : Z) : Z :=
  if b <? 0x80 then as_
  else if b <? 0xC2 then xx
  else if b <? 0xE0 then s1
  else if b =? 0xE0 then s2
  else if b <? 0xED then s3
  else if b =? 0xED then s4
  else if b <? 0xF0 then s3
  else if b =? 0xF0 then s5
  else if b <? 0xF4 then s6
  else if b =? 0xF4 then s7
  else xx.

Definition acceptRanges (i : Z) : Z * Z :=
  if i =? 0 then (locb, hicb)
  else if i =? 1 then (0xA0, hicb)
  else if i =? 2 then (locb, 0x9F)
  else if i =? 3 then (0x90, hicb)
  else (locb, 0x8F).

(** [DecodeRune p]: the first rune of [p] and its width in bytes;
    [(RuneError, 1)] for an invalid encoding, [(RuneError, 0)] for the
    empty string. *)
Definition DecodeRune (p : string) : Z * nat :=
  match p with
  | EmptyString => (RuneError, 0%nat)
  | String c0 p1 =>
    let p0 := byte_val c0 in
    let x := first p0 in
    if as_ <=? x then ((if x =? as_ then p0 else RuneError), 1%nat)
    else
      let sz := Z.land x 7 in
      let accept := acceptRanges (Z.shiftr x 4) in
      match p1 with
      | EmptyString => (RuneError, 1%nat)
      | String c1 p2 =>
        let b1 := byte_val c1 in
        if (b1 <? fst accept) || (snd accept <? b1) then (RuneError, 1%nat)
        else if sz <=? 2 then
          (Z.lor (Z.shiftl (Z.land p0 0x1F) 6) (Z.land b1 0x3F), 2%nat)
        else
          match p2 with
          | EmptyString => (RuneError, 1%nat)
          | String c2 p3 =>
            let b2 := byte_val c2 in
            if (b2 <? locb) || (hicb <? b2) then (RuneError, 1%nat)
            else if sz <=? 3 then
              (Z.lor (Z.lor (Z.shiftl (Z.land p0 0x0F) 12)
                            (Z.shiftl (Z.land b1 0x3F) 6))
                     (Z.land b2 0x3F), 3%nat)
            else
              match p3 with
              | EmptyString => (RuneError, 1%nat)
              | String c3 _ =>
                let b3 := byte_val c3 in
                if (b3 <? locb) || (hicb <? b3) then (RuneError, 1%nat)
                else
                  (Z.lor (Z.lor (Z.lor (Z.shiftl (Z.land p0 0x07) 18)
                                       (Z.shiftl (Z.land b1 0x3F) 12))
                                (Z.shiftl (Z.land b2 0x3F) 6))
                         (Z.land b3 0x3F), 4%nat)
              end
          end
      end
  end.

Definition enc3 (r : Z) : string :=
  bytes [Z.lor 0xE0 (Z.shiftr r 12);
         Z.lor 0x80 (Z.land (Z.shiftr r 6) 0x3F);
         Z.lor 0x80 (Z.land r 0x3F)].

(** [AppendRune nil r]: the UTF-8 encoding of [r]; an invalid rune is
    written as [RuneError]. *)
Definition EncodeRune (r : Z) : string :=
  if between 0 0x7F r then bytes [r]
  else if between 0 0x7FF r then
    bytes [Z.lor 0xC0 (Z.shiftr r 6); Z.lor 0x80 (Z.land r 0x3F)]
  else if (r <? 0) || (MaxRune <? r) || between surrogateMin surrogateMax r
  then enc3 RuneError
  else if r <=? 0xFFFF then enc3 r
  else
    bytes [Z.lor 0xF0 (Z.shiftr r 18);
           Z.lor 0x80 (Z.land (Z.shiftr r 12) 0x3F);
           Z.lor 0x80 (Z.land (Z.shiftr r 6) 0x3F);
           Z.lor 0x80 (Z.land r 0x3F)].

End utf8.

(** ** unicode/utf16 *)

Module utf16.

Definition surr1 : Z := 0xD800.
Definition surr2 : Z := 0xDC00.
Definition surr3 : Z := 0xE000.
Definition surrSelf : Z := 0x10000.

Definition IsSurrogate (r : Z) : bool := (surr1 <=? r) && (r <? surr3).

Definition DecodeRune (r1 r2 : Z) : Z :=
  if (surr1 <=? r1) && (r1 <? surr2) && (surr2 <=? r2) && (r2 <? surr3)
  then Z.lor (Z.shiftl (r1 - surr1) 10) (r2 - surr2) + surrSelf
  else utf8.RuneError.

End utf16.

(** ** strconv *)

Module strconv.

(** [FormatInt n 10], also what [%d] prints. *)
Definition Itoa (n : Z) : string :=
  DecimalString.NilEmpty.string_of_int (Z.to_int n).

Fixpoint digits (acc : Z) (s : string) : option Z :=
  match s with
  | EmptyString => Some acc
  | String c s =>
    let x := byte_val c in
    if between 48 57 x then digits (acc * 10 + (x - 48)) s else None
  end.

(** [ParseUint s 10 64] before the range check: [None] is a syntax error. *)
Definition ParseUint (s : string) : option Z :=
  match s with
  | EmptyString => None
  | _ => digits 0 s
  end.

(** [ParseInt s 10 64]: [None] stands for both of Go's errors (syntax and
    range). *)
Definition ParseInt (s : string) : option Z :=
  match s with
  | EmptyString => None
  | String c s1 =>
    let neg := byte_eqb c "-" in
    let s' := if byte_eqb c "+" || neg then s1 else s in
    match ParseUint s' with
    | None => None
    | Some un =>
      let cutoff := 2 ^ 63 in
      if negb neg && (cutoff <=? un) then None
      else if neg && (cutoff <? un) then None
      else Some (if neg then - un else un)
    end
  end.

(** [IsPrint] on the runes below 0x100, the only ones a byte converts to. *)
Definition IsPrint (r : Z) : bool :=
  between 0x20 0x7E r || (between 0xA1 0xFF r && negb (r =? 0xAD)).

(** [Quote (string (rune c))] without its two quotation marks, for a rune
    below 0x100 other than the double quote. *)
Definition quoted_rune (r : Z) : string :=
  if r =? 92 then "\\"
  else if IsPrint r then utf8.EncodeRune r
  else if r =? 7 then "\a"
  else if r =? 8 then "\b"
  else if r =? 12 then "\f"
  else if r =? 10 then "\n"
  else if r =? 13 then "\r"
  else if r =? 9 then "\t"
  else if r =? 11 then "\v"
  else if (r <? 32) || (r =? 127) then
    "\x" +:+ bytes [byte_val (hex_digit (Z.shiftr r 4));
                    byte_val (hex_digit (Z.land r 15))]
  else
    "\u00" +:+ bytes [byte_val (hex_digit (Z.shiftr r 4));
                      byte_val (hex_digit (Z.land r 15))].

End strconv.

(** ** Errors

    Go's [error] is an interface; these are the values that can reach the
    handlers, each with its [Error()] text. *)

Inductive error : Type :=
  | io_EOF
  | io_ErrUnexpectedEOF
  | http_ErrBodyReadAfterClose
  | os_PathError (msg : string)
  | SyntaxError (msg : string)
  | UnmarshalTypeError (Value Type_ Struct Field : string).

Definition Error (e : error) : string :=
  match e with
  | io_EOF => "EOF"
  | io_ErrUnexpectedEOF => "unexpected EOF"
  | http_ErrBodyReadAfterClose => "http: invalid Read on closed Body"
  | os_PathError msg => msg
  | SyntaxError msg => msg
  | UnmarshalTypeError v t s f =>
    if String.eqb s "" && String.eqb f "" then
      "json: cannot unmarshal " +:+ v +:+ " into Go value of type " +:+ t
    else
      "json: cannot unmarshal " +:+ v +:+ " into Go struct field " +:+ s
        +:+ "." +:+ f +:+ " of type " +:+ t
  end.

(** ** encoding/json: the scanner (scanner.go) *)

Module scanner.

(** The values a step function returns. *)
Inductive opcode : Type :=
  | scanContinue | scanBeginLiteral | scanBeginObject | scanObjectKey
  | scanObjectValue | scanEndObject | scanBeginArray | scanArrayValue
  | scanEndArray | scanSkipSpace | scanEnd | scanError.

Inductive parse : Type :=
  | parseObjectKey | parseObjectValue | parseArrayValue.

(** The field [step] of Go's scanner holds one of the step functions; here
    it holds the function's tag, and [step] below dispatches on it. *)
Inductive stepFn : Type :=
  | BeginValueOrEmpty | BeginValue | BeginStringOrEmpty | BeginString
  | EndValue | EndTop
  | InString | InStringEsc
  | InStringEscU | InStringEscU1 | InStringEscU12 | InStringEscU123
  | Neg | One | Zero | Dot | Dot0 | E | ESign | E0
  | T | Tr | Tru | F | Fa | Fal | Fals | N | Nu | Nul
  | Err.

(** [parseState] is a stack; its top is the head of the list. *)
Record t : Type := mk {
  next : stepFn;
  endTop : bool;
  parseState : list parse;
  err : option error
}.

Definition maxNestingDepth : Z := 10000.

Definition set_next (f : stepFn) (s : t) : t :=
  mk f (endTop s) (parseState s) (err s).

Definition set_top (p : parse) (s : t) : t :=
  mk (next s) (endTop s) (p :: tail (parseState s)) (err s).

Definition reset : t := mk BeginValue false [] None.

Definition quoteChar (c : ascii) : string :=
  if byte_eqb c "'" then "'\''"
  else if byte_eqb c DQ then String "'" (String DQ "'")
  else "'" +:+ strconv.quoted_rune (byte_val c) +:+ "'".

Definition error_ (s : t) (c : ascii) (context : string) : t * opcode :=
  (mk Err (endTop s) (parseState s)
      (Some (SyntaxError ("invalid character " +:+ quoteChar c +:+ " "
                            +:+ context))),
   scanError).

Definition pushParseState (s : t) (c : ascii) (newParseState : parse)
    (successState : opcode) : t * opcode :=
  let s := mk (next s) (endTop s) (newParseState :: parseState s) (err s) in
  if Z.of_nat (length (parseState s)) <=? maxNestingDepth then (s, successState)
  else error_ s c "exceeded max depth".

Definition popParseState (s : t) : t :=
  match tail (parseState s) with
  | [] => mk EndTop true [] (err s)
  | ps => mk EndValue (endTop s) ps (err s)
  end.

Definition isSpace (c : ascii) : bool :=
  let x := byte_val c in
  (x <=? 32) && ((x =? 32) || (x =? 9) || (x =? 13) || (x =? 10)).

Definition isDigit (c : ascii) : bool := between 48 57 (byte_val c).
Definition isDigit19 (c : ascii) : bool := between 49 57 (byte_val c).
Definition isHex (c : ascii) : bool :=
  let x := byte_val c in
  between 48 57 x || between 97 102 x || between 65 70 x.

Definition stateEndTop (s : t) (c : ascii) : t * opcode :=
  if negb (isSpace c) then (fst (error_ s c "after top-level value"), scanEnd)
  else (s, scanEnd).

Definition stateEndValue (s : t) (c : ascii) : t * opcode :=
  match parseState s with
  | [] => stateEndTop (mk EndTop true [] (err s)) c
  | ps :: _ =>
    if isSpace c then (set_next EndValue s, scanSkipSpace)
    else
      match ps with
      | parseObjectKey =>
        if byte_eqb c ":" then
          (set_next BeginValue (set_top parseObjectValue s), scanObjectKey)
        else error_ s c "after object key"
      | parseObjectValue =>
        if byte_eqb c "," then
          (set_next BeginString (set_top parseObjectKey s), scanObjectValue)
        else if byte_eqb c "}" then (popParseState s, scanEndObject)
        else error_ s c "after object key:value pair"
      | parseArrayValue =>
        if byte_eqb c "," then (set_next BeginValue s, scanArrayValue)
        else if byte_eqb c "]" then (popParseState s, scanEndArray)
        else error_ s c "after array element"
      end
  end.

Definition stateBeginValue (s : t) (c : ascii) : t * opcode :=
  if isSpace c then (s, scanSkipSpace)
  else if byte_eqb c "{" then
    pushParseState (set_next BeginStringOrEmpty s) c parseObjectKey
                   scanBeginObject
  else if byte_eqb c "[" then
    pushParseState (set_next BeginValueOrEmpty s) c parseArrayValue
                   scanBeginArray
  else if byte_eqb c DQ then (set_next InString s, scanBeginLiteral)
  else if byte_eqb c "-" then (set_next Neg s, scanBeginLiteral)
  else if byte_eqb c "0" then (set_next Zero s, scanBeginLiteral)
  else if byte_eqb c "t" then (set_next T s, scanBeginLiteral)
  else if byte_eqb c "f" then (set_next F s, scanBeginLiteral)
  else if byte_eqb c "n" then (set_next N s, scanBeginLiteral)
  else if isDigit19 c then (set_next One s, scanBeginLiteral)
  else error_ s c "looking for beginning of value".

Definition stateBeginValueOrEmpty (s : t) (c : ascii) : t * opcode :=
  if isSpace c then (s, scanSkipSpace)
  else if byte_eqb c "]" then stateEndValue s c
  else stateBeginValue s c.

Definition stateBeginString (s : t) (c : ascii) : t * opcode :=
  if isSpace c then (s, scanSkipSpace)
  else if byte_eqb c DQ then (set_next InString s, scanBeginLiteral)
  else error_ s c "looking for beginning of object key string".

Definition stateBeginStringOrEmpty (s : t) (c : ascii) : t * opcode :=
  if isSpace c then (s, scanSkipSpace)
  else if byte_eqb c "}" then stateEndValue (set_top parseObjectValue s) c
  else stateBeginString s c.

Definition stateInString (s : t) (c : ascii) : t * opcode :=
  if byte_eqb c DQ then (set_next EndValue s, scanContinue)
  else if byte_eqb c "\" then (set_next InStringEsc s, scanContinue)
  else if byte_val c <? 32 then error_ s c "in string literal"
  else (s, scanContinue).

Definition stateInStringEsc (s : t) (c : ascii) : t * opcode :=
  if byte_eqb c "b" || byte_eqb c "f" || byte_eqb c "n" || byte_eqb c "r"
     || byte_eqb c "t" || byte_eqb c "\" || byte_eqb c "/"
     || byte_eqb c DQ
  then (set_next InString s, scanContinue)
  else if byte_eqb c "u" then (set_next InStringEscU s, scanContinue)
  else error_ s c "in string escape code".

(** The four states of a [\u] escape differ only in their successor. *)
Definition stateInStringEscHex (succ : stepFn) (s : t) (c : ascii)
    : t * opcode :=
  if isHex c then (set_next succ s, scanContinue)
  else error_ s c "in \u hexadecimal character escape".

Definition state0 (s : t) (c : ascii) : t * opcode :=
  if byte_eqb c "." then (set_next Dot s, scanContinue)
  else if byte_eqb c "e" || byte_eqb c "E" then (set_next E s, scanContinue)
  else stateEndValue s c.

Definition state1 (s : t) (c : ascii) : t * opcode :=
  if isDigit c then (set_next One s, scanContinue) else state0 s c.

Definition stateNeg (s : t) (c : ascii) : t * opcode :=
  if byte_eqb c "0" then (set_next Zero s, scanContinue)
  else if isDigit19 c then (set_next One s, scanContinue)
  else error_ s c "in numeric literal".

Definition stateDot (s : t) (c : ascii) : t * opcode :=
  if isDigit c then (set_next Dot0 s, scanContinue)
  else error_ s c "after decimal point in numeric literal".

Definition stateDot0 (s : t) (c : ascii) : t * opcode :=
  if isDigit c then (s, scanContinue)
  else if byte_eqb c "e" || byte_eqb c "E" then (set_next E s, scanContinue)
  else stateEndValue s c.

Definition stateESign (s : t) (c : ascii) : t * opcode :=
  if isDigit c then (set_next E0 s, scanContinue)
  else error_ s c "in exponent of numeric literal".

Definition stateE (s : t) (c : ascii) : t * opcode :=
  if byte_eqb c "+" || byte_eqb c "-" then (set_next ESign s, scanContinue)
  else stateESign s c.

Definition stateE0 (s : t) (c : ascii) : t * opcode :=
  if isDigit c then (s, scanContinue) else stateEndValue s c.

(** The states inside [true], [false] and [null]: the byte [want] leads to
    [succ]. *)
Definition stateLiteral (want : ascii) (succ : stepFn) (context : string)
    (s : t) (c : ascii) : t * opcode :=
  if byte_eqb c want then (set_next succ s, scanContinue)
  else error_ s c context.

Definition stateError (s : t) (c : ascii) : t * opcode := (s, scanError).

(** [s.step(s, c)]. *)
Definition step (s : t) (c : ascii) : t * opcode :=
  match next s with
  | BeginValueOrEmpty => stateBeginValueOrEmpty s c
  | BeginValue => stateBeginValue s c
  | BeginStringOrEmpty => stateBeginStringOrEmpty s c
  | BeginString => stateBeginString s c
  | EndValue => stateEndValue s c
  | EndTop => stateEndTop s c
  | InString => stateInString s c
  | InStringEsc => stateInStringEsc s c
  | InStringEscU => stateInStringEscHex InStringEscU1 s c
  | InStringEscU1 => stateInStringEscHex InStringEscU12 s c
  | InStringEscU12 => stateInStringEscHex InStringEscU123 s c
  | InStringEscU123 => stateInStringEscHex InString s c
  | Neg => stateNeg s c
  | One => state1 s c
  | Zero => state0 s c
  | Dot => stateDot s c
  | Dot0 => stateDot0 s c
  | E => stateE s c
  | ESign => stateESign s c
  | E0 => stateE0 s c
  | T => stateLiteral "r" Tr "in literal true (expecting 'r')" s c
  | Tr => stateLiteral "u" Tru "in literal true (expecting 'u')" s c
  | Tru => stateLiteral "e" EndValue "in literal true (expecting 'e')" s c
  | F => stateLiteral "a" Fa "in literal false (expecting 'a')" s c
  | Fa => stateLiteral "l" Fal "in literal false (expecting 'l')" s c
  | Fal => stateLiteral "s" Fals "in literal false (expecting 's')" s c
  | Fals => stateLiteral "e" EndValue "in literal false (expecting 'e')" s c
  | N => stateLiteral "u" Nu "in literal null (expecting 'u')" s c
  | Nu => stateLiteral "l" Nul "in literal null (expecting 'l')" s c
  | Nul => stateLiteral "l" EndValue "in literal null (expecting 'l')" s c
  | Err => stateError s c
  end.

(** [s.eof()]. *)
Definition eof (s : t) : t * opcode :=
  match err s with
  | Some _ => (s, scanError)
  | None =>
    if endTop s then (s, scanEnd)
    else
      let s := fst (step s " ") in
      if endTop s then (s, scanEnd)
      else
        match err s with
        | Some _ => (s, scanError)
        | None =>
          (mk (next s) (endTop s) (parseState s)
              (Some (SyntaxError "unexpected end of JSON input")),
           scanError)
        end
    end.

(** [checkValid data scan], after [scan.reset()]. *)
Fixpoint checkValid_from (s : t) (data : string) : option error :=
  match data with
  | EmptyString =>
    let '(s, op) := eof s in
    match op with scanError => err s | _ => None end
  | String c data =>
    let '(s, op) := step s c in
    match op with
    | scanError => err s
    | _ => checkValid_from s data
    end
  end.

Definition checkValid (data : string) : option error :=
  checkValid_from reset data.

End scanner.

(** ** The program's types (api_using_http_lib.go, lines 13-25) *)

Record ProcessInput : Type := {
  Name : string;   (* `json:"name"` *)
  Value : Z        (* `json:"value"` *)
}.

Record ProcessResponse : Type := {
  Message : string;         (* `json:"message"` *)
  ReceivedName : string;    (* `json:"received_name"` *)
  ReceivedValue : Z;        (* `json:"received_value"` *)
  SecretFromEnv : string    (* `json:"secret_from_env"` *)
}.

(** ** encoding/json: decoding (stream.go, decode.go)

    Go decodes through reflection on the target's type; here the target is
    always a [ProcessInput], so the reflection is resolved: a JSON object is
    stored field by field into [Name] (kind string) and [Value] (kind int). *)

Module json.

Import scanner.

(** *** Decoder.readValue *)

Fixpoint nonSpace (b : string) : bool :=
  match b with
  | EmptyString => false
  | String c b => if isSpace c then nonSpace b else true
  end.

(** The scan loop of [readValue] over the bytes not yet scanned.  [all] is
    the whole buffer, [scanp] the number of bytes scanned so far, and
    [final] the error with which the reader ends ([io_EOF] for a body read
    to its end).  The result is the length of the first value. *)
Fixpoint readValue_from (s : scanner.t) (all buf : string) (scanp : nat)
    (final : error) : nat + error :=
  match buf with
  | String c rest =>
    let '(s, op) := step s c in
    match op with
    | scanEnd => inl scanp
    | scanEndObject | scanEndArray =>
      let '(s, op) := stateEndValue s " " in
      match op with
      | scanEnd => inl (S scanp)
      | _ => readValue_from s all rest (S scanp) final
      end
    | scanError =>
      match err s with Some e => inr e | None => inr final end
    | _ => readValue_from s all rest (S scanp) final
    end
  | EmptyString =>
    match final with
    | io_EOF =>
      match snd (step s " ") with
      | scanEnd => inl scanp
      | _ => inr (if nonSpace all then io_ErrUnexpectedEOF else io_EOF)
      end
    | e => inr e
    end
  end.

Definition readValue (buf : string) (final : error) : nat + error :=
  readValue_from reset buf buf 0 final.

Fixpoint take (n : nat) (s : string) : string :=
  match n, s with
  | S n, String c s => String c (take n s)
  | _, _ => EmptyString
  end.

(** *** The tree of a scanned value

    [decodeState] walks the bytes of the value with the scanner and stores
    what it meets on the way.  The walk is embedded in two stages: [parse]
    builds the tree of the value from the scanner's opcodes, and
    [unmarshal] stores the tree.  A literal keeps its bytes, as
    [literalStore] receives them. *)

#[local] Set Warnings "-register-all".

Inductive node : Type :=
  | Literal (item : string)
  | Array (elems : list node)
  | Object (members : list (string * node)).

Inductive frame : Type :=
  | InArray (elems : list node)
  | InObject (members : list (string * node)) (key : option string).

Record walk : Type := mkWalk {
  scan : scanner.t;
  literal : option string;     (* bytes of the literal being read *)
  stack : list frame;          (* open arrays and objects, innermost first *)
  top : option node           (* the finished top-level value *)
}.

Definition put (v : node) (w : walk) : walk :=
  match stack w with
  | [] => mkWalk (scan w) (literal w) [] (Some v)
  | InArray es :: st =>
    mkWalk (scan w) (literal w) (InArray (es ++ [v]) :: st) (top w)
  | InObject ms (Some k) :: st =>
    mkWalk (scan w) (literal w) (InObject (ms ++ [(k, v)]) None :: st) (top w)
  | InObject ms None :: st =>
    match v with
    | Literal k =>
      mkWalk (scan w) (literal w) (InObject ms (Some k) :: st) (top w)
    | _ => w
    end
  end.

Definition flush (w : walk) : walk :=
  match literal w with
  | Some item => put (Literal item) (mkWalk (scan w) None (stack w) (top w))
  | None => w
  end.

Definition open (f : frame) (w : walk) : walk :=
  mkWalk (scan w) (literal w) (f :: stack w) (top w).

Definition close (w : walk) : walk :=
  match stack w with
  | [] => w
  | InArray es :: st =>
    put (Array es) (mkWalk (scan w) (literal w) st (top w))
  | InObject ms _ :: st =>
    put (Object ms) (mkWalk (scan w) (literal w) st (top w))
  end.

Definition walk_byte (w : walk) (c : ascii) : walk :=
  let '(s, op) := step (scan w) c in
  let w := mkWalk s (literal w) (stack w) (top w) in
  match op with
  | scanBeginLiteral =>
    mkWalk s (Some (String c EmptyString)) (stack w) (top w)
  | scanContinue =>
    mkWalk s (option_map (fun l => l +:+ String c EmptyString) (literal w))
           (stack w) (top w)
  | scanBeginObject => open (InObject [] None) w
  | scanBeginArray => open (InArray []) w
  | scanEndObject | scanEndArray => close (flush w)
  | scanObjectKey | scanObjectValue | scanArrayValue | scanSkipSpace
  | scanEnd => flush w
  | scanError => w
  end.

Fixpoint walk_bytes (w : walk) (data : string) : walk :=
  match data with
  | EmptyString => flush w
  | String c data => walk_bytes (walk_byte w c) data
  end.

Definition parse (data : string) : option node :=
  top (walk_bytes (mkWalk reset None [] None) data).

(** *** unquoteBytes *)

(** [getu4 s]: the rune of a leading [\uXXXX], or -1. *)
Definition getu4 (s : string) : Z :=
  match s with
  | String "\" (String "u" (String a (String b (String c (String d _))))) =>
    if (unhex a <? 0) || (unhex b <? 0) || (unhex c <? 0) || (unhex d <? 0)
    then -1
    else ((unhex a * 16 + unhex b) * 16 + unhex c) * 16 + unhex d
  | _ => -1
  end.

(** The loop of [unquoteBytes] over the bytes between the quotation marks.
    Every round consumes at least one byte, so [fuel] rounds are enough
    for a string of [fuel] bytes; see [unquote_loop_fuel]. *)
Fixpoint unquote_loop (fuel : nat) (s : string) : option string :=
  match s with
  | EmptyString => Some EmptyString
  | String c r1 =>
    match fuel with
    | O => None
    | S fuel =>
      let x := byte_val c in
      if byte_eqb c "\" then
        match r1 with
        | EmptyString => None
        | String e r2 =>
          let simple (b : Z) :=
            option_map (String (byte_of b)) (unquote_loop fuel r2) in
          if byte_eqb e DQ || byte_eqb e "\" || byte_eqb e "/"
             || byte_eqb e "'"
          then option_map (String e) (unquote_loop fuel r2)
          else if byte_eqb e "b" then simple 8
          else if byte_eqb e "f" then simple 12
          else if byte_eqb e "n" then simple 10
          else if byte_eqb e "r" then simple 13
          else if byte_eqb e "t" then simple 9
          else if byte_eqb e "u" then
            let rr := getu4 s in
            if rr <? 0 then None
            else
              let r6 := skip 6 s in
              if utf16.IsSurrogate rr then
                let dec := utf16.DecodeRune rr (getu4 r6) in
                if negb (dec =? utf8.RuneError) then
                  option_map (String.append (utf8.EncodeRune dec))
                             (unquote_loop fuel (skip 6 r6))
                else
                  option_map (String.append (utf8.EncodeRune utf8.RuneError))
                             (unquote_loop fuel r6)
              else
                option_map (String.append (utf8.EncodeRune rr))
                           (unquote_loop fuel r6)
          else None
        end
      else if byte_eqb c DQ || (x <? 32) then None
      else if x <? utf8.RuneSelf then
        option_map (String c) (unquote_loop fuel r1)
      else
        let '(rr, size) := utf8.DecodeRune s in
        option_map (String.append (utf8.EncodeRune rr))
                   (unquote_loop fuel (skip size s))
    end
  end.

(** The bytes between a leading and a trailing quotation mark. *)
Fixpoint init_before_quote (s : string) : option string :=
  match s with
  | EmptyString => None
  | String c EmptyString => if byte_eqb c DQ then Some EmptyString else None
  | String c s => option_map (String c) (init_before_quote s)
  end.

Definition unquoteBytes (s : string) : option string :=
  match s with
  | String q s1 =>
    if byte_eqb q DQ then
      match init_before_quote s1 with
      | Some inner => unquote_loop (String.length inner) inner
      | None => None
      end
    else None
  | EmptyString => None
  end.

(** *** decodeState for a [*ProcessInput] *)

Inductive field : Type := fName | fValue.

Definition field_name (f : field) : string :=
  match f with fName => "name" | fValue => "value" end.

Definition field_type (f : field) : string :=
  match f with fName => "string" | fValue => "int" end.

Definition toUpper (c : ascii) : ascii :=
  let x := byte_val c in
  if between 97 122 x then byte_of (x - 32) else c.

(** [foldName] on the ASCII bytes of a key.  Go also folds the runes of
    more than one byte ([unicode.SimpleFold]); the only ones whose fold is
    an ASCII letter are U+017F (to S) and U+212A (to K), and neither
    letter occurs in NAME or VALUE, so a key with such a rune matches no
    field of [ProcessInput] whether it is folded or, as here, kept. *)
Fixpoint foldName (s : string) : string :=
  match s with
  | EmptyString => EmptyString
  | String c s => String (toUpper c) (foldName s)
  end.

(** The field a key selects: [fields.byExactName], then
    [fields.byFoldedName]. *)
Definition lookup_field (key : string) : option field :=
  if String.eqb key "name" then Some fName
  else if String.eqb key "value" then Some fValue
  else if String.eqb (foldName key) (foldName "name") then Some fName
  else if String.eqb (foldName key) (foldName "value") then Some fValue
  else None.

(** The state of a decode: the target and [d.savedError]. *)
Record decodeState : Type := mkDecode {
  target : ProcessInput;
  savedError : option error
}.

(** [d.saveError(err)]: only the first error is kept. *)
Definition saveError (e : error) (d : decodeState) : decodeState :=
  match savedError d with
  | Some _ => d
  | None => mkDecode (target d) (Some e)
  end.

Definition SetString (s : string) (d : decodeState) : decodeState :=
  mkDecode {| Name := s; Value := Value (target d) |} (savedError d).

Definition SetInt (n : Z) (d : decodeState) : decodeState :=
  mkDecode {| Name := Name (target d); Value := n |} (savedError d).

(** A type error met while field [f] is being stored: [addErrorContext]
    has filled in the struct and the field. *)
Definition field_error (f : field) (v : string) : error :=
  UnmarshalTypeError v (field_type f) "ProcessInput" (field_name f).

(** [d.literalStore(item, v, false)] where [v] is the field [f].  A string
    literal that [unquoteBytes] rejects makes Go panic; the scanner has
    accepted the literal before, and the target is left as it is here. *)
Definition literalStore (item : string) (f : field) (d : decodeState)
    : decodeState :=
  match item with
  | EmptyString => d
  | String c _ =>
    if byte_eqb c "n" then d
    else if byte_eqb c "t" || byte_eqb c "f" then
      saveError (field_error f "bool") d
    else if byte_eqb c DQ then
      match unquoteBytes item, f with
      | None, _ => d
      | Some s, fName => SetString s d
      | Some _, fValue => saveError (field_error f "string") d
      end
    else
      match f with
      | fName => saveError (field_error f "number") d
      | fValue =>
        match strconv.ParseInt item with
        | Some n => SetInt n d
        | None => saveError (field_error f ("number " +:+ item)) d
        end
      end
  end.

(** [d.value(subv)] for the value of a member whose key selects [f]. *)
Definition value_field (v : node) (f : field) (d : decodeState)
    : decodeState :=
  match v with
  | Literal item => literalStore item f d
  | Array _ => saveError (field_error f "array") d
  | Object _ => saveError (field_error f "object") d
  end.

(** One round of the loop of [d.object]: a member with an unknown key is
    skipped. *)
Definition member (d : decodeState) (m : string * node) : decodeState :=
  match unquoteBytes (fst m) with
  | None => d
  | Some key =>
    match lookup_field key with
    | Some f => value_field (snd m) f d
    | None => d
    end
  end.

Definition top_error (v : string) : error :=
  UnmarshalTypeError v "main.ProcessInput" "" "".

(** [d.value(rv)] at the top, where [rv] points to the [ProcessInput]. *)
Definition value (v : node) (d : decodeState) : decodeState :=
  match v with
  | Array _ => saveError (top_error "array") d
  | Object ms => fold_left member ms d
  | Literal item =>
    match item with
    | EmptyString => d
    | String c _ =>
      if byte_eqb c "n" then d
      else if byte_eqb c "t" || byte_eqb c "f" then
        saveError (top_error "bool") d
      else if byte_eqb c DQ then saveError (top_error "string") d
      else saveError (top_error "number") d
    end
  end.

(** [d.unmarshal(v)] on the bytes of one scanned value. *)
Definition unmarshal (data : string) (v : ProcessInput)
    : ProcessInput * option error :=
  match parse data with
  | Some tree =>
    let d := value tree (mkDecode v None) in
    (target d, savedError d)
  | None => (v, None)
  end.

(** [NewDecoder(r).Decode(&v)] for a reader that delivers [buf] and then
    ends with [final]. *)
Definition Decode (buf : string) (final : error) (v : ProcessInput)
    : ProcessInput * option error :=
  match readValue buf final with
  | inr e => (v, Some e)
  | inl n => unmarshal (take n buf) v
  end.

(** [Valid data]. *)
Definition Valid (data : string) : bool :=
  match checkValid data with None => true | Some _ => false end.

(** *** Encoding (encode.go), as of Go 1.22

    [Encoder.Encode] escapes for HTML, which is the default. *)

Definition htmlSafe (b : Z) : bool :=
  between 0x20 0x7F b
  && negb ((b =? 34) || (b =? 92) || (b =? 60) || (b =? 62) || (b =? 38)).

Definition hex2 (b : Z) : string :=
  String (hex_digit (Z.shiftr b 4)) (String (hex_digit (Z.land b 15)) "").

(** What [appendString] writes for an ASCII byte outside [htmlSafeSet]. *)
Definition escape_byte (c : ascii) : string :=
  let b := byte_val c in
  if (b =? 92) || (b =? 34) then String "\" (String c "")
  else if b =? 8 then "\b"
  else if b =? 12 then "\f"
  else if b =? 10 then "\n"
  else if b =? 13 then "\r"
  else if b =? 9 then "\t"
  else "\u00" +:+ hex2 b.

(** The loop of [appendString]; [fuel] as in [unquote_loop]. *)
Fixpoint appendString_loop (fuel : nat) (src : string) : string :=
  match src with
  | EmptyString => EmptyString
  | String c rest =>
    match fuel with
    | O => EmptyString
    | S fuel =>
      let b := byte_val c in
      if b <? utf8.RuneSelf then
        if htmlSafe b then String c (appendString_loop fuel rest)
        else escape_byte c +:+ appendString_loop fuel rest
      else
        let '(r, size) := utf8.DecodeRune src in
        if (r =? utf8.RuneError) && (size =? 1)%nat then
          "\ufffd" +:+ appendString_loop fuel rest
        else if (r =? 0x2028) || (r =? 0x2029) then
          "\u202" +:+ String (hex_digit (Z.land r 15)) ""
            +:+ appendString_loop fuel (skip size src)
        else
          take size src +:+ appendString_loop fuel (skip size src)
    end
  end.

Definition appendString (src : string) : string :=
  String DQ (appendString_loop (String.length src) src +:+ String DQ "").

(** [Marshal] of a [ProcessResponse]: the fields in the order of their
    declaration, under the names of their tags. *)
Definition Marshal (v : ProcessResponse) : string :=
  "{" +:+ js "'message':" +:+ appendString (Message v)
  +:+ "," +:+ js "'received_name':" +:+ appendString (ReceivedName v)
  +:+ "," +:+ js "'received_value':" +:+ strconv.Itoa (ReceivedValue v)
  +:+ "," +:+ js "'secret_from_env':" +:+ appendString (SecretFromEnv v)
  +:+ "}".

(** [Marshal] of a [map[string]string]: the keys are sorted. *)
Fixpoint insert_sorted (kv : string * string) (l : list (string * string))
    : list (string * string) :=
  match l with
  | [] => [kv]
  | kv' :: l' =>
    if String.leb (fst kv) (fst kv') then kv :: l
    else kv' :: insert_sorted kv l'
  end.

Definition sorted_members (m : gmap string string)
    : list (string * string) :=
  foldr insert_sorted [] (map_to_list m).

Fixpoint members_text (l : list (string * string)) : string :=
  match l with
  | [] => EmptyString
  | [kv] => appendString (fst kv) +:+ ":" +:+ appendString (snd kv)
  | kv :: l =>
    appendString (fst kv) +:+ ":" +:+ appendString (snd kv) +:+ ","
      +:+ members_text l
  end.

Definition MarshalMap (m : gmap string string) : string :=
  "{" +:+ members_text (sorted_members m) +:+ "}".

End json.

(** ** The process: its environment and its log *)

Record process : Type := mkProcess {
  environ : gmap string string;
  logged : list string
}.

(** Code that reads the environment or logs runs in a state monad over the
    process. *)
Definition M (A : Type) : Type := process -> A * process.

Definition ret {A} (a : A) : M A := fun p => (a, p).

Definition bind {A B} (m : M A) (k : A -> M B) : M B :=
  fun p => let '(a, p) := m p in k a p.

Declare Scope go_scope.
Delimit Scope go_scope with go.
Notation "'let*' x := m 'in' k" := (bind m (fun x => k))
  (at level 10, x name, m at level 100, k at level 200) : go_scope.
Notation "m ;; k" := (bind m (fun _ => k))
  (at level 100, k at level 200, right associativity) : go_scope.
Local Open Scope go_scope.

Module os.

(** [Getenv key]: the empty string when the variable is unset. *)
Definition Getenv (key : string) : M string :=
  fun p => (default "" (environ p !! key), p).

Fixpoint has_byte (x : Z) (s : string) : bool :=
  match s with
  | EmptyString => false
  | String c s => (byte_val c =? x) || has_byte x s
  end.

(** [Setenv key value]: fails (with EINVAL) on an empty key, on [=] or NUL
    in the key and on NUL in the value; [true] stands for a nil error. *)
Definition Setenv (key value : string) : M bool :=
  fun p =>
    if String.eqb key "" || has_byte 61 key || has_byte 0 key
       || has_byte 0 value
    then (false, p)
    else (true, mkProcess (<[key := value]> (environ p)) (logged p)).

End os.

Module log.

Fixpoint ends_with_newline (s : string) : bool :=
  match s with
  | EmptyString => false
  | String c EmptyString => byte_val c =? 10
  | String _ s => ends_with_newline s
  end.

(** [Output]: an entry ends in a newline, which is added when missing. *)
Definition Output (s : string) : M unit :=
  fun p =>
    (tt, mkProcess (environ p)
           (logged p ++ [if ends_with_newline s then s else s +:+ LF])).

(** [Println s] for a single string argument. *)
Definition Println (s : string) : M unit := Output (s +:+ LF).

(** [Printf format args]: the argument is the text after formatting. *)
Definition Printf (formatted : string) : M unit := Output formatted.

End log.

(** ** net/http, as far as a handler sees it

    The header keys the program uses are in canonical form already, so that
    [Set] and [Del] take them as they are.  What the server adds to a
    response on its way out ([Date], [Content-Length]) is not modelled. *)

Module http.

Definition StatusOK : Z := 200.
Definition StatusBadRequest : Z := 400.
Definition StatusMethodNotAllowed : Z := 405.
Definition MethodPost : string := "POST".

(** [Header] is a [map[string][]string]. *)
Abbreviation Header := (gmap string (list string)).

Definition Set_ (key value : string) (h : Header) : Header :=
  <[key := [value]]> h.

Definition Del (key : string) (h : Header) : Header := delete key h.

Definition Get (key : string) (h : Header) : string :=
  match h !! key with
  | Some (v :: _) => v
  | _ => ""
  end.

(** The response under construction.  [WriteHeader] sends the status line
    together with a snapshot of the header map; later changes of the map
    stay behind. *)
Record ResponseWriter : Type := mkWriter {
  header : Header;
  wroteHeader : bool;
  status : Z;
  sentHeader : Header;
  written : string
}.

Definition NewWriter : ResponseWriter := mkWriter ∅ false 0 ∅ "".

Definition with_header (f : Header -> Header) (w : ResponseWriter)
    : ResponseWriter :=
  mkWriter (f (header w)) (wroteHeader w) (status w) (sentHeader w)
           (written w).

(** A second call is ignored (Go complains in the server's error log). *)
Definition WriteHeader (code : Z) (w : ResponseWriter) : ResponseWriter :=
  if wroteHeader w then w
  else mkWriter (header w) true code (header w) (written w).

Definition Write (data : string) (w : ResponseWriter) : ResponseWriter :=
  let w := if wroteHeader w then w else WriteHeader StatusOK w in
  mkWriter (header w) (wroteHeader w) (status w) (sentHeader w)
           (written w +:+ data).

(** [Error w error code].  Deleting [Content-Length] is what Go does since
    1.23; on the new writer a handler receives it changes nothing. *)
Definition Error (w : ResponseWriter) (error : string) (code : Z)
    : ResponseWriter :=
  let w := with_header (Del "Content-Length") w in
  let w := with_header (Set_ "Content-Type" "text/plain; charset=utf-8") w in
  let w := with_header (Set_ "X-Content-Type-Options" "nosniff") w in
  let w := WriteHeader code w in
  Write (error +:+ LF) w.  (* fmt.Fprintln(w, error) *)

(** The body of a request, an [io.ReadCloser].  The handler reads it at
    most once, so only whether it was read is recorded, not how far. *)
Record ReadCloser : Type := mkBody {
  content : string;
  wasRead : bool;
  closed : bool
}.

Definition Close (b : ReadCloser) : ReadCloser :=
  mkBody (content b) (wasRead b) true.

Record Request : Type := mkRequest {
  Method : string;
  Body : ReadCloser
}.

(** What the client receives once the handler has returned: the server
    sends status 200 itself if the handler never wrote. *)
Record Response : Type := mkResponse {
  StatusCode : Z;
  ResponseHeader : Header;
  ResponseBody : string
}.

Definition finishRequest (w : ResponseWriter) : Response :=
  let w := if wroteHeader w then w else WriteHeader StatusOK w in
  mkResponse (status w) (sentHeader w) (written w).

End http.

(** [json.NewDecoder(r.Body).Decode(&v)]: the decoder reads the body, which
    delivers its content and then [io.EOF], or fails at once when it has
    been closed. *)
Definition Decode_Body (b : http.ReadCloser) (v : ProcessInput)
    : ProcessInput * option error * http.ReadCloser :=
  let b' := http.mkBody (http.content b) true (http.closed b) in
  if http.closed b then (json.Decode "" http_ErrBodyReadAfterClose v, b')
  else (json.Decode (http.content b) io_EOF v, b').

(** [json.NewEncoder(w).Encode(v)]: the JSON text and a newline. *)
Definition Encode (w : http.ResponseWriter) (text : string)
    : http.ResponseWriter :=
  http.Write (text +:+ LF) w.

(** ** The handlers (api_using_http_lib.go, lines 27-79)

    A handler receives the response writer and the request, both mutable in
    Go, and returns them as they are when it returns. *)

Definition handler : Type :=
  http.ResponseWriter -> http.Request -> M (http.ResponseWriter * http.Request).

Definition healthHandler : handler := fun w r =>
  let w := http.with_header (http.Set_ "Content-Type" "application/json") w in
  let w := http.WriteHeader http.StatusOK w in
  let response : gmap string string :=
    <["message" := "API is healthy!"]> (<["status" := "ok"]> ∅) in
  let w := Encode w (json.MarshalMap response) in
  log.Println "Health check successful";;
  ret (w, r).

Definition with_Body (b : http.ReadCloser) (r : http.Request) : http.Request :=
  http.mkRequest (http.Method r) b.

Definition processHandler : handler := fun w r =>
  if negb (String.eqb (http.Method r) http.MethodPost) then
    let w := http.Error w "Only POST method is allowed"
                        http.StatusMethodNotAllowed in
    ret (w, r)
  else
    let input := {| Name := ""; Value := 0 |} in
    let '(input, err, body) := Decode_Body (http.Body r) input in
    let r := with_Body body r in
    match err with
    | Some err =>
      let w := http.Error w ("Invalid JSON input: " +:+ Error err)
                          http.StatusBadRequest in
      log.Printf ("Error decoding JSON: " +:+ Error err +:+ LF);;
      ret (w, r)
    | None =>
      (* defer r.Body.Close(): runs when the handler returns *)
      log.Printf ("Received input: Name=" +:+ Name input +:+ ", Value="
                    +:+ strconv.Itoa (Value input) +:+ LF);;
      let* secretMessage := os.Getenv "API_SECRET_MESSAGE" in
      let secretMessage :=
        if String.eqb secretMessage "" then "Default secret (env var not set)"
        else secretMessage in
      let response := {|
        Message := "Successfully processed input for " +:+ Name input +:+ ".";
        ReceivedName := Name input;
        ReceivedValue := Value input;
        SecretFromEnv := secretMessage
      |} in
      let w :=
        http.with_header (http.Set_ "Content-Type" "application/json") w in
      let w := http.WriteHeader http.StatusOK w in
      let w := Encode w (json.Marshal response) in
      log.Printf ("Processed input for " +:+ Name input
                    +:+ ", sent response." +:+ LF);;
      ret (w, with_Body (http.Close (http.Body r)) r)
    end.

(** ** Start-up (api_using_http_lib.go, lines 81-117) *)

Module godotenv.

(** [Load()]: [file] is what reading and parsing [.env] gives, an error
    or the variables of the file.  A variable that the environment has
    already is kept; a failure of [os.Setenv] is ignored. *)
Definition Load (file : error + gmap string string) : M (option error) :=
  match file with
  | inl e => ret (Some e)
  | inr envMap => fun p =>
    let currentEnv := environ p in
    (None,
     map_fold (fun key value p =>
                 match currentEnv !! key with
                 | Some _ => p
                 | None => snd (os.Setenv key value p)
                 end) p envMap)
  end.

End godotenv.

(** The patterns registered on the default mux.  How the mux matches a
    path is not modelled: an incoming request comes with the pattern it
    matched. *)
Inductive pattern : Type := health | process_.

Definition DefaultServeMux (pat : pattern) : handler :=
  match pat with
  | health => healthHandler
  | process_ => processHandler
  end.

(** [main] up to the call of [http.ListenAndServe], with the address it
    listens on. *)
Definition main (file : error + gmap string string) : M string :=
  let* err := godotenv.Load file in
  match err with
  | Some _ =>
    log.Println
      "Warning: Could not load .env file. Using environment variables if set directly."
  | None => ret tt
  end;;
  let* port := os.Getenv "APP_PORT" in
  let port := if String.eqb port "" then "8080" else port in
  let* anotherConfig := os.Getenv "ANOTHER_CONFIG_VALUE" in
  (if negb (String.eqb anotherConfig "") then
     log.Printf ("Loaded another config: " +:+ anotherConfig +:+ LF)
   else log.Println "ANOTHER_CONFIG_VALUE not found in environment.");;
  log.Printf ("Server starting on port " +:+ port +:+ "..." +:+ LF);;
  log.Printf ("Access health check at http://localhost:" +:+ port
                +:+ "/health" +:+ LF);;
  log.Printf ("Send POST requests to http://localhost:" +:+ port
                +:+ "/process" +:+ LF);;
  ret (":" +:+ port).

(** The server hands each request and a new response writer to the handler
    of its pattern, and sends what the handler wrote.  Requests are taken
    one after the other. *)
Definition serve1 (pat : pattern) (r : http.Request) : M http.Response :=
  let* wr := DefaultServeMux pat http.NewWriter r in
  ret (http.finishRequest (fst wr)).

Fixpoint serve (reqs : list (pattern * http.Request))
    : M (list http.Response) :=
  match reqs with
  | [] => ret []
  | (pat, r) :: reqs =>
    let* resp := serve1 pat r in
    let* resps := serve reqs in
    ret (resp :: resps)
  end.

(** ** Requests and their outcomes *)

Definition zero : ProcessInput := {| Name := ""; Value := 0 |}.

Definition decoded (r : http.Request) : error + ProcessInput :=
  match Decode_Body (http.Body r) zero with
  | (input, None, _) => inr input
  | (_, Some e, _) => inl e
  end.

(** What one request leaves behind: the response sent, the request as the
    handler left it, and the process. *)
Record outcome : Type := mkOutcome {
  response : http.Response;
  request : http.Request;
  after : process
}.

Definition handle (h : handler) (r : http.Request) (p : process) : outcome :=
  let '(w, r', p') := h http.NewWriter r p in
  mkOutcome (http.finishRequest w) r' p'.

(** The secret a handler resolves in a given environment. *)
Definition secret_in (env : gmap string string) : string :=
  let v := default "" (env !! "API_SECRET_MESSAGE") in
  if String.eqb v "" then "Default secret (env var not set)" else v.

Definition response_for (input : ProcessInput) (secret : string) : ProcessResponse :=
  {| Message := "Successfully processed input for " +:+ Name input +:+ ".";
     ReceivedName := Name input;
     ReceivedValue := Value input;
     SecretFromEnv := secret |}.

Definition ContentType (resp : http.Response) : string :=
  http.Get "Content-Type" (http.ResponseHeader resp).

Definition POST (body : string) : http.Request :=
  http.mkRequest http.MethodPost (http.mkBody body false false).

Definition GET : http.Request :=
  http.mkRequest "GET" (http.mkBody "" false false).

(** The request body and the input of the specification's example. *)
Definition sample_body : string := js "{'name':'test','value':42}".

Definition sample_input : ProcessInput := {| Name := "test"; Value := 42 |}.

(** A process whose environment sets the secret, and nothing else. *)
Definition env_hunter2 : process :=
  mkProcess (<["API_SECRET_MESSAGE" := "hunter2"]> ∅) [].

(** ** Definitions for the further properties *)

(** Whether [os.Setenv] accepts a key and a value. *)
Definition settable (key value : string) : bool :=
  negb (String.eqb key "" || os.has_byte 61 key || os.has_byte 0 key
        || os.has_byte 0 value).

(** The port [main] resolves in an environment. *)
Definition port_in (env : gmap string string) : string :=
  let v := default "" (env !! "APP_PORT") in
  if String.eqb v "" then "8080" else v.

(** The first byte that is no space opens an object. *)
Fixpoint starts_object (buf : string) : bool :=
  match buf with
  | EmptyString => false
  | String c rest =>
    if scanner.isSpace c then starts_object rest else byte_eqb c "{"
  end.

(** The scanner is inside an array or an object. *)
Definition inside (s : scanner.t) : Prop :=
  scanner.parseState s ≠ [] ∧ scanner.next s ≠ scanner.EndTop.

(** The first byte of a body that is no space. *)
Fixpoint first_byte (buf : string) : option ascii :=
  match buf with
  | EmptyString => None
  | String c rest => if scanner.isSpace c then first_byte rest else Some c
  end.

Definition begins (f : scanner.stepFn) : bool :=
  match f with
  | scanner.BeginValueOrEmpty | scanner.BeginValue
  | scanner.BeginStringOrEmpty | scanner.BeginString => true
  | _ => false
  end.

Definition ended (f : scanner.stepFn) : bool :=
  match f with
  | scanner.EndTop | scanner.Err => true
  | _ => false
  end.

(** The walk over a literal at the top: a literal that starts with [c0] is
    being read, or has been delivered. *)
Definition literal_walk (c0 : ascii) (w : json.walk) : Prop :=
  json.stack w = [] ∧
  scanner.parseState (json.scan w) = [] ∧
  begins (scanner.next (json.scan w)) = false ∧
  ((∃ l, json.literal w = Some (String c0 l) ∧ json.top w = None)
   ∨ (json.literal w = None ∧ ended (scanner.next (json.scan w)) = true ∧
      ∃ l, json.top w = Some (json.Literal (String c0 l)))).

(** The walk over an array at the top: the outermost open frame is an
    array, and the stack is as deep as the scanner's. *)
Definition array_walk (w : json.walk) : Prop :=
  json.top w = None ∧
  length (json.stack w) = length (scanner.parseState (json.scan w)) ∧
  scanner.next (json.scan w) ≠ scanner.EndTop ∧
  ∃ st es, json.stack w = st ++ [json.InArray es].

(** The states of a literal other than a number, at the top. *)
Definition plain_top (s : scanner.t) : Prop :=
  scanner.parseState s = [] ∧
  match scanner.next s with
  | scanner.T | scanner.Tr | scanner.Tru
  | scanner.F | scanner.Fa | scanner.Fal | scanner.Fals
  | scanner.N | scanner.Nu | scanner.Nul
  | scanner.InString | scanner.InStringEsc | scanner.InStringEscU
  | scanner.InStringEscU1 | scanner.InStringEscU12 | scanner.InStringEscU123
  | scanner.EndValue | scanner.EndTop | scanner.Err => True
  | _ => False
  end.

Fixpoint all_bytes (P : ascii → bool) (s : string) : bool :=
  match s with
  | EmptyString => true
  | String c s => P c && all_bytes P s
  end.

(** A byte that is not below 0x20 and is none of [<], [>] and [&]. *)
Definition html_safe (c : ascii) : bool :=
  let b := byte_val c in
  (0x20 <=? b) && negb ((b =? 60) || (b =? 62) || (b =? 38)).

Definition high (c : ascii) : bool := 0x80 <=? byte_val c.

(** The scanner's state after [data], if no byte of [data] fails. *)
Fixpoint run (s : scanner.t) (data : string) : option scanner.t :=
  match data with
  | EmptyString => Some s
  | String c data =>
    match scanner.step s c with
    | (_, scanner.scanError) => None
    | (s', _) => run s' data
    end
  end.

(** A byte that a string literal holds as it is. *)
Definition in_string (c : ascii) : bool :=
  let b := byte_val c in
  (0x20 <=? b) && negb ((b =? 34) || (b =? 92)).

(** A string between quotation marks. *)
Definition quote (s : string) : string := String DQ (s +:+ String DQ "").

(** The text of an object whose members are given by their key and by the
    text of their value, without any space. *)
Definition member_text (m : string * string) : string :=
  quote m.1 +:+ ":" +:+ m.2.

Fixpoint members_text (ms : list (string * string)) : string :=
  match ms with
  | [] => ""
  | [m] => member_text m
  | m :: ms => member_text m +:+ "," +:+ members_text ms
  end.

Definition object_text (ms : list (string * string)) : string :=
  "{" +:+ members_text ms +:+ "}".

(** The scanner inside an object at the top, where a key or a value is
    read. *)
Definition in_key (f : scanner.stepFn) : scanner.t :=
  scanner.mk f false [scanner.parseObjectKey] None.

Definition in_value (f : scanner.stepFn) : scanner.t :=
  scanner.mk f false [scanner.parseObjectValue] None.

(** The scanner's state after [data], if every byte of it continues a
    literal. *)
Fixpoint continues (s : scanner.t) (data : string) : option scanner.t :=
  match data with
  | EmptyString => Some s
  | String c data =>
    match scanner.step s c with
    | (s', scanner.scanContinue) => continues s' data
    | _ => None
    end
  end.

(** The states in which a comma or a brace ends the value of a member. *)
Definition value_ends (f : scanner.stepFn) : bool :=
  match f with
  | scanner.EndValue | scanner.Zero | scanner.One | scanner.Dot0
  | scanner.E0 => true
  | _ => false
  end.

(** [item] is the text of one literal: a string, a number, [true], [false]
    or [null], as the scanner reads it for the value of a member. *)
Definition is_item (item : string) : Prop :=
  ∃ c rest s1 f,
    item = String c rest ∧
    scanner.step (in_value scanner.BeginValue) c
    = (s1, scanner.scanBeginLiteral) ∧
    continues s1 rest = Some (in_value f) ∧
    value_ends f = true.

(** A key that needs no escape. *)
Definition is_key (k : string) : Prop := all_bytes in_string k = true.

Definition flat (ms : list (string * string)) : Prop :=
  Forall (λ m, is_key m.1 ∧ is_item m.2) ms.

(** The member as the walk delivers it. *)
Definition as_member (m : string * string) : string * json.node :=
  (quote m.1, json.Literal m.2).

(** A byte of ASCII that a string literal holds as it is, and that
    [unquoteBytes] copies. *)
Definition plain (c : ascii) : bool :=
  let b := byte_val c in
  (0x20 <=? b) && (b <? 0x80) && negb ((b =? 34) || (b =? 92)).

(** The values of the members: a string of plain bytes, an integer in
    decimal, an integer followed by a fraction, [true] or [false], and
    [null]. *)
Inductive scalar : Type :=
  | Str (s : string)
  | Int (v : Z)
  | Frac (v : Z) (ds : string)
  | Bool (b : bool)
  | Null.

Definition text_of (x : scalar) : string :=
  match x with
  | Str s => quote s
  | Int v => strconv.Itoa v
  | Frac v ds => strconv.Itoa v +:+ "." +:+ ds
  | Bool true => "true"
  | Bool false => "false"
  | Null => "null"
  end.

Definition well_formed (m : string * scalar) : bool :=
  all_bytes plain m.1
  && match m.2 with
     | Str s => all_bytes plain s
     | Frac _ ds =>
       negb (String.eqb ds "") && all_bytes scanner.isDigit ds
     | _ => true
     end.

(** The request body for an object with the members [ms]. *)
Definition object_of (ms : list (string * scalar)) : string :=
  object_text (map (λ m, (m.1, text_of m.2)) ms).

Definition int64 (v : Z) : bool := (- 2 ^ 63 <=? v) && (v <? 2 ^ 63).

(** Whether a member can be stored: its key selects no field, its value is
    [null], or its value has the type of the field. *)
Definition fits (m : string * scalar) : bool :=
  match json.lookup_field m.1, m.2 with
  | None, _ => true
  | Some _, Null => true
  | Some json.fName, Str _ => true
  | Some json.fValue, Int v => int64 v
  | Some _, _ => false
  end.

(** What storing a member that fits does to the input. *)
Definition assign (input : ProcessInput) (m : string * scalar)
    : ProcessInput :=
  match json.lookup_field m.1, m.2 with
  | Some json.fName, Str s => {| Name := s; Value := Value input |}
  | Some json.fValue, Int v => {| Name := Name input; Value := v |}
  | _, _ => input
  end.

(** The error of a member that does not fit. *)
Definition misfit (m : string * scalar) : error :=
  match json.lookup_field m.1 with
  | Some f =>
    json.field_error f
      match m.2, f with
      | Bool _, _ => "bool"
      | Str _, _ => "string"
      | _, json.fName => "number"
      | x, json.fValue => "number " +:+ text_of x
      end
  | None => io_EOF
  end.

(** What decoding the members [ms] into [input] gives: the error of the
    first member that does not fit, or else the input with every member
    stored in turn. *)
Definition stored (ms : list (string * scalar)) (input : ProcessInput)
    : error + ProcessInput :=
  match List.find (λ m, negb (fits m)) ms with
  | Some m => inl (misfit m)
  | None => inr (fold_left assign ms input)
  end.

(** Whether two inputs agree outside the field [f]. *)
Definition agree (f : json.field) (a b : ProcessInput) : Prop :=
  match f with
  | json.fName => Value a = Value b
  | json.fValue => Name a = Name b
  end.

(** The field a key selects depends on the key up to the case of its
    letters only. *)
Definition lookup_folded (key : string) : option json.field :=
  if String.eqb key "NAME" then Some json.fName
  else if String.eqb key "VALUE" then Some json.fValue
  else None.

(** A byte that the decoder and the encoder both copy as it is: ASCII, no
    control character, and none of the quotation mark, the backslash, [<],
    [>] and [&]. *)
Definition simple (c : ascii) : bool := plain c && html_safe c.

(** Well-formed UTF-8, by the table of the Unicode standard (chapter 3,
    table 3-7): the byte sequences of the scalar values, without overlong
    forms and without surrogates. *)
Fixpoint valid_utf8 (s : string) : bool :=
  match s with
  | EmptyString => true
  | String c0 s1 =>
    let b0 := byte_val c0 in
    if b0 <? 0x80 then valid_utf8 s1
    else
      match s1 with
      | EmptyString => false
      | String c1 s2 =>
        let b1 := byte_val c1 in
        if between 0xC2 0xDF b0 then between 0x80 0xBF b1 && valid_utf8 s2
        else
          match s2 with
          | EmptyString => false
          | String c2 s3 =>
            let b2 := byte_val c2 in
            if between 0xE0 0xEF b0 then
              between (if b0 =? 0xE0 then 0xA0 else 0x80)
                      (if b0 =? 0xED then 0x9F else 0xBF) b1
              && between 0x80 0xBF b2 && valid_utf8 s3
            else
              match s3 with
              | EmptyString => false
              | String c3 s4 =>
                between 0xF0 0xF4 b0
                && between (if b0 =? 0xF0 then 0x90 else 0x80)
                           (if b0 =? 0xF4 then 0x8F else 0xBF) b1
                && between 0x80 0xBF b2
                && between 0x80 0xBF (byte_val c3)
                && valid_utf8 s4
              end
          end
      end
  end.

(** The value of the first member of an object whose key, unquoted, is
    [key]. *)
Fixpoint find_member (key : string) (ms : list (string * json.node))
    : option json.node :=
  match ms with
  | [] => None
  | m :: ms =>
    match json.unquoteBytes m.1 with
    | Some k => if String.eqb k key then Some m.2 else find_member key ms
    | None => find_member key ms
    end
  end.

(** The text of the literal that the JSON object [body] has for [key]. *)
Definition member_literal (key body : string) : option string :=
  match json.parse body with
  | Some (json.Object ms) =>
    match find_member key ms with
    | Some (json.Literal item) => Some item
    | _ => None
    end
  | _ => None
  end.

(** The string, and the integer, that the JSON object [body] has for
    [key]. *)
Definition string_member (key body : string) : option string :=
  member_literal key body ≫= json.unquoteBytes.

Definition int_member (key body : string) : option Z :=
  member_literal key body ≫= strconv.ParseInt.

(** The members that [Marshal] writes. *)
Definition marshalled (v : ProcessResponse) : list (string * string) :=
  [("message", json.appendString (Message v));
   ("received_name", json.appendString (ReceivedName v));
   ("received_value", strconv.Itoa (ReceivedValue v));
   ("secret_from_env", json.appendString (SecretFromEnv v))].

(** Two bytes that are the same, or the two cases of one ASCII letter. *)
Definition same_letter (c d : ascii) : bool :=
  let x := byte_val c in
  let y := byte_val d in
  (x =? y)
  || (between 97 122 x && (y =? x - 32))
  || (between 97 122 y && (x =? y - 32)).

(** Two strings that differ in the case of ASCII letters only. *)
Fixpoint same_case (a b : string) : bool :=
  match a, b with
  | EmptyString, EmptyString => true
  | String c a, String d b => same_letter c d && same_case a b
  | _, _ => false
  end.

(** ** The fuel of the two loops is enough *)

Lemma length_skip n s : (String.length (skip n s) ≤ String.length s - n)%nat.
Proof.
  revert s. induction n as [|n IH]; intros [|c s]; cbn; try lia.
  apply IH.
Qed.

Lemma DecodeRune_size c s : (1 ≤ (utf8.DecodeRune (String c s)).2)%nat.
Proof.
  unfold utf8.DecodeRune.
  repeat (match goal with
          | |- context [if ?b then _ else _] => destruct b
          | |- context [match ?x with EmptyString => _ | String _ _ => _ end] =>
            destruct x
          end; cbn [snd]); lia.
Qed.

Lemma unquote_loop_fuel n m s :
  (String.length s ≤ n)%nat → (String.length s ≤ m)%nat →
  json.unquote_loop n s = json.unquote_loop m s.
Proof.
  revert m s. induction n as [|n IH]; intros m s Hn Hm.
  - destruct s; [by destruct m | cbn in Hn; lia].
  - destruct s as [|c r1]; [by destruct m|].
    destruct m as [|m]; [cbn in Hm; lia|].
    cbn [String.length] in Hn, Hm.
    assert (H1 : ∀ k, (String.length (skip (S k) (String c r1)) ≤ n)%nat
                      ∧ (String.length (skip (S k) (String c r1)) ≤ m)%nat).
    { intros k. pose proof (length_skip (S k) (String c r1)) as H.
      cbn [String.length] in H. lia. }
    assert (H2 : ∀ k, (String.length (skip 6 (skip (S k) (String c r1))) ≤ n)%nat
                      ∧ (String.length (skip 6 (skip (S k) (String c r1))) ≤ m)%nat).
    { intros k. pose proof (length_skip 6 (skip (S k) (String c r1))) as H.
      destruct (H1 k). lia. }
    cbn [json.unquote_loop].
    destruct (byte_eqb c "\").
    + destruct r1 as [|e r2]; [reflexivity|].
      assert (Hr2 : (String.length r2 ≤ n)%nat ∧ (String.length r2 ≤ m)%nat)
        by (cbn [String.length] in Hn, Hm; lia).
      destruct Hr2 as [Hr2n Hr2m].
      rewrite (IH m r2 Hr2n Hr2m).
      repeat (match goal with
              | |- context [if ?b then _ else _] => destruct b
              end; try reflexivity).
      * f_equal. apply IH; apply (H2 5%nat).
      * f_equal. apply IH; apply (H1 5%nat).
      * f_equal. apply IH; apply (H1 5%nat).
    + repeat (match goal with
              | |- context [if ?b then _ else _] => destruct b
              end; try reflexivity).
      * f_equal. apply IH; lia.
      * pose proof (DecodeRune_size c r1) as Hs.
        destruct (utf8.DecodeRune (String c r1)) as [rr size]. cbn [snd] in Hs.
        destruct size as [|size]; [lia|].
        f_equal. apply IH; apply (H1 size).
Qed.

(** With the fuel [unquoteBytes] gives it, [unquote_loop] behaves as with any
    larger fuel: it never stops for want of fuel. *)
Corollary unquote_loop_enough n s :
  (String.length s ≤ n)%nat →
  json.unquote_loop n s = json.unquote_loop (String.length s) s.
Proof. intros H. by apply unquote_loop_fuel. Qed.

Lemma appendString_loop_fuel n m s :
  (String.length s ≤ n)%nat → (String.length s ≤ m)%nat →
  json.appendString_loop n s = json.appendString_loop m s.
Proof.
  revert m s. induction n as [|n IH]; intros m s Hn Hm.
  - destruct s; [by destruct m | cbn in Hn; lia].
  - destruct s as [|c rest]; [by destruct m|].
    destruct m as [|m]; [cbn in Hm; lia|].
    cbn [String.length] in Hn, Hm.
    cbn [json.appendString_loop].
    pose proof (DecodeRune_size c rest) as Hs.
    destruct (utf8.DecodeRune (String c rest)) as [r size]. cbn [snd] in Hs.
    destruct size as [|size]; [lia|].
    pose proof (length_skip (S size) (String c rest)) as Hk.
    cbn [String.length] in Hk.
    rewrite (IH m rest) by lia.
    rewrite (IH m (skip (S size) (String c rest))) by lia.
    reflexivity.
Qed.

Corollary appendString_loop_enough n s :
  (String.length s ≤ n)%nat →
  json.appendString_loop n s = json.appendString_loop (String.length s) s.
Proof. intros H. by apply appendString_loop_fuel. Qed.

(** ** The paths through [processHandler] *)

Lemma ends_with_newline_app a b :
  log.ends_with_newline b = true → log.ends_with_newline (a +:+ b) = true.
Proof.
  intros Hb. induction a as [|c a IH]; [exact Hb|].
  change (String c a +:+ b) with (String c (a +:+ b)).
  destruct (a +:+ b) eqn:E; [|exact IH].
  destruct a; cbn in E; [subst; discriminate | discriminate].
Qed.

Lemma ends_with_newline_LF : log.ends_with_newline LF = true.
Proof. reflexivity. Qed.

Create HintDb newline.
#[local] Hint Resolve ends_with_newline_app ends_with_newline_LF : newline.

Lemma Output_newline s p :
  log.ends_with_newline s = true →
  log.Output s p = (tt, mkProcess (environ p) (logged p ++ [s])).
Proof. intros H. unfold log.Output. by rewrite H. Qed.

Ltac run_log :=
  unfold bind, ret, log.Printf, log.Println, os.Getenv; cbn beta;
  repeat (rewrite Output_newline by auto with newline; cbn beta iota);
  cbn [environ logged].

Lemma processHandler_method w r p :
  http.Method r ≠ http.MethodPost →
  processHandler w r p
  = (http.Error w "Only POST method is allowed" http.StatusMethodNotAllowed, r, p).
Proof.
  intros H. unfold processHandler.
  destruct (String.eqb_spec (http.Method r) http.MethodPost); [done|reflexivity].
Qed.

Lemma processHandler_error w r p input e b :
  http.Method r = http.MethodPost →
  Decode_Body (http.Body r) zero = (input, Some e, b) →
  processHandler w r p
  = (http.Error w ("Invalid JSON input: " +:+ Error e) http.StatusBadRequest,
     with_Body b r,
     mkProcess (environ p) (logged p ++ ["Error decoding JSON: " +:+ Error e +:+ LF])).
Proof.
  intros Hm Hd. unfold processHandler. rewrite Hm, String.eqb_refl. cbn [negb].
  change {| Name := ""; Value := 0 |} with zero. rewrite Hd.
  by run_log.
Qed.

Lemma processHandler_ok w r p input b :
  http.Method r = http.MethodPost →
  Decode_Body (http.Body r) zero = (input, None, b) →
  processHandler w r p
  = (Encode (http.WriteHeader http.StatusOK
              (http.with_header (http.Set_ "Content-Type" "application/json") w))
            (json.Marshal (response_for input (secret_in (environ p)))),
     with_Body (http.Close b) r,
     mkProcess (environ p)
       (logged p ++ ["Received input: Name=" +:+ Name input +:+ ", Value="
                       +:+ strconv.Itoa (Value input) +:+ LF;
                     "Processed input for " +:+ Name input
                       +:+ ", sent response." +:+ LF])).
Proof.
  intros Hm Hd. unfold processHandler. rewrite Hm, String.eqb_refl. cbn [negb].
  change {| Name := ""; Value := 0 |} with zero. rewrite Hd.
  run_log. rewrite <- app_assoc. reflexivity.
Qed.

Lemma handle_method r p :
  http.Method r ≠ http.MethodPost →
  handle processHandler r p
  = mkOutcome
      (http.finishRequest
         (http.Error http.NewWriter "Only POST method is allowed"
                     http.StatusMethodNotAllowed)) r p.
Proof. intros H. unfold handle. by rewrite processHandler_method. Qed.

Lemma decoded_inl r e :
  decoded r = inl e →
  ∃ input b, Decode_Body (http.Body r) zero = (input, Some e, b).
Proof.
  unfold decoded. destruct (Decode_Body _ _) as [[input [e'|]] b]; [|done].
  intros [= ->]. eauto.
Qed.

Lemma decoded_inr r input :
  decoded r = inr input →
  ∃ b, Decode_Body (http.Body r) zero = (input, None, b).
Proof.
  unfold decoded. destruct (Decode_Body _ _) as [[input' [e'|]] b]; [done|].
  intros [= ->]. eauto.
Qed.

Lemma Decode_Body_body b v :
  (Decode_Body b v).2 = http.mkBody (http.content b) true (http.closed b).
Proof. unfold Decode_Body. by destruct (http.closed b). Qed.

Lemma Error_sent msg code :
  http.finishRequest (http.Error http.NewWriter msg code)
  = http.mkResponse code
      (http.Set_ "X-Content-Type-Options" "nosniff"
         (http.Set_ "Content-Type" "text/plain; charset=utf-8"
            (http.Del "Content-Length" ∅)))
      (msg +:+ LF).
Proof. reflexivity. Qed.

Lemma Encode_sent text :
  http.finishRequest
    (Encode (http.WriteHeader http.StatusOK
               (http.with_header (http.Set_ "Content-Type" "application/json")
                                 http.NewWriter)) text)
  = http.mkResponse 200 (http.Set_ "Content-Type" "application/json" ∅)
                    (text +:+ LF).
Proof. reflexivity. Qed.

Lemma handle_error r p e :
  http.Method r = http.MethodPost →
  decoded r = inl e →
  handle processHandler r p
  = mkOutcome
      (http.mkResponse 400
         (http.Set_ "X-Content-Type-Options" "nosniff"
            (http.Set_ "Content-Type" "text/plain; charset=utf-8"
               (http.Del "Content-Length" ∅)))
         ("Invalid JSON input: " +:+ Error e +:+ LF))
      (with_Body (http.mkBody (http.content (http.Body r)) true
                              (http.closed (http.Body r))) r)
      (mkProcess (environ p)
                 (logged p ++ ["Error decoding JSON: " +:+ Error e +:+ LF])).
Proof.
  intros Hm Hd. destruct (decoded_inl _ _ Hd) as (input & b & Hb).
  pose proof (Decode_Body_body (http.Body r) zero) as Hbb.
  rewrite Hb in Hbb. cbn in Hbb. subst b.
  unfold handle. rewrite (processHandler_error _ _ _ _ _ _ Hm Hb).
  rewrite Error_sent. reflexivity.
Qed.

Lemma handle_ok r p input :
  http.Method r = http.MethodPost →
  decoded r = inr input →
  handle processHandler r p
  = mkOutcome
      (http.mkResponse 200 (http.Set_ "Content-Type" "application/json" ∅)
         (json.Marshal (response_for input (secret_in (environ p))) +:+ LF))
      (with_Body (http.mkBody (http.content (http.Body r)) true true) r)
      (mkProcess (environ p)
         (logged p ++ ["Received input: Name=" +:+ Name input +:+ ", Value="
                         +:+ strconv.Itoa (Value input) +:+ LF;
                       "Processed input for " +:+ Name input
                         +:+ ", sent response." +:+ LF])).
Proof.
  intros Hm Hd. destruct (decoded_inr _ _ Hd) as (b & Hb).
  pose proof (Decode_Body_body (http.Body r) zero) as Hbb.
  rewrite Hb in Hbb. cbn in Hbb. subst b.
  unfold handle. rewrite (processHandler_ok _ _ _ _ _ Hm Hb).
  rewrite Encode_sent. reflexivity.
Qed.

(** ** Both handlers leave the environment alone *)

Lemma healthHandler_outcome r p :
  handle healthHandler r p
  = mkOutcome
      (http.mkResponse 200 (http.Set_ "Content-Type" "application/json" ∅)
         (js "{'message':'API is healthy!','status':'ok'}" +:+ LF))
      r
      (mkProcess (environ p) (logged p ++ ["Health check successful" +:+ LF])).
Proof. reflexivity. Qed.

Lemma handle_environ pat r p :
  environ (after (handle (DefaultServeMux pat) r p)) = environ p.
Proof.
  destruct pat; [reflexivity|]. cbn [DefaultServeMux].
  destruct (String.eqb_spec (http.Method r) http.MethodPost) as [Hm|Hm].
  - destruct (decoded r) as [e|input] eqn:Hd.
    + by rewrite (handle_error _ _ _ Hm Hd).
    + by rewrite (handle_ok _ _ _ Hm Hd).
  - by rewrite (handle_method _ _ Hm).
Qed.

Lemma serve1_handle pat r p :
  serve1 pat r p
  = (response (handle (DefaultServeMux pat) r p),
     after (handle (DefaultServeMux pat) r p)).
Proof.
  unfold serve1, handle, bind, ret.
  by destruct (DefaultServeMux pat http.NewWriter r p) as [[w r'] p'].
Qed.

Lemma serve_environ reqs p : environ (serve reqs p).2 = environ p.
Proof.
  revert p. induction reqs as [|[pat r] reqs IH]; intros p; [reflexivity|].
  cbn [serve]. unfold bind. rewrite serve1_handle.
  destruct (serve reqs _) as [resps p'] eqn:E. cbn [ret snd].
  change p' with (resps, p').2. rewrite <- E, IH. apply handle_environ.
Qed.

(** The response depends on the process through its environment only. *)
Lemma handle_response_environ pat r p q :
  environ p = environ q →
  response (handle (DefaultServeMux pat) r p)
  = response (handle (DefaultServeMux pat) r q).
Proof.
  intros He. destruct pat; [reflexivity|]. cbn [DefaultServeMux].
  destruct (String.eqb_spec (http.Method r) http.MethodPost) as [Hm|Hm].
  - destruct (decoded r) as [e|input] eqn:Hd.
    + by rewrite !(handle_error _ _ _ Hm Hd).
    + by rewrite !(handle_ok _ _ _ Hm Hd), He.
  - by rewrite !(handle_method _ _ Hm).
Qed.

(** ** The claims *)

(** The example of the specification: the bytes sent for
    [{"name":"test","value":42}] under [API_SECRET_MESSAGE=hunter2]. *)
Example process_example :
  http.ResponseBody
    (response (handle processHandler (POST sample_body)
                      env_hunter2))
  = js ("{'message':'Successfully processed input for test.',"
          +:+ "'received_name':'test','received_value':42,"
          +:+ "'secret_from_env':'hunter2'}")
    +:+ LF.
Proof. vm_compute. reflexivity. Qed.

(** C2, as the specification states it, fails: it speaks of every request
    whose body does not decode, but the handler looks at the method first.
    A GET request with the body [not json] is answered with 405, not 400;
    its body is never decoded and nothing is logged. *)
Lemma C2_counterexample :
  let r := http.mkRequest "GET" (http.mkBody "not json" false false) in
  let o := handle processHandler r env_hunter2 in
  (∃ e, decoded r = inl e) ∧
  http.StatusCode (response o) = http.StatusMethodNotAllowed ∧
  http.StatusCode (response o) ≠ http.StatusBadRequest ∧
  String.prefix "Invalid JSON input:" (http.ResponseBody (response o)) = false ∧
  logged (after o) = logged env_hunter2.
Proof.
  cbv zeta. split.
  - exists (SyntaxError "invalid character 'o' in literal null (expecting 'u')").
    vm_compute. reflexivity.
  - split; [vm_compute; reflexivity|]. split; [vm_compute; discriminate|].
    split; vm_compute; reflexivity.
Qed.

(** C2, amended.  A POST request to [/process] whose body does not decode
    is answered with status 400 and a body that starts with
    "Invalid JSON input:" and goes on with the decoder's message; the
    failure is logged, and nothing else changes: the log gains that one
    entry and the environment stays as it is. *)
Theorem C2_process_bad_request (r : http.Request) (p : process) (e : error) :
  http.Method r = http.MethodPost →
  decoded r = inl e →
  let o := handle processHandler r p in
  http.StatusCode (response o) = http.StatusBadRequest ∧
  http.ResponseBody (response o)
  = "Invalid JSON input: " +:+ Error e +:+ LF ∧
  String.prefix "Invalid JSON input:" (http.ResponseBody (response o)) = true ∧
  logged (after o) = logged p ++ ["Error decoding JSON: " +:+ Error e +:+ LF] ∧
  environ (after o) = environ p.
Proof.
  intros Hm Hd o. subst o. rewrite (handle_error _ _ _ Hm Hd).
  repeat split; reflexivity.
Qed.

Lemma C2_witness :
  http.Method (POST "not json") = http.MethodPost ∧
  decoded (POST "not json")
  = inl (SyntaxError "invalid character 'o' in literal null (expecting 'u')") ∧
  http.StatusCode (response (handle processHandler (POST "not json") env_hunter2))
  = http.StatusBadRequest.
Proof.
  split; [reflexivity|]. split; [vm_compute; reflexivity|].
  apply (C2_process_bad_request (POST "not json") env_hunter2
           (SyntaxError "invalid character 'o' in literal null (expecting 'u')"));
    [reflexivity | vm_compute; reflexivity].
Defined.

(** C3, as the specification states it, fails: the body of the 405 response
    is not the bare message, it ends in a newline. *)
Lemma C3_counterexample :
  http.Method GET ≠ http.MethodPost ∧
  http.ResponseBody (response (handle processHandler GET env_hunter2))
  ≠ "Only POST method is allowed".
Proof. split; vm_compute; discriminate. Qed.

(** C3, amended.  A request to [/process] with a method other than POST is
    answered with status 405 and the body "Only POST method is allowed"
    followed by a newline; the handler returns at once: the request body is
    neither read nor closed, nothing is logged, the process is unchanged. *)
Theorem C3_method_not_allowed (r : http.Request) (p : process) :
  http.Method r ≠ http.MethodPost →
  let o := handle processHandler r p in
  http.StatusCode (response o) = http.StatusMethodNotAllowed ∧
  http.ResponseBody (response o) = "Only POST method is allowed" +:+ LF ∧
  request o = r ∧
  after o = p.
Proof.
  intros Hm o. subst o. rewrite (handle_method _ _ Hm).
  repeat split; reflexivity.
Qed.

Lemma C3_witness :
  http.Method GET ≠ http.MethodPost ∧
  http.StatusCode (response (handle processHandler GET env_hunter2))
  = http.StatusMethodNotAllowed.
Proof.
  assert (H : http.Method GET ≠ http.MethodPost) by (vm_compute; discriminate).
  split; [exact H|]. apply (C3_method_not_allowed GET env_hunter2 H).
Defined.

(** C5, as the specification states it, fails: the bytes sent for [/health]
    are not the literal of the specification.  Go writes the keys of a map
    in sorted order, and [Encode] ends the text with a newline. *)
Lemma C5_counterexample :
  http.ResponseBody (response (handle healthHandler GET env_hunter2))
  ≠ js "{'status':'ok','message':'API is healthy!'}".
Proof. vm_compute. discriminate. Qed.

(** C5, amended.  Every request to [/health], whatever its method and
    whatever requests came before, is answered with status 200, content
    type [application/json] and the body
    [{"message":"API is healthy!","status":"ok"}] followed by a newline,
    which is the JSON object of the specification with its keys in sorted
    order.  The handler leaves the request and the environment as they are;
    it adds one entry to the log. *)
Theorem C5_health (prior : list (pattern * http.Request)) (r : http.Request)
    (p : process) :
  let p1 := (serve prior p).2 in
  let o := handle healthHandler r p1 in
  http.StatusCode (response o) = http.StatusOK ∧
  ContentType (response o) = "application/json" ∧
  http.ResponseBody (response o)
  = js "{'message':'API is healthy!','status':'ok'}" +:+ LF ∧
  (∃ ms ms',
     json.parse (http.ResponseBody (response o)) = Some (json.Object ms) ∧
     json.parse (js "{'status':'ok','message':'API is healthy!'}")
     = Some (json.Object ms') ∧
     ms ≡ₚ ms') ∧
  request o = r ∧
  environ (after o) = environ p ∧
  logged (after o) = logged p1 ++ ["Health check successful" +:+ LF].
Proof.
  intros p1 o. subst o. rewrite healthHandler_outcome. cbn [response request after].
  repeat split; try reflexivity.
  - exists [(js "'message'", json.Literal (js "'API is healthy!'"));
            (js "'status'", json.Literal (js "'ok'"))],
           [(js "'status'", json.Literal (js "'ok'"));
            (js "'message'", json.Literal (js "'API is healthy!'"))].
    split; [vm_compute; reflexivity|].
    split; [vm_compute; reflexivity|]. apply Permutation_swap.
  - cbn [environ]. apply serve_environ.
Qed.

(** C6.  The handler does not close the body on every path: after a decode
    failure, and after the rejection of a method, the body it was given open
    is still open when it returns.  Only the successful path closes it,
    since [defer r.Body.Close()] stands behind the early return of the
    decode failure. *)
Theorem C6_body_left_open :
  decoded (POST "not json")
  = inl (SyntaxError "invalid character 'o' in literal null (expecting 'u')") ∧
  http.closed (http.Body (request (handle processHandler (POST "not json")
                                          env_hunter2))) = false ∧
  http.closed (http.Body (request (handle processHandler GET env_hunter2)))
  = false ∧
  http.closed
    (http.Body (request (handle processHandler
                                (POST sample_body)
                                env_hunter2))) = true.
Proof. repeat split; vm_compute; reflexivity. Qed.

(** C8.  In a fixed environment two identical POST requests to [/process]
    get identical responses, status, headers and body, whatever the body of
    the requests and whatever other requests are served in between; the
    handlers leave the environment as it was. *)
Theorem C8_process_repeatable (body : string) (p : process)
    (between : list (pattern * http.Request)) :
  let first := serve1 process_ (POST body) p in
  let later := serve between first.2 in
  let second := serve1 process_ (POST body) later.2 in
  first.1 = second.1 ∧ environ second.2 = environ p.
Proof.
  intros first later second. subst second later first.
  rewrite !serve1_handle. cbn [fst snd]. split.
  - apply handle_response_environ.
    by rewrite serve_environ, (handle_environ process_).
  - by rewrite (handle_environ process_), serve_environ,
               (handle_environ process_).
Qed.

(** C9.  The body [{"name":"a","value":1}garbage] is not a JSON document,
    while its leading object is one; the handler answers it with status 200
    and echoes the leading object: the bytes of the response are those of
    the object with the name a and the value 1.  The same holds whatever
    bytes follow the object: the decoder stops at the closing brace of the
    first value and never looks at the rest. *)
Theorem C9_trailing_bytes_accepted :
  let object := js "{'name':'a','value':1}" in
  let echo (body : string) :=
    let resp := response (handle processHandler (POST body) env_hunter2) in
    http.StatusCode resp = http.StatusOK ∧
    http.ResponseBody resp
    = js ("{'message':'Successfully processed input for a.',"
            +:+ "'received_name':'a','received_value':1,"
            +:+ "'secret_from_env':'hunter2'}")
      +:+ LF in
  json.Valid object = true ∧
  json.Valid (object +:+ "garbage") = false ∧
  decoded (POST (object +:+ "garbage")) = inr {| Name := "a"; Value := 1 |} ∧
  echo (object +:+ "garbage") ∧
  ∀ trailing : string, echo (object +:+ trailing).
Proof.
  cbv zeta.
  assert (Hd : ∀ trailing,
            decoded (POST (js "{'name':'a','value':1}" +:+ trailing))
            = inr {| Name := "a"; Value := 1 |}).
  { intros trailing. vm_compute. reflexivity. }
  assert (He : ∀ trailing,
            let resp :=
              response (handle processHandler
                          (POST (js "{'name':'a','value':1}" +:+ trailing))
                          env_hunter2) in
            http.StatusCode resp = http.StatusOK ∧
            http.ResponseBody resp
            = js ("{'message':'Successfully processed input for a.',"
                    +:+ "'received_name':'a','received_value':1,"
                    +:+ "'secret_from_env':'hunter2'}")
              +:+ LF).
  { intros trailing resp. subst resp.
    rewrite (handle_ok (POST (js "{'name':'a','value':1}" +:+ trailing))
               _ _ eq_refl (Hd trailing)).
    split; reflexivity. }
  split; [vm_compute; reflexivity|]. split; [vm_compute; reflexivity|].
  split; [apply Hd|]. split; [apply He|]. exact He.
Qed.

(** C10.  Every response of the [/process] handler has status 200, 400 or
    405.  The two error responses, 405 and 400, carry the content type
    [text/plain; charset=utf-8] and a body that ends in a newline and is
    not a JSON document; the content type is [application/json] exactly for
    the responses of status 200. *)
Theorem C10_error_responses_plain_text (r : http.Request) (p : process) :
  let resp := response (handle processHandler r p) in
  (http.StatusCode resp = http.StatusOK
   ∨ http.StatusCode resp = http.StatusBadRequest
   ∨ http.StatusCode resp = http.StatusMethodNotAllowed) ∧
  (http.StatusCode resp = http.StatusMethodNotAllowed
   ∨ http.StatusCode resp = http.StatusBadRequest →
   ContentType resp = "text/plain; charset=utf-8" ∧
   log.ends_with_newline (http.ResponseBody resp) = true ∧
   json.Valid (http.ResponseBody resp) = false) ∧
  (ContentType resp = "application/json"
   ↔ http.StatusCode resp = http.StatusOK).
Proof.
  intros resp. subst resp.
  destruct (String.eqb_spec (http.Method r) http.MethodPost) as [Hm|Hm].
  - destruct (decoded r) as [e|input] eqn:Hd.
    + rewrite (handle_error _ _ _ Hm Hd). cbn [response http.StatusCode
        http.ResponseBody]. split; [by right; left|]. split.
      * intros _. split; [reflexivity|]. split; [|reflexivity].
        auto with newline.
      * split; [intros [=] | intros [=]].
    + rewrite (handle_ok _ _ _ Hm Hd). cbn [response http.StatusCode
        http.ResponseBody]. split; [by left|]. split.
      * intros [[=]|[=]].
      * split; reflexivity.
  - rewrite (handle_method _ _ Hm). split; [by right; right|]. split.
    + intros _. repeat split; reflexivity.
    + split; [intros [=] | intros [=]].
Qed.

(** * Further properties of the handlers and of start-up *)

(** X1.  The status of a [/process] response tells the path taken: 405
    exactly for a method other than POST, 400 exactly for a POST whose body
    does not decode, 200 exactly for a POST whose body decodes. *)
Theorem process_status_cases (r : http.Request) (p : process) :
  let st := http.StatusCode (response (handle processHandler r p)) in
  (st = http.StatusMethodNotAllowed ↔ http.Method r ≠ http.MethodPost) ∧
  (st = http.StatusBadRequest
   ↔ http.Method r = http.MethodPost ∧ ∃ e, decoded r = inl e) ∧
  (st = http.StatusOK
   ↔ http.Method r = http.MethodPost ∧ ∃ input, decoded r = inr input).
Proof.
  intros st. subst st.
  destruct (String.eqb_spec (http.Method r) http.MethodPost) as [Hm|Hm].
  - destruct (decoded r) as [e|input] eqn:Hd.
    + rewrite (handle_error _ _ _ Hm Hd). cbn [response http.StatusCode].
      repeat split; try done; try (intros [_ [? [=]]]); eauto.
    + rewrite (handle_ok _ _ _ Hm Hd). cbn [response http.StatusCode].
      repeat split; try done; try (intros [_ [? [=]]]); eauto.
  - rewrite (handle_method _ _ Hm). cbn [response http.StatusCode].
    repeat split; try done; intros [? _]; done.
Qed.

(** X2.  Given an open request body, the handler has closed it when it
    returns exactly if it answers 200; it has read from it exactly if the
    method is POST. *)
Theorem process_body_closed_iff_ok (r : http.Request) (p : process) :
  http.closed (http.Body r) = false →
  http.wasRead (http.Body r) = false →
  let o := handle processHandler r p in
  (http.closed (http.Body (request o)) = true
   ↔ http.StatusCode (response o) = http.StatusOK) ∧
  (http.wasRead (http.Body (request o)) = true
   ↔ http.Method r = http.MethodPost).
Proof.
  intros Hc Hr o. subst o.
  destruct (String.eqb_spec (http.Method r) http.MethodPost) as [Hm|Hm].
  - destruct (decoded r) as [e|input] eqn:Hd.
    + rewrite (handle_error _ _ _ Hm Hd). cbn. rewrite Hc. by repeat split.
    + rewrite (handle_ok _ _ _ Hm Hd). cbn. by repeat split.
  - rewrite (handle_method _ _ Hm). cbn. rewrite Hc, Hr. by repeat split.
Qed.

Lemma process_body_closed_iff_ok_witness :
  http.closed (http.Body (POST "not json")) = false ∧
  http.wasRead (http.Body (POST "not json")) = false ∧
  (http.closed (http.Body (request (handle processHandler (POST "not json")
                                           env_hunter2))) = true
   ↔ http.StatusCode (response (handle processHandler (POST "not json")
                                       env_hunter2)) = http.StatusOK).
Proof.
  split; [reflexivity|]. split; [reflexivity|].
  apply (process_body_closed_iff_ok (POST "not json") env_hunter2);
    reflexivity.
Defined.

(** X3.  A response other than 200 does not depend on the process at all:
    neither on its environment, so that no error response can carry the
    secret, nor on its log. *)
Theorem process_error_ignores_process (r : http.Request) (p q : process) :
  http.StatusCode (response (handle processHandler r p)) ≠ http.StatusOK →
  response (handle processHandler r p) = response (handle processHandler r q).
Proof.
  destruct (String.eqb_spec (http.Method r) http.MethodPost) as [Hm|Hm].
  - destruct (decoded r) as [e|input] eqn:Hd.
    + by rewrite !(handle_error _ _ _ Hm Hd).
    + rewrite (handle_ok _ _ _ Hm Hd). by intros [].
  - by rewrite !(handle_method _ _ Hm).
Qed.

Lemma process_error_ignores_process_witness :
  http.StatusCode (response (handle processHandler (POST "not json")
                                    env_hunter2)) ≠ http.StatusOK ∧
  response (handle processHandler (POST "not json") env_hunter2)
  = response (handle processHandler (POST "not json") (mkProcess ∅ [])).
Proof.
  assert (H : http.StatusCode (response (handle processHandler
                (POST "not json") env_hunter2)) ≠ http.StatusOK)
    by (vm_compute; discriminate).
  split; [exact H|].
  exact (process_error_ignores_process (POST "not json") env_hunter2
           (mkProcess ∅ []) H).
Defined.

(** X4.  The server keeps no state between requests: in a sequence of
    requests each one gets the response it would get as the first. *)
Theorem serve_history_independent (reqs : list (pattern * http.Request))
    (p : process) :
  (serve reqs p).1 = map (λ pr, (serve1 pr.1 pr.2 p).1) reqs.
Proof.
  revert p. induction reqs as [|[pat r] reqs IH]; intros p; [reflexivity|].
  cbn [serve map fst snd]. unfold bind.
  destruct (serve1 pat r p) as [resp p1] eqn:E1.
  destruct (serve reqs p1) as [resps p2] eqn:E2. cbn [ret fst].
  f_equal. change resps with (resps, p2).1. rewrite <- E2, IH.
  apply map_ext. intros [pat' r']. cbn [fst snd].
  rewrite !serve1_handle. cbn [fst].
  apply handle_response_environ.
  change p1 with (resp, p1).2. rewrite <- E1, serve1_handle. cbn [snd].
  apply handle_environ.
Qed.

(** ** Start-up *)

Lemma Setenv_environ key value p :
  environ (os.Setenv key value p).2
  = if settable key value then <[key := value]> (environ p) else environ p.
Proof.
  unfold os.Setenv, settable.
  by destruct (_ || _ || _ || _).
Qed.

Lemma Setenv_logged key value p : logged (os.Setenv key value p).2 = logged p.
Proof. unfold os.Setenv. by destruct (_ || _ || _ || _). Qed.

Lemma Load_lookup (m : gmap string string) (p : process) (k : string) :
  environ (godotenv.Load (inr m) p).2 !! k
  = match environ p !! k with
    | Some x => Some x
    | None =>
      match m !! k with
      | Some v => if settable k v then Some v else None
      | None => None
      end
    end.
Proof.
  unfold godotenv.Load. cbn [snd]. revert k.
  apply (map_fold_weak_ind
           (λ (r : process) (m' : gmap string string),
              ∀ k, environ r !! k
                   = match environ p !! k with
                     | Some x => Some x
                     | None =>
                       match m' !! k with
                       | Some v => if settable k v then Some v else None
                       | None => None
                       end
                     end)).
  - intros k. rewrite lookup_empty. by destruct (environ p !! k).
  - intros i x m' r Hi IH k.
    destruct (environ p !! i) as [y|] eqn:Hpi.
    + rewrite IH. destruct (decide (i = k)) as [->|Hne].
      * by rewrite Hpi.
      * by rewrite lookup_insert_ne.
    + rewrite Setenv_environ. destruct (decide (i = k)) as [->|Hne].
      * rewrite Hpi, lookup_insert_eq.
        destruct (settable k x); [by rewrite lookup_insert_eq|].
        by rewrite IH, Hpi, Hi.
      * rewrite (lookup_insert_ne m') by done.
        destruct (settable i x); [rewrite lookup_insert_ne by done|]; apply IH.
Qed.

Lemma Load_logged file p : logged (godotenv.Load file p).2 = logged p.
Proof.
  destruct file as [e|m]; [reflexivity|]. unfold godotenv.Load. cbn [snd].
  apply (map_fold_weak_ind (λ (r : process) (_ : gmap string string),
                              logged r = logged p)); [reflexivity|].
  intros i x m' r _ IH. destruct (environ p !! i); [done|].
  by rewrite Setenv_logged.
Qed.

(** The whole of [main], after [godotenv.Load]. *)
Lemma main_run file p :
  let loaded := (godotenv.Load file p).2 in
  let port := port_in (environ loaded) in
  let config := default "" (environ loaded !! "ANOTHER_CONFIG_VALUE") in
  main file p
  = (":" +:+ port,
     mkProcess (environ loaded)
       (logged p
        ++ (if file is inl _ then
              ["Warning: Could not load .env file. Using environment variables if set directly."
                 +:+ LF]
            else [])
        ++ [if String.eqb config "" then
              "ANOTHER_CONFIG_VALUE not found in environment." +:+ LF
            else "Loaded another config: " +:+ config +:+ LF]
        ++ ["Server starting on port " +:+ port +:+ "..." +:+ LF;
            "Access health check at http://localhost:" +:+ port +:+ "/health"
              +:+ LF;
            "Send POST requests to http://localhost:" +:+ port +:+ "/process"
              +:+ LF])).
Proof.
  intros loaded port config. unfold main.
  pose proof (Load_logged file p) as Hl. fold loaded in Hl.
  unfold bind at 1.
  destruct (godotenv.Load file p) as [err q] eqn:E.
  assert (Herr : err = (if file is inl e then Some e else None)).
  { destruct file; cbn in E; by injection E as <- _. }
  subst loaded port config. cbn [snd] in *.
  destruct file as [e|m]; subst err.
  - run_log. destruct (String.eqb (default "" (environ q !! _)) "") eqn:Ec;
      cbn [negb]; run_log; rewrite Hl, <- !app_assoc; reflexivity.
  - run_log. destruct (String.eqb (default "" (environ q !! _)) "") eqn:Ec;
      cbn [negb]; run_log; rewrite Hl, <- !app_assoc; reflexivity.
Qed.

Lemma port_in_nonempty env : port_in env ≠ "".
Proof.
  unfold port_in. destruct (String.eqb_spec (default "" (env !! "APP_PORT")) "");
    [discriminate | done].
Qed.

(** X5.  A missing [.env] file is not fatal: [main] logs the warning as its
    first entry, leaves the environment as it found it, and listens on the
    port of [APP_PORT], or on 8080 when that variable is unset or empty. *)
Theorem main_without_dotenv (e : error) (p : process) :
  let started := main (inl e) p in
  environ started.2 = environ p ∧
  (environ p !! "APP_PORT" = None ∨ environ p !! "APP_PORT" = Some "" →
   started.1 = ":8080") ∧
  (∀ v, environ p !! "APP_PORT" = Some v → v ≠ "" → started.1 = ":" +:+ v) ∧
  ∃ rest,
    logged started.2
    = logged p
      ++ ("Warning: Could not load .env file. Using environment variables if set directly."
            +:+ LF) :: rest.
Proof.
  intros started. subst started. rewrite main_run. cbn [fst snd godotenv.Load ret].
  split; [reflexivity|]. unfold port_in. split; [|split].
  - by intros [-> | ->].
  - intros v -> Hv. cbn. by destruct (String.eqb_spec v "").
  - eexists. reflexivity.
Qed.

(** X6.  Start-up never changes a variable the environment has: whatever
    the [.env] file holds, every variable that was set keeps its value.  In
    particular a non-empty [APP_PORT] of the environment decides the port,
    whatever the file says. *)
Theorem main_environment_wins (file : error + gmap string string)
    (p : process) (k v : string) :
  environ p !! k = Some v →
  environ (main file p).2 !! k = Some v ∧
  (k = "APP_PORT" → v ≠ "" → (main file p).1 = ":" +:+ v).
Proof.
  intros Hk. rewrite main_run. cbn [fst snd].
  assert (Hl : environ (godotenv.Load file p).2 !! k = Some v).
  { destruct file as [e|m]; [exact Hk|]. by rewrite Load_lookup, Hk. }
  split; [exact Hl|]. intros -> Hv. unfold port_in. rewrite Hl. cbn.
  by destruct (String.eqb_spec v "").
Qed.

Lemma main_environment_wins_witness :
  environ env_hunter2 !! "API_SECRET_MESSAGE" = Some "hunter2" ∧
  environ (main (inr (<["API_SECRET_MESSAGE" := "other"]> ∅)) env_hunter2).2
    !! "API_SECRET_MESSAGE" = Some "hunter2".
Proof.
  split; [reflexivity|].
  apply (main_environment_wins (inr (<["API_SECRET_MESSAGE" := "other"]> ∅))
           env_hunter2 "API_SECRET_MESSAGE" "hunter2").
  reflexivity.
Defined.

(** X8.  Whatever the file and the environment, the port [main] listens on
    is not empty, and the three lines it logs last name that same port. *)
Theorem main_logs_its_port (file : error + gmap string string) (p : process) :
  ∃ port before,
    port ≠ "" ∧
    (main file p).1 = ":" +:+ port ∧
    logged (main file p).2
    = logged p ++ before
      ++ ["Server starting on port " +:+ port +:+ "..." +:+ LF;
          "Access health check at http://localhost:" +:+ port +:+ "/health"
            +:+ LF;
          "Send POST requests to http://localhost:" +:+ port +:+ "/process"
            +:+ LF].
Proof.
  rewrite main_run. cbn [fst snd logged].
  set (loaded := (godotenv.Load file p).2).
  set (warning := if file is inl _ then [_] else []).
  set (config := if String.eqb _ "" then _ else _).
  exists (port_in (environ loaded)), (warning ++ [config]).
  split; [apply port_in_nonempty|]. split; [reflexivity|].
  by rewrite <- !app_assoc.
Qed.

(** ** Bodies without a value *)

Lemma step_reset_space c :
  scanner.isSpace c = true →
  scanner.step scanner.reset c = (scanner.reset, scanner.scanSkipSpace).
Proof. intros H. cbn. unfold scanner.stateBeginValue. by rewrite H. Qed.

Lemma readValue_from_blank all buf scanp :
  json.nonSpace buf = false →
  json.readValue_from scanner.reset all buf scanp io_EOF
  = inr (if json.nonSpace all then io_ErrUnexpectedEOF else io_EOF).
Proof.
  revert scanp. induction buf as [|c buf IH]; intros scanp H; [reflexivity|].
  cbn [json.nonSpace] in H. destruct (scanner.isSpace c) eqn:Hc; [|done].
  cbn [json.readValue_from]. rewrite (step_reset_space c Hc). by apply IH.
Qed.

Lemma blank_body_rejected (r : http.Request) (p : process) :
  http.Method r = http.MethodPost →
  http.closed (http.Body r) = false →
  json.nonSpace (http.content (http.Body r)) = false →
  handle processHandler r p
  = mkOutcome
      (http.mkResponse 400
         (http.Set_ "X-Content-Type-Options" "nosniff"
            (http.Set_ "Content-Type" "text/plain; charset=utf-8"
               (http.Del "Content-Length" ∅)))
         ("Invalid JSON input: " +:+ Error io_EOF +:+ LF))
      (with_Body (http.mkBody (http.content (http.Body r)) true
                              (http.closed (http.Body r))) r)
      (mkProcess (environ p)
                 (logged p ++ ["Error decoding JSON: " +:+ Error io_EOF
                                 +:+ LF])).
Proof.
  intros Hm Hc Hb.
  assert (Hd : decoded r = inl io_EOF).
  { unfold decoded, Decode_Body, json.Decode, json.readValue. rewrite Hc.
    by rewrite (readValue_from_blank _ _ _ Hb), Hb. }
  by rewrite (handle_error _ _ _ Hm Hd).
Qed.

(** X9.  A POST request whose body is empty or holds nothing but spaces,
    tabs, carriage returns and newlines is answered with status 400 and the
    body "Invalid JSON input: EOF". *)
Theorem process_blank_body (r : http.Request) (p : process) :
  http.Method r = http.MethodPost →
  http.closed (http.Body r) = false →
  json.nonSpace (http.content (http.Body r)) = false →
  let resp := response (handle processHandler r p) in
  http.StatusCode resp = http.StatusBadRequest ∧
  http.ResponseBody resp = "Invalid JSON input: EOF" +:+ LF.
Proof.
  intros Hm Hc Hb resp. subst resp.
  rewrite (blank_body_rejected r p Hm Hc Hb). split; reflexivity.
Qed.

Lemma process_blank_body_witness :
  http.Method (POST (" " +:+ LF)) = http.MethodPost ∧
  http.closed (http.Body (POST (" " +:+ LF))) = false ∧
  json.nonSpace (http.content (http.Body (POST (" " +:+ LF)))) = false ∧
  http.StatusCode (response (handle processHandler (POST (" " +:+ LF))
                                    env_hunter2)) = http.StatusBadRequest.
Proof.
  split; [reflexivity|]. split; [reflexivity|]. split; [reflexivity|].
  apply (process_blank_body (POST (" " +:+ LF)) env_hunter2); reflexivity.
Defined.

(** ** Bytes after the first value *)

Ltac split_ifs :=
  repeat (match goal with
          | |- context [if ?b then _ else _] => destruct b eqn:?
          end; cbn).

Lemma step_inside s c :
  inside s →
  match scanner.step s c with
  | (_, scanner.scanEnd) => False
  | (s', scanner.scanEndObject) | (s', scanner.scanEndArray) =>
    scanner.parseState s' = [] ∨ inside s'
  | (_, scanner.scanError) => True
  | (s', _) => inside s'
  end.
Proof.
  unfold inside. intros [Hps Hn].
  destruct s as [n e [|p ps] er]; [done|]. cbn in Hn.
  destruct n; try done; cbn;
    unfold scanner.stateBeginValueOrEmpty, scanner.stateBeginValue,
      scanner.stateBeginStringOrEmpty, scanner.stateBeginString,
      scanner.stateEndValue, scanner.stateInString, scanner.stateInStringEsc,
      scanner.stateInStringEscHex, scanner.stateNeg, scanner.state1,
      scanner.state0, scanner.stateDot, scanner.stateDot0, scanner.stateE,
      scanner.stateESign, scanner.stateE0, scanner.stateLiteral,
      scanner.stateError, scanner.stateEndValue, scanner.pushParseState,
      scanner.popParseState, scanner.error_, scanner.set_next, scanner.set_top;
    cbn;
    repeat (match goal with
            | |- context [if ?b then _ else _] => destruct b eqn:?
            | |- context [match ?p with
                          | scanner.parseObjectKey => _
                          | scanner.parseObjectValue => _
                          | scanner.parseArrayValue => _ end] => destruct p
            | |- context [match ?l with [] => _ | _ :: _ => _ end] =>
              destruct l
            end; cbn); auto; try (split; done); try (right; split; done).
Qed.

Lemma stateEndValue_top s c :
  scanner.parseState s = [] → (scanner.stateEndValue s c).2 = scanner.scanEnd.
Proof.
  intros H. unfold scanner.stateEndValue, scanner.stateEndTop. rewrite H.
  by destruct (negb _).
Qed.

Lemma stateEndValue_inside s :
  inside s →
  (scanner.stateEndValue s " ").2 = scanner.scanSkipSpace
  ∧ inside (scanner.stateEndValue s " ").1.
Proof.
  destruct s as [n e [|q ps] er]; intros [Hps Hn]; [done|].
  cbn. split; [done|]. split; done.
Qed.

Lemma readValue_from_inside_app s all1 all2 buf t scanp n :
  inside s →
  json.readValue_from s all2 buf scanp io_EOF = inl n →
  json.readValue_from s all1 (buf +:+ t) scanp io_EOF = inl n.
Proof.
  revert s scanp. induction buf as [|c buf IH]; intros s scanp Hs.
  - cbn [json.readValue_from]. pose proof (step_inside s " " Hs) as H.
    destruct (scanner.step s " ") as [s' op]. cbn [snd].
    by destruct op.
  - change (String c buf +:+ t) with (String c (buf +:+ t)).
    cbn [json.readValue_from]. pose proof (step_inside s c Hs) as H.
    destruct (scanner.step s c) as [s' op].
    destruct op; try done; try (by apply IH).
    + destruct H as [H|H].
      * pose proof (stateEndValue_top s' " " H) as He.
        destruct (scanner.stateEndValue s' " ") as [s'' op']. cbn in He.
        by subst op'.
      * destruct (stateEndValue_inside s' H) as [He Hi].
        destruct (scanner.stateEndValue s' " ") as [s'' op']. cbn in He, Hi.
        subst op'. by apply IH.
    + destruct H as [H|H].
      * pose proof (stateEndValue_top s' " " H) as He.
        destruct (scanner.stateEndValue s' " ") as [s'' op']. cbn in He.
        by subst op'.
      * destruct (stateEndValue_inside s' H) as [He Hi].
        destruct (scanner.stateEndValue s' " ") as [s'' op']. cbn in He, Hi.
        subst op'. by apply IH.
Qed.

Lemma readValue_from_object_app all1 all2 buf t scanp n :
  starts_object buf = true →
  json.readValue_from scanner.reset all2 buf scanp io_EOF = inl n →
  json.readValue_from scanner.reset all1 (buf +:+ t) scanp io_EOF = inl n.
Proof.
  revert scanp. induction buf as [|c buf IH]; intros scanp Hb; [done|].
  cbn [starts_object] in Hb.
  change (String c buf +:+ t) with (String c (buf +:+ t)).
  destruct (scanner.isSpace c) eqn:Hc.
  - cbn [json.readValue_from]. rewrite (step_reset_space c Hc). by apply IH.
  - apply Ascii.eqb_eq in Hb. subst c. cbn [json.readValue_from].
    change (scanner.step scanner.reset "{")
      with (scanner.mk scanner.BeginStringOrEmpty false
              [scanner.parseObjectKey] None, scanner.scanBeginObject).
    apply readValue_from_inside_app. by split.
Qed.

Lemma readValue_from_bound s all buf scanp final n :
  json.readValue_from s all buf scanp final = inl n →
  (n ≤ scanp + String.length buf)%nat.
Proof.
  revert s scanp. induction buf as [|c buf IH]; intros s scanp.
  - cbn. destruct final; try done. destruct (scanner.step s " ").2; try done.
    intros [= <-]. lia.
  - cbn [json.readValue_from String.length].
    destruct (scanner.step s c) as [s' op].
    destruct op;
      try (intros H; apply IH in H; lia);
      try (intros [= <-]; lia).
    + destruct (scanner.stateEndValue s' " ") as [s'' op'].
      destruct op'; try (intros H; apply IH in H; lia); intros [= <-]; lia.
    + destruct (scanner.stateEndValue s' " ") as [s'' op'].
      destruct op'; try (intros H; apply IH in H; lia); intros [= <-]; lia.
    + by destruct (scanner.err s').
Qed.

Lemma take_app n buf t :
  (n ≤ String.length buf)%nat → json.take n (buf +:+ t) = json.take n buf.
Proof.
  revert buf. induction n as [|n IH]; intros buf H; [reflexivity|].
  destruct buf as [|c buf]; cbn in H; [lia|].
  change (String c buf +:+ t) with (String c (buf +:+ t)).
  cbn [json.take]. f_equal. apply IH. lia.
Qed.

Lemma Decode_object_app buf t v n :
  starts_object buf = true →
  json.readValue buf io_EOF = inl n →
  json.Decode (buf +:+ t) io_EOF v = json.Decode buf io_EOF v.
Proof.
  intros Hb Hn. unfold json.Decode.
  assert (Hn' : json.readValue (buf +:+ t) io_EOF = inl n)
    by (by apply readValue_from_object_app with (all2 := buf)).
  rewrite Hn, Hn'. rewrite take_app; [done|].
  apply readValue_from_bound in Hn. cbn in Hn. lia.
Qed.

(** Bytes appended to an accepted object do not change the response. *)
Lemma process_object_ignores_trailing_bytes (body trailing : string)
    (p : process) :
  starts_object body = true →
  http.StatusCode (response (handle processHandler (POST body) p))
  = http.StatusOK →
  response (handle processHandler (POST (body +:+ trailing)) p)
  = response (handle processHandler (POST body) p).
Proof.
  intros Hb Hs.
  destruct (decoded (POST body)) as [e|input] eqn:Hd.
  { rewrite (handle_error (POST body) _ _ eq_refl Hd) in Hs. done. }
  assert (Hd' : decoded (POST (body +:+ trailing)) = inr input).
  { revert Hd. unfold decoded, Decode_Body, POST. cbn.
    destruct (json.readValue body io_EOF) as [n|e] eqn:Hn.
    - by rewrite (Decode_object_app body trailing zero n Hb Hn).
    - unfold json.Decode at 1. by rewrite Hn. }
  by rewrite (handle_ok (POST body) _ _ eq_refl Hd),
             (handle_ok (POST (body +:+ trailing)) _ _ eq_refl Hd').
Qed.

(** ** Bodies that are no object *)

Ltac unfold_scanner :=
  unfold scanner.stateBeginValueOrEmpty, scanner.stateBeginValue,
    scanner.stateBeginStringOrEmpty, scanner.stateBeginString,
    scanner.stateEndValue, scanner.stateEndTop, scanner.stateInString,
    scanner.stateInStringEsc, scanner.stateInStringEscHex, scanner.stateNeg,
    scanner.state1, scanner.state0, scanner.stateDot, scanner.stateDot0,
    scanner.stateE, scanner.stateESign, scanner.stateE0,
    scanner.stateLiteral, scanner.stateError, scanner.stateEndValue,
    scanner.stateEndTop, scanner.pushParseState, scanner.popParseState,
    scanner.error_, scanner.set_next, scanner.set_top.

Lemma step_at_top s c :
  scanner.parseState s = [] → begins (scanner.next s) = false →
  match scanner.step s c with
  | (s', scanner.scanContinue) =>
    scanner.parseState s' = [] ∧ begins (scanner.next s') = false
    ∧ ended (scanner.next s) = false
  | (s', scanner.scanEnd) =>
    scanner.parseState s' = [] ∧ ended (scanner.next s') = true
  | (s', scanner.scanError) =>
    scanner.parseState s' = [] ∧ scanner.next s' = scanner.Err
  | _ => False
  end.
Proof.
  destruct s as [n e ps er]. cbn. intros -> Hn.
  destruct n; try done; cbn; unfold_scanner; cbn; split_ifs; done.
Qed.

Lemma ended_not_begins f : ended f = true → begins f = false.
Proof. by destruct f. Qed.

Lemma walk_byte_literal c0 w c :
  literal_walk c0 w → literal_walk c0 (json.walk_byte w c).
Proof.
  intros (Hst & Hps & Hb & Hl). unfold json.walk_byte.
  pose proof (step_at_top (json.scan w) c Hps Hb) as H.
  destruct (scanner.step (json.scan w) c) as [s' op].
  destruct op; try done.
  - destruct H as (Hps' & Hb' & He). unfold literal_walk. cbn.
    split; [done|]. split; [done|].
    split; [done|]. cbn. destruct Hl as [(l & -> & Ht)|(_ & He' & _)].
    + left. exists (l +:+ String c ""). by split.
    + congruence.
  - destruct H as (Hps' & He'). unfold literal_walk, json.flush, json.put.
    cbn.
    destruct Hl as [(l & -> & Ht)|(-> & He & l & Ht)]; cbn; rewrite ?Hst; cbn.
    + split; [done|]. split; [done|]. split; [by apply ended_not_begins|].
      right. eauto.
    + split; [done|]. split; [done|]. split; [by apply ended_not_begins|].
      right. eauto.
  - destruct H as (Hps' & He'). unfold literal_walk. cbn.
    split; [done|]. split; [done|]. split; [by rewrite He'|].
    destruct Hl as [(l & -> & Ht)|(-> & He & l & Ht)]; [left|right]; eauto.
    split; [done|]. split; [by rewrite He'|]. eauto.
Qed.

Lemma walk_bytes_literal c0 w data :
  literal_walk c0 w →
  ∃ l, json.top (json.walk_bytes w data) = Some (json.Literal (String c0 l)).
Proof.
  revert w. induction data as [|c data IH]; intros w Hw.
  - destruct Hw as (Hst & _ & _ & [(l & Hl & Ht)|(Hl & _ & l & Ht)]);
      cbn; unfold json.flush, json.put; rewrite Hl; cbn; [|eauto].
    rewrite Hst. cbn. eauto.
  - cbn. apply IH. by apply walk_byte_literal.
Qed.

Lemma readValue_from_lower s all buf scanp final n :
  json.readValue_from s all buf scanp final = inl n → (scanp ≤ n)%nat.
Proof.
  revert s scanp. induction buf as [|c buf IH]; intros s scanp.
  - cbn. destruct final; try done. destruct (scanner.step s " ").2; try done.
    intros [= <-]. lia.
  - cbn [json.readValue_from].
    destruct (scanner.step s c) as [s' op].
    destruct op;
      try (intros H; apply IH in H; lia);
      try (intros [= <-]; lia).
    + destruct (scanner.stateEndValue s' " ") as [s'' op'].
      destruct op'; try (intros H; apply IH in H; lia); intros [= <-]; lia.
    + destruct (scanner.stateEndValue s' " ") as [s'' op'].
      destruct op'; try (intros H; apply IH in H; lia); intros [= <-]; lia.
    + by destruct (scanner.err s').
Qed.

(** What the scanner makes of the first byte of a value. *)
Lemma step_reset_cases c :
  scanner.isSpace c = false →
  c = "{"%char ∨ c = "["%char
  ∨ (∃ f, scanner.step scanner.reset c
          = (scanner.mk f false [] None, scanner.scanBeginLiteral)
          ∧ begins f = false)
  ∨ (∃ s' e, scanner.step scanner.reset c = (s', scanner.scanError)
             ∧ scanner.err s' = Some e).
Proof.
  intros Hc. cbn. unfold scanner.stateBeginValue. rewrite Hc.
  destruct (byte_eqb c "{") eqn:E1; [left; by apply Ascii.eqb_eq|].
  destruct (byte_eqb c "[") eqn:E2; [right; left; by apply Ascii.eqb_eq|].
  right. right. unfold scanner.set_next, scanner.error_. cbn.
  split_ifs; eauto.
Qed.

(** The bytes of the first value keep the first byte of the buffer. *)
Lemma readValue_from_first all buf scanp n c0 s1 op :
  first_byte buf = Some c0 →
  scanner.step scanner.reset c0 = (s1, op) →
  op ≠ scanner.scanEnd → op ≠ scanner.scanEndObject →
  op ≠ scanner.scanEndArray →
  json.readValue_from scanner.reset all buf scanp io_EOF = inl n →
  first_byte (json.take (n - scanp) buf) = Some c0.
Proof.
  intros Hf Hs H1 H2 H3. revert scanp.
  induction buf as [|c buf IH]; intros scanp Hn; [done|].
  cbn [first_byte] in Hf. cbn [json.readValue_from] in Hn.
  destruct (scanner.isSpace c) eqn:Hc.
  - rewrite (step_reset_space c Hc) in Hn.
    pose proof (readValue_from_lower _ _ _ _ _ _ Hn) as Hlow.
    replace (n - scanp)%nat with (S (n - S scanp)) by lia.
    cbn [json.take first_byte]. rewrite Hc. by apply IH.
  - injection Hf as ->. rewrite Hs in Hn.
    assert (Hlow : (S scanp ≤ n)%nat).
    { destruct op; try done;
        try (by apply readValue_from_lower in Hn).
      by destruct (scanner.err s1). }
    replace (n - scanp)%nat with (S (n - S scanp)) by lia.
    cbn [json.take first_byte]. by rewrite Hc.
Qed.

Lemma parse_literal data c0 f :
  first_byte data = Some c0 →
  scanner.step scanner.reset c0
  = (scanner.mk f false [] None, scanner.scanBeginLiteral) →
  begins f = false →
  ∃ l, json.parse data = Some (json.Literal (String c0 l)).
Proof.
  intros Hf Hs Hb. unfold json.parse.
  induction data as [|c data IH]; [done|].
  cbn [first_byte] in Hf. cbn [json.walk_bytes].
  destruct (scanner.isSpace c) eqn:Hc.
  - unfold json.walk_byte at 1. cbn [json.scan].
    rewrite (step_reset_space c Hc). cbn. by apply IH.
  - injection Hf as ->. unfold json.walk_byte at 1. cbn [json.scan].
    rewrite Hs. apply walk_bytes_literal.
    split; [done|]. split; [done|]. split; [done|]. left. by exists "".
Qed.

Lemma first_byte_not_space buf c : first_byte buf = Some c → scanner.isSpace c = false.
Proof.
  induction buf as [|c' buf IH]; [done|]. cbn.
  destruct (scanner.isSpace c') eqn:E; [done|]. by intros [= <-].
Qed.

Lemma readValue_from_bad_first all buf scanp c0 s' e :
  first_byte buf = Some c0 →
  scanner.step scanner.reset c0 = (s', scanner.scanError) →
  scanner.err s' = Some e →
  json.readValue_from scanner.reset all buf scanp io_EOF = inr e.
Proof.
  intros Hf Hs He. revert scanp. induction buf as [|c buf IH]; intros scanp;
    [done|].
  cbn [first_byte] in Hf. cbn [json.readValue_from].
  destruct (scanner.isSpace c) eqn:Hc.
  - rewrite (step_reset_space c Hc). by apply IH.
  - injection Hf as ->. by rewrite Hs, He.
Qed.

Lemma unmarshal_literal data v c0 f :
  first_byte data = Some c0 →
  scanner.step scanner.reset c0
  = (scanner.mk f false [] None, scanner.scanBeginLiteral) →
  begins f = false →
  json.unmarshal data v
  = (v, if byte_eqb c0 "n" then None
        else if byte_eqb c0 "t" || byte_eqb c0 "f" then
          Some (json.top_error "bool")
        else if byte_eqb c0 DQ then Some (json.top_error "string")
        else Some (json.top_error "number")).
Proof.
  intros Hf Hs Hb. destruct (parse_literal data c0 f Hf Hs Hb) as [l Hl].
  unfold json.unmarshal. rewrite Hl. cbn.
  by split_ifs.
Qed.

Lemma Decode_scalar buf v c0 :
  first_byte buf = Some c0 →
  c0 ≠ "{"%char → c0 ≠ "["%char →
  (∃ e, json.Decode buf io_EOF v = (v, Some e))
  ∨ (c0 = "n"%char ∧ json.Decode buf io_EOF v = (v, None)).
Proof.
  intros Hf H1 H2. pose proof (first_byte_not_space _ _ Hf) as Hc.
  unfold json.Decode, json.readValue.
  destruct (step_reset_cases c0 Hc)
    as [?|[?|[(f & Hs & Hb)|(s' & e & Hs & He)]]]; try done.
  - destruct (json.readValue_from _ _ _ _ _) as [n|e] eqn:Hn; [|by eauto].
    assert (Hf' : first_byte (json.take n buf) = Some c0).
    { replace n with (n - 0)%nat by lia.
      eapply readValue_from_first; eauto; done. }
    rewrite (unmarshal_literal _ v c0 f Hf' Hs Hb).
    destruct (byte_eqb c0 "n") eqn:En.
    { right. split; [by apply Ascii.eqb_eq|done]. }
    left. split_ifs; eauto.
  - left. rewrite (readValue_from_bad_first _ _ _ _ _ _ Hf Hs He). eauto.
Qed.

(** X11.  A POST body whose value is no object, no array and not [null] is
    never accepted: if its first byte that is no space is anything but an
    opening brace, an opening bracket or the letter n, the response is 400.
    This covers JSON strings, numbers and booleans as well as text that is
    no JSON at all. *)
Theorem process_rejects_scalars (r : http.Request) (p : process) (c : ascii) :
  http.Method r = http.MethodPost →
  http.closed (http.Body r) = false →
  first_byte (http.content (http.Body r)) = Some c →
  c ≠ "{"%char → c ≠ "["%char → c ≠ "n"%char →
  http.StatusCode (response (handle processHandler r p))
  = http.StatusBadRequest.
Proof.
  intros Hm Hc Hf H1 H2 H3.
  destruct (Decode_scalar _ zero c Hf H1 H2) as [[e He]|[? _]]; [|done].
  assert (Hd : decoded r = inl e).
  { unfold decoded, Decode_Body. by rewrite Hc, He. }
  by rewrite (handle_error _ _ _ Hm Hd).
Qed.

Lemma process_rejects_scalars_witness :
  http.Method (POST "42") = http.MethodPost ∧
  http.closed (http.Body (POST "42")) = false ∧
  first_byte (http.content (http.Body (POST "42"))) = Some "4"%char ∧
  http.StatusCode (response (handle processHandler (POST "42") env_hunter2))
  = http.StatusBadRequest.
Proof.
  split; [reflexivity|]. split; [reflexivity|]. split; [reflexivity|].
  apply (process_rejects_scalars (POST "42") env_hunter2 "4");
    [reflexivity | reflexivity | reflexivity
     | discriminate | discriminate | discriminate].
Defined.



(** ** Bodies that are an array *)

Lemma step_inside_depth s c :
  inside s →
  match scanner.step s c with
  | (s', scanner.scanBeginObject) | (s', scanner.scanBeginArray) =>
    length (scanner.parseState s') = S (length (scanner.parseState s))
    ∧ scanner.next s' ≠ scanner.EndTop
  | (s', scanner.scanEndObject) | (s', scanner.scanEndArray) =>
    S (length (scanner.parseState s')) = length (scanner.parseState s)
    ∧ scanner.next s'
      = (if scanner.parseState s' is [] then scanner.EndTop
         else scanner.EndValue)
  | (_, scanner.scanEnd) => False
  | (_, scanner.scanError) => True
  | (s', _) =>
    length (scanner.parseState s') = length (scanner.parseState s)
    ∧ scanner.next s' ≠ scanner.EndTop
  end.
Proof.
  unfold inside. intros [Hps Hn].
  destruct s as [n e [|p [|p0 ps]] er]; [done| |]; cbn in Hn;
    destruct n; try done; cbn; unfold_scanner; cbn;
    repeat (match goal with
            | |- context [if ?b then _ else _] => destruct b eqn:?
            | |- context [match ?p with
                          | scanner.parseObjectKey => _
                          | scanner.parseObjectValue => _
                          | scanner.parseArrayValue => _ end] => destruct p
            end; cbn); done.
Qed.

Lemma put_keeps_array v w st es :
  json.stack w = st ++ [json.InArray es] →
  json.top (json.put v w) = json.top w ∧
  json.scan (json.put v w) = json.scan w ∧
  json.literal (json.put v w) = json.literal w ∧
  length (json.stack (json.put v w)) = length (json.stack w) ∧
  ∃ st' es', json.stack (json.put v w) = st' ++ [json.InArray es'].
Proof.
  intros Hst. unfold json.put. rewrite Hst.
  destruct st as [|[es0|ms [k|]] st]; cbn.
  - repeat split; try done. by exists [], (es ++ [v]).
  - repeat split; try done. by exists (json.InArray (es0 ++ [v]) :: st), es.
  - repeat split; try done.
    by exists (json.InObject (ms ++ [(k, v)]) None :: st), es.
  - destruct v; cbn; rewrite ?Hst; repeat split; try done.
    + by exists (json.InObject ms (Some item) :: st), es.
    + by exists (json.InObject ms None :: st), es.
    + by exists (json.InObject ms None :: st), es.
Qed.

Lemma flush_keeps_array w st es :
  json.stack w = st ++ [json.InArray es] →
  json.top (json.flush w) = json.top w ∧
  json.scan (json.flush w) = json.scan w ∧
  json.literal (json.flush w) = None ∧
  length (json.stack (json.flush w)) = length (json.stack w) ∧
  ∃ st' es', json.stack (json.flush w) = st' ++ [json.InArray es'].
Proof.
  intros Hst. unfold json.flush. destruct (json.literal w) as [item|] eqn:El.
  - pose proof (put_keeps_array (json.Literal item)
                  (json.mkWalk (json.scan w) None (json.stack w) (json.top w))
                  st es Hst) as H.
    cbn in H. exact H.
  - repeat split; try done. eauto.
Qed.

Lemma array_walk_inside w : array_walk w → inside (json.scan w).
Proof.
  intros (_ & Hlen & Hn & st & es & Hst). split; [|done].
  rewrite Hst, length_app in Hlen. cbn in Hlen.
  destruct (scanner.parseState (json.scan w)); [cbn in Hlen; lia | done].
Qed.

(** What [walk_byte] keeps while the array is open, and what it delivers when
    the array closes. *)
Lemma walk_byte_array w c :
  array_walk w →
  match scanner.step (json.scan w) c with
  | (_, scanner.scanError) | (_, scanner.scanEnd) => True
  | (s', scanner.scanEndObject) | (s', scanner.scanEndArray) =>
    json.scan (json.walk_byte w c) = s' ∧
    if scanner.parseState s' is [] then
      json.literal (json.walk_byte w c) = None ∧
      ∃ es, json.top (json.walk_byte w c) = Some (json.Array es)
    else array_walk (json.walk_byte w c)
  | (s', _) =>
    json.scan (json.walk_byte w c) = s' ∧ array_walk (json.walk_byte w c)
  end.
Proof.
  intros Hw. pose proof (step_inside_depth _ c (array_walk_inside w Hw)) as H.
  destruct Hw as (Ht & Hlen & Hn & st & es & Hst).
  unfold json.walk_byte.
  destruct (scanner.step (json.scan w) c) as [s' op].
  assert (Hflush :
    ∀ w', json.scan w' = s' → json.top w' = None →
          json.stack w' = json.stack w →
          length (scanner.parseState s')
          = length (scanner.parseState (json.scan w)) →
          scanner.next s' ≠ scanner.EndTop →
          json.scan (json.flush w') = s' ∧ array_walk (json.flush w')).
  { intros w' Hs' Ht' Hst' Hl' Hn'.
    assert (Hst'' : json.stack w' = st ++ [json.InArray es]) by congruence.
    destruct (flush_keeps_array w' st es Hst'')
      as (Ft & Fs & Fl & Flen & Fshape).
    split; [congruence|]. unfold array_walk.
    rewrite Ft, Fs, Flen, Hs', Hst', Hl'. done. }
  assert (Hclose :
    ∀ w', json.scan w' = s' → json.top w' = None →
          json.stack w' = json.stack w →
          S (length (scanner.parseState s'))
          = length (scanner.parseState (json.scan w)) →
          scanner.next s'
          = (if scanner.parseState s' is [] then scanner.EndTop
             else scanner.EndValue) →
          json.scan (json.close (json.flush w')) = s' ∧
          if scanner.parseState s' is [] then
            json.literal (json.close (json.flush w')) = None ∧
            ∃ es, json.top (json.close (json.flush w'))
                  = Some (json.Array es)
          else array_walk (json.close (json.flush w'))).
  { intros w' Hs' Ht' Hst' Hl' Hn'.
    assert (Hst'' : json.stack w' = st ++ [json.InArray es]) by congruence.
    destruct (flush_keeps_array w' st es Hst'')
      as (Ft & Fs & Fl & Flen & st' & es' & Fshape).
    unfold json.close. rewrite Fshape.
    rewrite Fshape, Hst', Hlen, <- Hl' in Flen.
    destruct st' as [|f st']; cbn [app] in *.
    - cbn in Flen. destruct (scanner.parseState s'); [|done].
      unfold json.put. cbn. rewrite Fs, Fl. eauto.
    - cbn in Flen. rewrite length_app in Flen. cbn in Flen.
      destruct (scanner.parseState s') as [|q ps'] eqn:Eps;
        [cbn in Flen; lia|].
      assert (Hput : ∀ v,
        json.scan (json.put v (json.mkWalk (json.scan (json.flush w'))
                     (json.literal (json.flush w'))
                     (st' ++ [json.InArray es']) (json.top (json.flush w'))))
        = s' ∧
        array_walk (json.put v (json.mkWalk (json.scan (json.flush w'))
                     (json.literal (json.flush w'))
                     (st' ++ [json.InArray es']) (json.top (json.flush w'))))).
      { intros v.
        destruct (put_keeps_array v
                    (json.mkWalk (json.scan (json.flush w'))
                       (json.literal (json.flush w'))
                       (st' ++ [json.InArray es']) (json.top (json.flush w')))
                    st' es' eq_refl) as (Pt & Ps & Pl & Plen & Pshape).
        cbn [json.top json.scan json.literal json.stack] in Pt, Ps, Pl, Plen.
        split; [congruence|]. unfold array_walk.
        split; [congruence|]. split; [|split; [|exact Pshape]].
        - rewrite Plen, Ps, Fs, Hs', Eps, length_app. cbn in Flen |- *. lia.
        - rewrite Ps, Fs, Hs', Hn'. done. }
      destruct f; apply Hput. }
  destruct op; try done; cbn -[json.flush json.close];
    destruct H as [Hl' Hn'];
    try (apply Hflush; done); try (apply Hclose; done).
  - split; [done|]. unfold array_walk. cbn. rewrite Hl'. eauto 10.
  - split; [done|]. unfold array_walk. cbn. rewrite Hl'. eauto 10.
  - split; [done|]. unfold array_walk, json.open. cbn. rewrite Hl', Hlen.
    repeat split; try done. exists (json.InObject [] None :: st), es.
    by rewrite Hst.
  - split; [done|]. unfold array_walk, json.open. cbn. rewrite Hl', Hlen.
    repeat split; try done. exists (json.InArray [] :: st), es.
    by rewrite Hst.
Qed.

Lemma stateEndValue_space_inside s :
  scanner.parseState s ≠ [] → scanner.next s = scanner.EndValue →
  scanner.stateEndValue s " " = (s, scanner.scanSkipSpace).
Proof.
  destruct s as [n e [|q ps] er]; [done|]. cbn. by intros _ ->.
Qed.

(** Scanning and walking the same bytes: when [readValue] finds the end of
    an array, the walk over the bytes of that value delivers an array. *)
Lemma array_joint all buf w scanp n :
  array_walk w →
  json.readValue_from (json.scan w) all buf scanp io_EOF = inl n →
  ∃ es, json.top (json.walk_bytes w (json.take (n - scanp) buf))
        = Some (json.Array es).
Proof.
  revert w scanp. induction buf as [|c buf IH]; intros w scanp Hw Hn.
  - cbn in Hn. pose proof (step_inside _ " " (array_walk_inside w Hw)) as H.
    destruct (scanner.step (json.scan w) " ") as [s' op]. by destruct op.
  - cbn [json.readValue_from] in Hn.
    pose proof (walk_byte_array w c Hw) as Hwb.
    pose proof (step_inside_depth _ c (array_walk_inside w Hw)) as Hd.
    destruct (scanner.step (json.scan w) c) as [s' op].
    assert (Hplain :
      json.scan (json.walk_byte w c) = s' ∧ array_walk (json.walk_byte w c) →
      json.readValue_from s' all buf (S scanp) io_EOF = inl n →
      ∃ es, json.top (json.walk_bytes w (json.take (n - scanp)
                                           (String c buf)))
            = Some (json.Array es)).
    { intros [Hs Hw'] Hn'. pose proof (readValue_from_lower _ _ _ _ _ _ Hn').
      replace (n - scanp)%nat with (S (n - S scanp)) by lia.
      cbn [json.take json.walk_bytes]. apply IH; [done|]. by rewrite Hs. }
    assert (Hend :
      (json.scan (json.walk_byte w c) = s' ∧
       if scanner.parseState s' is [] then
         json.literal (json.walk_byte w c) = None ∧
         ∃ es, json.top (json.walk_byte w c) = Some (json.Array es)
       else array_walk (json.walk_byte w c)) →
      scanner.next s'
      = (if scanner.parseState s' is [] then scanner.EndTop
         else scanner.EndValue) →
      (let '(s, op) := scanner.stateEndValue s' " " in
       match op with
       | scanner.scanEnd => inl (S scanp)
       | _ => json.readValue_from s all buf (S scanp) io_EOF
       end) = inl n →
      ∃ es, json.top (json.walk_bytes w (json.take (n - scanp)
                                           (String c buf)))
            = Some (json.Array es)).
    { intros [Hs Hres] Hnext Hn'.
      destruct (scanner.parseState s') as [|q ps'] eqn:Eps.
      - pose proof (stateEndValue_top s' " " Eps) as He.
        destruct (scanner.stateEndValue s' " ") as [s'' op']. cbn in He.
        subst op'. injection Hn' as <-.
        replace (S scanp - scanp)%nat with 1%nat by lia.
        cbn [json.take json.walk_bytes]. destruct Hres as [Hl Ht].
        unfold json.flush. by rewrite Hl.
      - rewrite stateEndValue_space_inside in Hn' by (by rewrite ?Eps).
        apply Hplain; done. }
    destruct op; try done; try (by apply Hplain);
      try (destruct Hd; by apply Hend).
    by destruct (scanner.err s').
Qed.

Lemma Decode_array buf v :
  first_byte buf = Some "["%char →
  ∃ e, json.Decode buf io_EOF v = (v, Some e).
Proof.
  intros Hf. unfold json.Decode, json.readValue.
  assert (H : ∀ all scanp n,
    json.readValue_from scanner.reset all buf scanp io_EOF = inl n →
    ∃ es, json.parse (json.take (n - scanp) buf) = Some (json.Array es)).
  { intros all. induction buf as [|c buf IH]; intros scanp n Hn; [done|].
    cbn [first_byte] in Hf. cbn [json.readValue_from] in Hn.
    destruct (scanner.isSpace c) eqn:Hc.
    - rewrite (step_reset_space c Hc) in Hn.
      pose proof (readValue_from_lower _ _ _ _ _ _ Hn).
      replace (n - scanp)%nat with (S (n - S scanp)) by lia.
      unfold json.parse. cbn [json.take json.walk_bytes].
      unfold json.walk_byte at 1. cbn [json.scan].
      rewrite (step_reset_space c Hc). cbn. by apply IH.
    - injection Hf as ->.
      change (scanner.step scanner.reset "[")
        with (scanner.mk scanner.BeginValueOrEmpty false
                [scanner.parseArrayValue] None, scanner.scanBeginArray) in Hn.
      pose proof (readValue_from_lower _ _ _ _ _ _ Hn).
      replace (n - scanp)%nat with (S (n - S scanp)) by lia.
      unfold json.parse. cbn [json.take json.walk_bytes].
      apply (array_joint all); [|exact Hn].
      split; [done|]. split; [done|]. split; [done|]. by exists [], []. }
  destruct (json.readValue_from _ _ _ _ _) as [n|e] eqn:Hn; [|by eauto].
  destruct (H _ _ _ Hn) as [es Hes]. rewrite Nat.sub_0_r in Hes.
  unfold json.unmarshal. rewrite Hes. cbn. eauto.
Qed.

(** X13.  A POST body whose value is a JSON array is never accepted: if its
    first byte that is no space is an opening bracket, the response is
    400, whatever the array holds. *)
Theorem process_rejects_arrays (r : http.Request) (p : process) :
  http.Method r = http.MethodPost →
  http.closed (http.Body r) = false →
  first_byte (http.content (http.Body r)) = Some "["%char →
  http.StatusCode (response (handle processHandler r p))
  = http.StatusBadRequest.
Proof.
  intros Hm Hc Hf. destruct (Decode_array _ zero Hf) as [e He].
  assert (Hd : decoded r = inl e).
  { unfold decoded, Decode_Body. by rewrite Hc, He. }
  by rewrite (handle_error _ _ _ Hm Hd).
Qed.

Lemma process_rejects_arrays_witness :
  http.Method (POST (js "[{'name':'a','value':1}]")) = http.MethodPost ∧
  http.closed (http.Body (POST (js "[{'name':'a','value':1}]"))) = false ∧
  first_byte (http.content (http.Body (POST (js "[{'name':'a','value':1}]"))))
  = Some "["%char ∧
  http.StatusCode
    (response (handle processHandler (POST (js "[{'name':'a','value':1}]"))
                      env_hunter2)) = http.StatusBadRequest.
Proof.
  split; [reflexivity|]. split; [reflexivity|]. split; [reflexivity|].
  apply (process_rejects_arrays (POST (js "[{'name':'a','value':1}]"))
           env_hunter2); reflexivity.
Defined.

(** ** Bytes after [null] *)

Lemma step_plain_top s c :
  plain_top s →
  match scanner.step s c with
  | (s', scanner.scanContinue) => plain_top s'
  | (_, scanner.scanEnd) => ∀ c', (scanner.step s c').2 = scanner.scanEnd
  | (_, scanner.scanError) => True
  | _ => False
  end.
Proof.
  destruct s as [n e ps er]. intros [Hps Hn]. cbn in Hps, Hn. subst ps.
  destruct n; try done; cbn; unfold_scanner; cbn; split_ifs; try done;
    intros c'; split_ifs; done.
Qed.

Lemma readValue_from_plain_app s all1 all2 buf t scanp n :
  plain_top s →
  json.readValue_from s all2 buf scanp io_EOF = inl n →
  json.readValue_from s all1 (buf +:+ t) scanp io_EOF = inl n.
Proof.
  revert s scanp. induction buf as [|c buf IH]; intros s scanp Hs.
  - cbn [json.readValue_from]. pose proof (step_plain_top s " " Hs) as H.
    destruct (scanner.step s " ") as [s' op] eqn:E. cbn [snd].
    destruct op; try done. intros [= <-].
    destruct t as [|c t].
    + change ("" +:+ "") with "". cbn [json.readValue_from]. by rewrite E.
    + change ("" +:+ String c t) with (String c t).
      cbn [json.readValue_from]. specialize (H c).
      destruct (scanner.step s c) as [s'' op']. cbn in H. by subst op'.
  - change (String c buf +:+ t) with (String c (buf +:+ t)).
    cbn [json.readValue_from]. pose proof (step_plain_top s c Hs) as H.
    destruct (scanner.step s c) as [s' op].
    destruct op; try done. by apply IH.
Qed.

Lemma readValue_from_null_app all1 all2 buf t scanp n :
  first_byte buf = Some "n"%char →
  json.readValue_from scanner.reset all2 buf scanp io_EOF = inl n →
  json.readValue_from scanner.reset all1 (buf +:+ t) scanp io_EOF = inl n.
Proof.
  revert scanp. induction buf as [|c buf IH]; intros scanp Hb; [done|].
  cbn [first_byte] in Hb.
  change (String c buf +:+ t) with (String c (buf +:+ t)).
  destruct (scanner.isSpace c) eqn:Hc.
  - cbn [json.readValue_from]. rewrite (step_reset_space c Hc). by apply IH.
  - injection Hb as ->. cbn [json.readValue_from].
    change (scanner.step scanner.reset "n")
      with (scanner.mk scanner.N false [] None, scanner.scanBeginLiteral).
    apply readValue_from_plain_app. by split.
Qed.

Lemma starts_object_first_byte buf :
  starts_object buf = true ↔ first_byte buf = Some "{"%char.
Proof.
  induction buf as [|c buf IH]; [done|]. cbn.
  destruct (scanner.isSpace c); [done|]. split.
  - intros H. apply Ascii.eqb_eq in H. by subst.
  - intros [= ->]. done.
Qed.

Lemma first_byte_blank buf : first_byte buf = None → json.nonSpace buf = false.
Proof.
  induction buf as [|c buf IH]; [done|]. cbn.
  by destruct (scanner.isSpace c).
Qed.

(** X10.  A body that is accepted stays accepted when bytes are appended to
    it, and gets the very same response: the decoder stops at the end of
    the first value and never reads on, so the handler cannot tell the two
    bodies apart. *)
Theorem process_ignores_trailing_bytes (body trailing : string)
    (p : process) :
  http.StatusCode (response (handle processHandler (POST body) p))
  = http.StatusOK →
  response (handle processHandler (POST (body +:+ trailing)) p)
  = response (handle processHandler (POST body) p).
Proof.
  intros Hs.
  destruct (first_byte body) as [c|] eqn:Hf.
  - destruct (Ascii.eqb_spec c "{") as [->|H1].
    { apply process_object_ignores_trailing_bytes;
        [by apply starts_object_first_byte | done]. }
    destruct (Ascii.eqb_spec c "[") as [->|H2].
    { destruct (Decode_array body zero Hf) as [e He].
      assert (Hd : decoded (POST body) = inl e).
      { unfold decoded, Decode_Body, POST. cbn. by rewrite He. }
      by rewrite (handle_error (POST body) p e eq_refl Hd) in Hs. }
    destruct (Ascii.eqb_spec c "n") as [->|H3].
    2: { destruct (Decode_scalar body zero c Hf H1 H2) as [[e He]|[? _]];
           [|done].
         assert (Hd : decoded (POST body) = inl e).
         { unfold decoded, Decode_Body, POST. cbn. by rewrite He. }
         by rewrite (handle_error (POST body) p e eq_refl Hd) in Hs. }
    destruct (decoded (POST body)) as [e|input] eqn:Hd.
    { by rewrite (handle_error (POST body) _ _ eq_refl Hd) in Hs. }
    assert (Hd' : decoded (POST (body +:+ trailing)) = inr input).
    { revert Hd. unfold decoded, Decode_Body, POST. cbn.
      unfold json.Decode, json.readValue.
      destruct (json.readValue_from _ body body _ _) as [n|e] eqn:Hn; [|done].
      rewrite (readValue_from_null_app _ _ _ trailing _ _ Hf Hn).
      rewrite take_app; [done|].
      apply readValue_from_bound in Hn. cbn in Hn. lia. }
    by rewrite (handle_ok (POST body) _ _ eq_refl Hd),
               (handle_ok (POST (body +:+ trailing)) _ _ eq_refl Hd').
  - by rewrite (blank_body_rejected (POST body) p eq_refl eq_refl
                  (first_byte_blank _ Hf)) in Hs.
Qed.

Lemma process_ignores_trailing_bytes_witness :
  http.StatusCode (response (handle processHandler (POST sample_body)
                                    env_hunter2)) = http.StatusOK ∧
  response (handle processHandler (POST (sample_body +:+ "]]")) env_hunter2)
  = response (handle processHandler (POST sample_body) env_hunter2).
Proof.
  split; [vm_compute; reflexivity|].
  apply (process_ignores_trailing_bytes sample_body "]]" env_hunter2).
  vm_compute; reflexivity.
Defined.

(** ** What a response body is made of *)

Lemma all_bytes_app P a b :
  all_bytes P (a +:+ b) = all_bytes P a && all_bytes P b.
Proof.
  induction a as [|c a IH]; [reflexivity|].
  change (String c a +:+ b) with (String c (a +:+ b)).
  cbn [all_bytes]. by rewrite IH, andb_assoc.
Qed.

Lemma all_bytes_impl (P Q : ascii → bool) s :
  (∀ c, P c = true → Q c = true) →
  all_bytes P s = true → all_bytes Q s = true.
Proof.
  intros H. induction s as [|c s IH]; [done|]. cbn.
  intros [Hc Hs]%andb_true_iff. by rewrite (H c Hc), IH.
Qed.

Lemma high_html_safe c : high c = true → html_safe c = true.
Proof.
  unfold high, html_safe. intros H%Z.leb_le.
  apply andb_true_iff. split; [apply Z.leb_le; lia|].
  apply negb_true_iff, orb_false_iff. split; [apply orb_false_iff; split|];
    apply Z.eqb_neq; lia.
Qed.

Lemma htmlSafe_html_safe c :
  json.htmlSafe (byte_val c) = true → html_safe c = true.
Proof.
  destruct c as [[] [] [] [] [] [] [] []]; vm_compute; congruence.
Qed.

Lemma escape_byte_html_safe c :
  all_bytes html_safe (json.escape_byte c) = true.
Proof. destruct c as [[] [] [] [] [] [] [] []]; vm_compute; reflexivity. Qed.

Lemma acceptRanges_lo i : 0x80 <= (utf8.acceptRanges i).1.
Proof. unfold utf8.acceptRanges. split_ifs; cbn; done. Qed.

(** The bytes of a rune that [DecodeRune] reads from a byte above 0x7F are
    all above 0x7F. *)
Lemma DecodeRune_high c rest :
  high c = true →
  all_bytes high
    (json.take (utf8.DecodeRune (String c rest)).2 (String c rest)) = true.
Proof.
  intros Hc. unfold utf8.DecodeRune.
  pose proof (acceptRanges_lo
                (Z.shiftr (utf8.first (byte_val c)) 4)) as Hlo.
  destruct (utf8.as_ <=? utf8.first (byte_val c)); [by cbn; rewrite Hc|].
  destruct rest as [|c1 r1]; [by cbn; rewrite Hc|].
  destruct (_ || _) eqn:E1; [by cbn; rewrite Hc|].
  apply orb_false_iff in E1 as [E1 _]. apply Z.ltb_ge in E1.
  assert (H1 : high c1 = true) by (apply Z.leb_le; lia).
  destruct (_ <=? 2); [by cbn; rewrite Hc, H1|].
  destruct r1 as [|c2 r2]; [by cbn; rewrite Hc|].
  destruct (_ || _) eqn:E2; [by cbn; rewrite Hc|].
  apply orb_false_iff in E2 as [E2 _]. apply Z.ltb_ge in E2.
  assert (H2 : high c2 = true) by (apply Z.leb_le; exact E2).
  destruct (_ <=? 3); [by cbn; rewrite Hc, H1, H2|].
  destruct r2 as [|c3 r3]; [by cbn; rewrite Hc|].
  destruct (_ || _) eqn:E3; [by cbn; rewrite Hc|].
  apply orb_false_iff in E3 as [E3 _]. apply Z.ltb_ge in E3.
  assert (H3 : high c3 = true) by (apply Z.leb_le; exact E3).
  by cbn; rewrite Hc, H1, H2, H3.
Qed.

Lemma appendString_loop_html_safe fuel src :
  all_bytes html_safe (json.appendString_loop fuel src) = true.
Proof.
  revert src. induction fuel as [|fuel IH]; intros [|c rest]; try done.
  cbn [json.appendString_loop].
  destruct (byte_val c <? utf8.RuneSelf) eqn:Hb.
  - destruct (json.htmlSafe (byte_val c)) eqn:Hs.
    + cbn. by rewrite (htmlSafe_html_safe c Hs), IH.
    + by rewrite all_bytes_app, escape_byte_html_safe, IH.
  - assert (Hc : high c = true).
    { apply Z.leb_le. apply Z.ltb_ge in Hb. exact Hb. }
    pose proof (DecodeRune_high c rest Hc) as Hh.
    destruct (utf8.DecodeRune (String c rest)) as [r size]. cbn [snd] in Hh.
    destruct (_ && _); [by rewrite all_bytes_app, IH|].
    destruct (_ || _) eqn:Er.
    + rewrite !all_bytes_app, IH.
      apply orb_true_iff in Er as [->%Z.eqb_eq | ->%Z.eqb_eq]; reflexivity.
    + rewrite all_bytes_app, IH, andb_true_r.
      exact (all_bytes_impl high html_safe _ high_html_safe Hh).
Qed.

Lemma string_of_uint_digits d :
  all_bytes scanner.isDigit (DecimalString.NilEmpty.string_of_uint d) = true.
Proof. induction d; cbn; done. Qed.

Lemma Itoa_html_safe v : all_bytes html_safe (strconv.Itoa v) = true.
Proof.
  unfold strconv.Itoa, DecimalString.NilEmpty.string_of_int.
  assert (H : ∀ d, all_bytes html_safe
                     (DecimalString.NilEmpty.string_of_uint d) = true).
  { intros d. apply (all_bytes_impl scanner.isDigit);
      [|apply string_of_uint_digits].
    intros c. destruct c as [[] [] [] [] [] [] [] []]; vm_compute; congruence. }
  destruct (Z.to_int v); cbn; by rewrite H.
Qed.

Lemma Marshal_html_safe v : all_bytes html_safe (json.Marshal v) = true.
Proof.
  unfold json.Marshal, json.appendString.
  repeat (rewrite ?all_bytes_app; cbn [all_bytes]).
  by rewrite !appendString_loop_html_safe, Itoa_html_safe.
Qed.

(** X14.  The body of a 200 response of [/process] is one line: a text that
    holds no byte below 0x20 (so no newline, tab or other C0 control
    character) and none of the bytes [<], [>] and [&], whatever the name
    and the secret are, followed by a newline.  The encoder writes those
    bytes of a string as escapes; it does not escape DEL (0x7F), which can
    occur. *)
Theorem process_body_html_safe (r : http.Request) (p : process) :
  http.StatusCode (response (handle processHandler r p)) = http.StatusOK →
  ∃ text,
    http.ResponseBody (response (handle processHandler r p)) = text +:+ LF ∧
    all_bytes html_safe text = true.
Proof.
  intros Hs.
  destruct (String.eqb_spec (http.Method r) http.MethodPost) as [Hm|Hm].
  - destruct (decoded r) as [e|input] eqn:Hd.
    + by rewrite (handle_error _ _ _ Hm Hd) in Hs.
    + rewrite (handle_ok _ _ _ Hm Hd). eexists. split; [reflexivity|].
      apply Marshal_html_safe.
  - by rewrite (handle_method _ _ Hm) in Hs.
Qed.

Lemma process_body_html_safe_witness :
  http.StatusCode
    (response (handle processHandler
                      (POST (js "{'name':'<b>&</b>','value':1}"))
                      env_hunter2)) = http.StatusOK ∧
  ∃ text,
    http.ResponseBody
      (response (handle processHandler
                        (POST (js "{'name':'<b>&</b>','value':1}"))
                        env_hunter2)) = text +:+ LF ∧
    all_bytes html_safe text = true.
Proof.
  split; [vm_compute; reflexivity|].
  apply (process_body_html_safe (POST (js "{'name':'<b>&</b>','value':1}"))
           env_hunter2).
  vm_compute; reflexivity.
Defined.

(** ** The response body is a JSON document *)

Lemma run_app s a b :
  run s (a +:+ b) = run s a ≫= λ s', run s' b.
Proof.
  revert s. induction a as [|c a IH]; intros s; [reflexivity|].
  change (String c a +:+ b) with (String c (a +:+ b)). cbn [run].
  destruct (scanner.step s c) as [s' op]. destruct op; try apply IH.
  reflexivity.
Qed.

Lemma checkValid_from_run s a b s' :
  run s a = Some s' →
  scanner.checkValid_from s (a +:+ b) = scanner.checkValid_from s' b.
Proof.
  revert s. induction a as [|c a IH]; intros s; [by intros [= ->]|].
  change (String c a +:+ b) with (String c (a +:+ b)).
  cbn [run scanner.checkValid_from].
  destruct (scanner.step s c) as [s1 op]. destruct op; try apply IH; done.
Qed.

Lemma step_in_string e ps er c :
  in_string c = true →
  scanner.step (scanner.mk scanner.InString e ps er) c
  = (scanner.mk scanner.InString e ps er, scanner.scanContinue).
Proof.
  unfold in_string. intros [H1 H2]%andb_true_iff.
  apply negb_true_iff, orb_false_iff in H2 as [H2 H3].
  apply Z.leb_le in H1. apply Z.eqb_neq in H2, H3.
  unfold scanner.step, scanner.stateInString, scanner.set_next, byte_eqb.
  cbn [scanner.next scanner.endTop scanner.parseState scanner.err].
  destruct (Ascii.eqb_spec c DQ) as [->|_]; [done|].
  destruct (Ascii.eqb_spec c "\") as [->|_]; [done|].
  destruct (byte_val c <? 32) eqn:E; [apply Z.ltb_lt in E; lia | done].
Qed.

Lemma run_in_string e ps er a :
  all_bytes in_string a = true →
  run (scanner.mk scanner.InString e ps er) a
  = Some (scanner.mk scanner.InString e ps er).
Proof.
  induction a as [|c a IH]; [done|]. cbn [all_bytes run].
  intros [Hc Ha]%andb_true_iff. rewrite (step_in_string _ _ _ _ Hc).
  by apply IH.
Qed.

Lemma htmlSafe_in_string c :
  json.htmlSafe (byte_val c) = true → in_string c = true.
Proof.
  destruct c as [[] [] [] [] [] [] [] []]; vm_compute; congruence.
Qed.

Lemma high_in_string c : high c = true → in_string c = true.
Proof.
  unfold high, in_string. intros H%Z.leb_le.
  apply andb_true_iff. split; [apply Z.leb_le; lia|].
  apply negb_true_iff, orb_false_iff. split; apply Z.eqb_neq; lia.
Qed.

Lemma run_escape_byte e ps er c :
  (byte_val c <? utf8.RuneSelf) = true →
  run (scanner.mk scanner.InString e ps er) (json.escape_byte c)
  = Some (scanner.mk scanner.InString e ps er).
Proof.
  destruct c as [[] [] [] [] [] [] [] []]; vm_compute; congruence.
Qed.

(** Inside a string literal the scanner takes all that [appendString]
    writes. *)
Lemma run_appendString_loop e ps er fuel src :
  run (scanner.mk scanner.InString e ps er) (json.appendString_loop fuel src)
  = Some (scanner.mk scanner.InString e ps er).
Proof.
  revert src. induction fuel as [|fuel IH]; intros [|c rest]; try done.
  cbn [json.appendString_loop].
  destruct (byte_val c <? utf8.RuneSelf) eqn:Hb.
  - destruct (json.htmlSafe (byte_val c)) eqn:Hs.
    + cbn [run]. rewrite (step_in_string _ _ _ _ (htmlSafe_in_string c Hs)).
      apply IH.
    + rewrite run_app, (run_escape_byte _ _ _ _ Hb). apply IH.
  - assert (Hc : high c = true).
    { apply Z.leb_le. apply Z.ltb_ge in Hb. exact Hb. }
    pose proof (DecodeRune_high c rest Hc) as Hh.
    destruct (utf8.DecodeRune (String c rest)) as [r size]. cbn [snd] in Hh.
    destruct (_ && _).
    { rewrite run_app.
      change (run (scanner.mk scanner.InString e ps er) "\ufffd")
        with (Some (scanner.mk scanner.InString e ps er)).
      apply IH. }
    destruct (_ || _) eqn:Er.
    + rewrite !run_app.
      apply orb_true_iff in Er as [->%Z.eqb_eq | ->%Z.eqb_eq];
        (etransitivity; [|apply (IH (skip size (String c rest)))]);
        reflexivity.
    + rewrite run_app, run_in_string; [apply IH|].
      exact (all_bytes_impl high in_string _ high_in_string Hh).
Qed.

Lemma run_appendString e ps er src :
  run (scanner.mk scanner.BeginValue e ps er) (json.appendString src)
  = Some (scanner.mk scanner.EndValue e ps er).
Proof.
  unfold json.appendString. cbn [run].
  change (scanner.step (scanner.mk scanner.BeginValue e ps er) DQ)
    with (scanner.mk scanner.InString e ps er, scanner.scanBeginLiteral).
  cbn iota. by rewrite run_app, run_appendString_loop.
Qed.

(** The decimal text of a positive number starts with a digit other
    than 0. *)
Lemma to_uint_head p :
  match Pos.to_uint p with
  | Decimal.Nil | Decimal.D0 _ => False
  | _ => True
  end.
Proof.
  pose proof (DecimalPos.Unsigned.to_of (Pos.to_uint p)) as H.
  rewrite DecimalPos.Unsigned.of_to in H. cbn [N.to_uint] in H.
  pose proof (DecimalPos.Unsigned.to_uint_nonzero p) as Hz.
  pose proof (DecimalPos.Unsigned.to_uint_nonnil p) as Hn.
  destruct (Pos.to_uint p) as [|d| | | | | | | | |] eqn:E; try done.
  unfold Decimal.unorm in H. cbn [Decimal.nzhead] in H.
  pose proof (DecimalFacts.nzhead_nonzero d) as Hnz.
  destruct (Decimal.nzhead d) as [|u| | | | | | | | |]; try done.
  by destruct (Hnz u).
Qed.

Lemma run_digits e ps er ds :
  all_bytes scanner.isDigit ds = true →
  run (scanner.mk scanner.One e ps er) ds
  = Some (scanner.mk scanner.One e ps er).
Proof.
  induction ds as [|c ds IH]; [done|]. cbn [all_bytes run].
  intros [Hc Hd]%andb_true_iff.
  unfold scanner.step, scanner.state1. cbn [scanner.next]. rewrite Hc.
  by apply IH.
Qed.

(** The scanner takes the text of an integer as a number. *)
Lemma run_Itoa e ps er v :
  ∃ f, (f = scanner.Zero ∨ f = scanner.One) ∧
       run (scanner.mk scanner.BeginValue e ps er) (strconv.Itoa v)
       = Some (scanner.mk f e ps er).
Proof.
  unfold strconv.Itoa, DecimalString.NilEmpty.string_of_int.
  assert (Hpos : ∀ p,
    run (scanner.mk scanner.BeginValue e ps er)
        (DecimalString.NilEmpty.string_of_uint (Pos.to_uint p))
    = Some (scanner.mk scanner.One e ps er)
    ∧ run (scanner.mk scanner.Neg e ps er)
          (DecimalString.NilEmpty.string_of_uint (Pos.to_uint p))
      = Some (scanner.mk scanner.One e ps er)).
  { intros p. pose proof (to_uint_head p) as H.
    destruct (Pos.to_uint p) as [|d|d|d|d|d|d|d|d|d|d]; try done;
      cbn [DecimalString.NilEmpty.string_of_uint run];
      (split; [change (scanner.step (scanner.mk scanner.BeginValue e ps er) ?c)
                 with (scanner.mk scanner.One e ps er,
                       scanner.scanBeginLiteral)
              |change (scanner.step (scanner.mk scanner.Neg e ps er) ?c)
                 with (scanner.mk scanner.One e ps er,
                       scanner.scanContinue)]);
      cbn iota; apply run_digits, string_of_uint_digits. }
  destruct v as [|p|p]; cbn [Z.to_int].
  - exists scanner.Zero. split; [by left|]. reflexivity.
  - exists scanner.One. split; [by right|]. apply Hpos.
  - exists scanner.One. split; [by right|]. cbn [run].
    change (scanner.step (scanner.mk scanner.BeginValue e ps er) "-")
      with (scanner.mk scanner.Neg e ps er, scanner.scanBeginLiteral).
    cbn iota. apply Hpos.
Qed.

Lemma append_assoc (a b c : string) : (a +:+ b) +:+ c = a +:+ b +:+ c.
Proof.
  induction a as [|x a IH]; [reflexivity|].
  change (String x a +:+ b) with (String x (a +:+ b)).
  change (String x (a +:+ b) +:+ c) with (String x ((a +:+ b) +:+ c)).
  by rewrite IH.
Qed.

Ltac run_fixed s' :=
  rewrite run_app;
  match goal with
  | |- context [run ?s ?a ≫= _] => change (run s a) with (Some s')
  end;
  cbn [mbind option_bind].

Ltac run_string :=
  rewrite run_app, run_appendString; cbn [mbind option_bind].

Ltac run_key :=
  run_fixed (scanner.mk scanner.BeginString false [scanner.parseObjectKey]
               None).

Ltac run_colon :=
  run_fixed (scanner.mk scanner.BeginValue false [scanner.parseObjectValue]
               None).

Lemma run_Marshal v :
  run scanner.reset (json.Marshal v)
  = Some (scanner.mk scanner.EndTop true [] None).
Proof.
  unfold json.Marshal.
  run_fixed (scanner.mk scanner.BeginStringOrEmpty false
               [scanner.parseObjectKey] None).
  run_colon. run_string.
  run_key. run_colon. run_string.
  run_key. run_colon.
  rewrite run_app.
  destruct (run_Itoa false [scanner.parseObjectValue] None (ReceivedValue v))
    as (f & Hf & ->).
  cbn [mbind option_bind].
  assert (Hcomma :
    run (scanner.mk f false [scanner.parseObjectValue] None) ","
    = Some (scanner.mk scanner.BeginString false [scanner.parseObjectKey]
              None))
    by (by destruct Hf as [-> | ->]).
  rewrite run_app, Hcomma. cbn [mbind option_bind].
  run_colon. run_string. reflexivity.
Qed.

Lemma Valid_Marshal v : json.Valid (json.Marshal v +:+ LF) = true.
Proof.
  unfold json.Valid, scanner.checkValid.
  by rewrite (checkValid_from_run _ _ _ _ (run_Marshal v)).
Qed.

(** X15.  The body of every 200 response of [/process] is a JSON document:
    Go's own [json.Valid] accepts it, whatever bytes the name and the
    secret hold. *)
Theorem process_body_is_json (r : http.Request) (p : process) :
  http.StatusCode (response (handle processHandler r p)) = http.StatusOK →
  json.Valid (http.ResponseBody (response (handle processHandler r p))) = true.
Proof.
  intros Hs.
  destruct (String.eqb_spec (http.Method r) http.MethodPost) as [Hm|Hm].
  - destruct (decoded r) as [e|input] eqn:Hd.
    + by rewrite (handle_error _ _ _ Hm Hd) in Hs.
    + rewrite (handle_ok _ _ _ Hm Hd). apply Valid_Marshal.
  - by rewrite (handle_method _ _ Hm) in Hs.
Qed.

Lemma process_body_is_json_witness :
  http.StatusCode
    (response (handle processHandler (POST sample_body) env_hunter2))
  = http.StatusOK ∧
  json.Valid
    (http.ResponseBody
       (response (handle processHandler (POST sample_body) env_hunter2)))
  = true.
Proof.
  split; [vm_compute; reflexivity|].
  apply (process_body_is_json (POST sample_body) env_hunter2).
  vm_compute; reflexivity.
Defined.

(** ** Objects without nesting *)

Lemma continues_app s a b :
  continues s (a +:+ b) = continues s a ≫= λ s', continues s' b.
Proof.
  revert s. induction a as [|c a IH]; intros s; [reflexivity|].
  change (String c a +:+ b) with (String c (a +:+ b)). cbn [continues].
  destruct (scanner.step s c) as [s' op]. destruct op; try apply IH.
  all: reflexivity.
Qed.

Lemma length_append a b :
  String.length (a +:+ b) = (String.length a + String.length b)%nat.
Proof.
  induction a as [|c a IH]; [reflexivity|].
  change (String c a +:+ b) with (String c (a +:+ b)). cbn. by rewrite IH.
Qed.

Lemma append_empty_r (a : string) : a +:+ "" = a.
Proof.
  induction a as [|c a IH]; [reflexivity|].
  change (String c a +:+ "") with (String c (a +:+ "")). by rewrite IH.
Qed.

Lemma readValue_from_continues s s' all a b scanp :
  continues s a = Some s' →
  json.readValue_from s all (a +:+ b) scanp io_EOF
  = json.readValue_from s' all b (scanp + String.length a) io_EOF.
Proof.
  revert s scanp. induction a as [|c a IH]; intros s scanp.
  - intros [= ->]. cbn. by rewrite Nat.add_0_r.
  - change (String c a +:+ b) with (String c (a +:+ b)).
    cbn [continues json.readValue_from String.length].
    destruct (scanner.step s c) as [s1 op]. destruct op; try done.
    intros H. rewrite (IH _ _ H). f_equal. lia.
Qed.

Lemma walk_bytes_continues w s' l a b :
  continues (json.scan w) a = Some s' →
  json.literal w = Some l →
  json.walk_bytes w (a +:+ b)
  = json.walk_bytes (json.mkWalk s' (Some (l +:+ a)) (json.stack w)
                       (json.top w)) b.
Proof.
  revert w l. induction a as [|c a IH]; intros w l.
  - intros [= <-] Hl. change ("" +:+ b) with b. rewrite append_empty_r.
    destruct w as [s lit st tp]. cbn in *. by subst lit.
  - change (String c a +:+ b) with (String c (a +:+ b)).
    cbn [continues json.walk_bytes]. intros H Hl.
    unfold json.walk_byte.
    destruct (scanner.step (json.scan w) c) as [s1 op].
    destruct op; try done. cbn [json.literal json.stack json.top].
    rewrite Hl. cbn [option_map].
    rewrite (IH _ (l +:+ String c "")); [|exact H|reflexivity].
    cbn [json.stack json.top]. by rewrite append_assoc.
Qed.

Lemma walk_bytes_literal_app s s' l a b st tp :
  continues s a = Some s' →
  json.walk_bytes (json.mkWalk s (Some l) st tp) (a +:+ b)
  = json.walk_bytes (json.mkWalk s' (Some (l +:+ a)) st tp) b.
Proof.
  intros H.
  exact (walk_bytes_continues (json.mkWalk s (Some l) st tp) s' l a b H eq_refl).
Qed.

Lemma quote_append k x :
  quote k +:+ x = String DQ ((k +:+ String DQ "") +:+ x).
Proof. reflexivity. Qed.

Lemma length_quote k : String.length (quote k) = S (S (String.length k)).
Proof. unfold quote. cbn. rewrite length_append. cbn. lia. Qed.

Lemma continues_key k :
  is_key k →
  continues (in_key scanner.InString) (k +:+ String DQ "")
  = Some (in_key scanner.EndValue).
Proof.
  intros Hk. rewrite continues_app.
  assert (H : continues (in_key scanner.InString) k
              = Some (in_key scanner.InString)).
  { unfold in_key. induction k as [|c k IH]; [done|].
    cbn [all_bytes] in Hk. apply andb_true_iff in Hk as [Hc Hk].
    cbn [continues]. rewrite (step_in_string _ _ _ _ Hc). by apply IH. }
  rewrite H. reflexivity.
Qed.

Lemma begin_key f0 :
  f0 = scanner.BeginString ∨ f0 = scanner.BeginStringOrEmpty →
  scanner.step (in_key f0) DQ
  = (in_key scanner.InString, scanner.scanBeginLiteral).
Proof. by intros [-> | ->]. Qed.

Lemma end_item_comma f :
  value_ends f = true →
  scanner.step (in_value f) ","
  = (in_key scanner.BeginString, scanner.scanObjectValue).
Proof. by destruct f. Qed.

Lemma end_item_brace f :
  value_ends f = true →
  scanner.step (in_value f) "}"
  = (scanner.mk scanner.EndTop true [] None, scanner.scanEndObject).
Proof. by destruct f. Qed.

(** Scanning one member: its key, the colon and its value. *)
Lemma readValue_from_member all m b f0 scanp :
  f0 = scanner.BeginString ∨ f0 = scanner.BeginStringOrEmpty →
  is_key m.1 → is_item m.2 →
  ∃ f, value_ends f = true ∧
    json.readValue_from (in_key f0) all (member_text m +:+ b) scanp io_EOF
    = json.readValue_from (in_value f) all b
        (scanp + String.length (member_text m)) io_EOF.
Proof.
  intros Hf0 Hk (c & rest & s1 & f & Hitem & Hc & Hrest & Hf).
  exists f. split; [done|]. destruct m as [k item]. cbn [fst snd] in *.
  unfold member_text. cbn [fst snd].
  rewrite !append_assoc, quote_append. cbn [json.readValue_from].
  rewrite (begin_key f0 Hf0).
  rewrite (readValue_from_continues _ _ _ _ _ _ (continues_key k Hk)).
  change (":" +:+ ?x) with (String ":" x). cbn [json.readValue_from].
  change (scanner.step (in_key scanner.EndValue) ":")
    with (in_value scanner.BeginValue, scanner.scanObjectKey).
  cbn iota. subst item.
  change (String c rest +:+ b) with (String c (rest +:+ b)).
  cbn [json.readValue_from]. rewrite Hc.
  rewrite (readValue_from_continues _ _ _ _ _ _ Hrest). f_equal.
  rewrite !length_append, length_quote. cbn. lia.
Qed.

(** Walking one member. *)
Lemma walk_bytes_member m b f0 done st tp :
  f0 = scanner.BeginString ∨ f0 = scanner.BeginStringOrEmpty →
  is_key m.1 → is_item m.2 →
  ∃ f, value_ends f = true ∧
    json.walk_bytes
      (json.mkWalk (in_key f0) None (json.InObject done None :: st) tp)
      (member_text m +:+ b)
    = json.walk_bytes
        (json.mkWalk (in_value f) (Some m.2)
           (json.InObject done (Some (quote m.1)) :: st) tp) b.
Proof.
  intros Hf0 Hk (c & rest & s1 & f & Hitem & Hc & Hrest & Hf).
  exists f. split; [done|]. destruct m as [k item]. cbn [fst snd] in *.
  unfold member_text. cbn [fst snd].
  rewrite !append_assoc, quote_append. cbn [json.walk_bytes].
  unfold json.walk_byte at 1. cbn [json.scan]. rewrite (begin_key f0 Hf0).
  cbn [json.literal json.stack json.top].
  rewrite (walk_bytes_literal_app _ _ _ _ _ _ _ (continues_key k Hk)).
  change (":" +:+ ?x) with (String ":" x). cbn [json.walk_bytes].
  unfold json.walk_byte at 1. cbn [json.scan].
  change (scanner.step (in_key scanner.EndValue) ":")
    with (in_value scanner.BeginValue, scanner.scanObjectKey).
  cbn [json.literal json.stack json.top json.flush json.put json.scan].
  subst item. change (String c rest +:+ b) with (String c (rest +:+ b)).
  cbn [json.walk_bytes].
  unfold json.walk_byte at 1. cbn [json.scan]. rewrite Hc.
  cbn [json.literal json.stack json.top].
  rewrite (walk_bytes_literal_app _ _ _ _ _ _ _ Hrest).
  reflexivity.
Qed.

Lemma readValue_from_members all ms m t f0 scanp :
  f0 = scanner.BeginString ∨ f0 = scanner.BeginStringOrEmpty →
  flat (m :: ms) →
  json.readValue_from (in_key f0) all
    (members_text (m :: ms) +:+ String "}" t) scanp io_EOF
  = inl (S (scanp + String.length (members_text (m :: ms)))).
Proof.
  revert m f0 scanp. induction ms as [|m' ms IH]; intros m f0 scanp Hf0 Hms.
  - apply Forall_cons in Hms as [[Hk Hi] _]. cbn [members_text].
    destruct (readValue_from_member all m (String "}" t) f0 scanp Hf0 Hk Hi)
      as (f & Hf & ->).
    cbn [json.readValue_from]. by rewrite (end_item_brace f Hf).
  - apply Forall_cons in Hms as [[Hk Hi] Hms].
    change (members_text (m :: m' :: ms))
      with (member_text m +:+ "," +:+ members_text (m' :: ms)).
    rewrite !append_assoc.
    destruct (readValue_from_member all m
                ("," +:+ members_text (m' :: ms) +:+ String "}" t)
                f0 scanp Hf0 Hk Hi) as (f & Hf & ->).
    change ("," +:+ ?x) with (String "," x). cbn [json.readValue_from].
    rewrite (end_item_comma f Hf). cbn iota.
    rewrite (IH m' _ _ (or_introl eq_refl) Hms). f_equal.
    rewrite !length_append. cbn. lia.
Qed.

Lemma walk_bytes_members ms m f0 done :
  f0 = scanner.BeginString ∨ f0 = scanner.BeginStringOrEmpty →
  flat (m :: ms) →
  json.top
    (json.walk_bytes
       (json.mkWalk (in_key f0) None [json.InObject done None] None)
       (members_text (m :: ms) +:+ "}"))
  = Some (json.Object (done ++ map as_member (m :: ms))).
Proof.
  revert m f0 done. induction ms as [|m' ms IH]; intros m f0 done Hf0 Hms.
  - apply Forall_cons in Hms as [[Hk Hi] _]. cbn [members_text].
    destruct (walk_bytes_member m "}" f0 done [] None Hf0 Hk Hi)
      as (f & Hf & ->).
    cbn [json.walk_bytes]. unfold json.walk_byte. cbn [json.scan].
    by rewrite (end_item_brace f Hf).
  - apply Forall_cons in Hms as [[Hk Hi] Hms].
    change (members_text (m :: m' :: ms))
      with (member_text m +:+ "," +:+ members_text (m' :: ms)).
    rewrite !append_assoc.
    destruct (walk_bytes_member m
                ("," +:+ members_text (m' :: ms) +:+ "}")
                f0 done [] None Hf0 Hk Hi) as (f & Hf & ->).
    change ("," +:+ ?x) with (String "," x). cbn [json.walk_bytes].
    unfold json.walk_byte at 1. cbn [json.scan].
    rewrite (end_item_comma f Hf).
    cbn [json.literal json.stack json.top json.flush json.put json.scan].
    rewrite (IH m' _ _ (or_introl eq_refl) Hms).
    by rewrite <- app_assoc.
Qed.

Lemma readValue_object ms t :
  flat ms →
  json.readValue (object_text ms +:+ t) io_EOF
  = inl (String.length (object_text ms)).
Proof.
  intros Hms. unfold json.readValue, object_text.
  destruct ms as [|m ms]; [done|].
  rewrite !append_assoc.
  change ("{" +:+ ?x) with (String "{" x). cbn [json.readValue_from].
  change (scanner.step scanner.reset "{")
    with (in_key scanner.BeginStringOrEmpty, scanner.scanBeginObject).
  cbn iota. change ("}" +:+ t) with (String "}" t).
  rewrite (readValue_from_members _ ms m t _ _ (or_intror eq_refl) Hms).
  f_equal. cbn [String.length]. rewrite length_append. cbn. lia.
Qed.

Lemma parse_object ms :
  flat ms →
  json.parse (object_text ms) = Some (json.Object (map as_member ms)).
Proof.
  intros Hms. unfold json.parse, object_text.
  destruct ms as [|m ms]; [done|].
  change ("{" +:+ ?x) with (String "{" x). cbn [json.walk_bytes].
  unfold json.walk_byte at 1. cbn [json.scan].
  change (scanner.step scanner.reset "{")
    with (in_key scanner.BeginStringOrEmpty, scanner.scanBeginObject).
  cbn [json.literal json.stack json.top json.open json.scan].
  exact (walk_bytes_members ms m _ [] (or_intror eq_refl) Hms).
Qed.

Lemma take_all buf : json.take (String.length buf) buf = buf.
Proof. induction buf as [|c buf IH]; cbn; [done|]. by rewrite IH. Qed.

(** Decoding an object without nesting stores its members one after the
    other; what follows the object is not looked at. *)
Lemma Decode_flat ms t v :
  flat ms →
  json.Decode (object_text ms +:+ t) io_EOF v
  = let d := fold_left json.member (map as_member ms) (json.mkDecode v None) in
    (json.target d, json.savedError d).
Proof.
  intros Hms. unfold json.Decode. rewrite (readValue_object ms t Hms).
  rewrite take_app, take_all by done. unfold json.unmarshal. by rewrite (parse_object ms Hms).
Qed.

(** ** Objects of strings, numbers, booleans and null *)

Lemma plain_in_string c : plain c = true → in_string c = true.
Proof.
  unfold plain, in_string. cbn zeta.
  intros [[H1 _]%andb_true_iff H2]%andb_true_iff. by rewrite H1, H2.
Qed.

Lemma continues_string e ps er k :
  all_bytes in_string k = true →
  continues (scanner.mk scanner.InString e ps er) (k +:+ String DQ "")
  = Some (scanner.mk scanner.EndValue e ps er).
Proof.
  intros Hk. rewrite continues_app.
  assert (H : continues (scanner.mk scanner.InString e ps er) k
              = Some (scanner.mk scanner.InString e ps er)).
  { induction k as [|c k IH]; [done|].
    cbn [all_bytes] in Hk. apply andb_true_iff in Hk as [Hc Hk].
    cbn [continues]. rewrite (step_in_string _ _ _ _ Hc). by apply IH. }
  rewrite H. reflexivity.
Qed.

Lemma continues_digits f e ps er ds :
  f = scanner.One ∨ f = scanner.Dot0 →
  all_bytes scanner.isDigit ds = true →
  continues (scanner.mk f e ps er) ds = Some (scanner.mk f e ps er).
Proof.
  intros Hf. induction ds as [|c ds IH]; [done|]. cbn [all_bytes continues].
  intros [Hc Hd]%andb_true_iff.
  destruct Hf as [-> | ->];
    unfold scanner.step, scanner.state1, scanner.stateDot0;
    cbn [scanner.next]; rewrite Hc; by apply IH.
Qed.

(** The scanner takes the text of an integer as a number. *)
Lemma continues_Itoa e ps er v :
  ∃ c rest s1 f,
    strconv.Itoa v = String c rest ∧
    scanner.step (scanner.mk scanner.BeginValue e ps er) c
    = (s1, scanner.scanBeginLiteral) ∧
    continues s1 rest = Some (scanner.mk f e ps er) ∧
    (f = scanner.Zero ∨ f = scanner.One).
Proof.
  unfold strconv.Itoa, DecimalString.NilEmpty.string_of_int.
  assert (Hpos : ∀ p, ∃ c rest,
    DecimalString.NilEmpty.string_of_uint (Pos.to_uint p) = String c rest ∧
    scanner.step (scanner.mk scanner.BeginValue e ps er) c
    = (scanner.mk scanner.One e ps er, scanner.scanBeginLiteral) ∧
    scanner.step (scanner.mk scanner.Neg e ps er) c
    = (scanner.mk scanner.One e ps er, scanner.scanContinue) ∧
    all_bytes scanner.isDigit rest = true).
  { intros p. pose proof (to_uint_head p) as H.
    destruct (Pos.to_uint p) as [|d|d|d|d|d|d|d|d|d|d]; try done;
      cbn [DecimalString.NilEmpty.string_of_uint];
      eexists _, _; (split; [reflexivity|]);
      (split; [reflexivity|]); (split; [reflexivity|]);
      apply string_of_uint_digits. }
  destruct v as [|p|p]; cbn [Z.to_int].
  - exists "0"%char, "", (scanner.mk scanner.Zero e ps er), scanner.Zero.
    repeat split; by left.
  - destruct (Hpos p) as (c & rest & -> & H1 & _ & Hd).
    exists c, rest, (scanner.mk scanner.One e ps er), scanner.One.
    repeat split; [done| |by right].
    apply continues_digits; [by left|done].
  - destruct (Hpos p) as (c & rest & Hs & _ & H2 & Hd).
    exists "-"%char, (String c rest), (scanner.mk scanner.Neg e ps er),
      scanner.One.
    split; [cbn; by rewrite Hs|]. split; [reflexivity|]. split; [|by right].
    cbn [continues]. rewrite H2.
    apply continues_digits; [by left|done].
Qed.

Lemma is_item_text k x : well_formed (k, x) = true → is_item (text_of x).
Proof.
  unfold well_formed. cbn [fst snd]. intros [_ Hx]%andb_true_iff.
  destruct x as [s|v|v ds|[]|]; cbn [text_of].
  - exists DQ, (s +:+ String DQ ""), (in_value scanner.InString),
      scanner.EndValue.
    split; [done|]. split; [done|]. split; [|done].
    apply continues_string.
    exact (all_bytes_impl plain in_string _ plain_in_string Hx).
  - destruct (continues_Itoa false [scanner.parseObjectValue] None v)
      as (c & rest & s1 & f & Hs & H1 & H2 & Hf).
    exists c, rest, s1, f. rewrite Hs.
    split; [done|]. split; [done|]. split; [done|].
    by destruct Hf as [-> | ->].
  - destruct (continues_Itoa false [scanner.parseObjectValue] None v)
      as (c & rest & s1 & f & Hs & H1 & H2 & Hf).
    apply andb_true_iff in Hx as [Hne Hd].
    destruct ds as [|d ds]; [done|]. cbn [all_bytes] in Hd.
    apply andb_true_iff in Hd as [Hd Hds].
    exists c, (rest +:+ String "." (String d ds)), s1, scanner.Dot0.
    rewrite Hs. split; [done|]. split; [done|]. split; [|done].
    rewrite continues_app, H2. cbn [continues mbind option_bind option_ret].
    assert (Hdot : scanner.step (in_value f) "."
                   = (in_value scanner.Dot, scanner.scanContinue))
      by (by destruct Hf as [-> | ->]).
    unfold in_value in Hdot. rewrite Hdot.
    unfold scanner.step at 1, scanner.stateDot. cbn [scanner.next].
    rewrite Hd. apply continues_digits; [by right|done].
  - exists "t"%char, "rue", (in_value scanner.T), scanner.EndValue. done.
  - exists "f"%char, "alse", (in_value scanner.F), scanner.EndValue. done.
  - exists "n"%char, "ull", (in_value scanner.N), scanner.EndValue. done.
Qed.

Lemma plain_not_special c :
  plain c = true →
  byte_eqb c "\" = false ∧ byte_eqb c DQ = false
  ∧ (byte_val c <? 32) = false ∧ (byte_val c <? utf8.RuneSelf) = true.
Proof.
  unfold plain, byte_eqb. cbn zeta.
  intros [[H1 H2]%andb_true_iff H3]%andb_true_iff.
  apply negb_true_iff, orb_false_iff in H3 as [H3 H4].
  apply Z.leb_le in H1. apply Z.ltb_lt in H2. apply Z.eqb_neq in H3, H4.
  repeat split.
  - destruct (Ascii.eqb_spec c "\") as [->|_]; [done|done].
  - destruct (Ascii.eqb_spec c DQ) as [->|_]; [done|done].
  - apply Z.ltb_ge. lia.
  - apply Z.ltb_lt. exact H2.
Qed.

Lemma unquote_loop_plain fuel s :
  (String.length s ≤ fuel)%nat →
  all_bytes plain s = true → json.unquote_loop fuel s = Some s.
Proof.
  revert fuel. induction s as [|c s IH]; intros fuel Hf Hs.
  { by destruct fuel. }
  cbn [all_bytes] in Hs. apply andb_true_iff in Hs as [Hc Hs].
  destruct fuel as [|fuel]; cbn [String.length] in Hf; [lia|].
  destruct (plain_not_special c Hc) as (H1 & H2 & H3 & H4).
  cbn [json.unquote_loop]. rewrite H1, H2, H3, H4. cbn [orb].
  rewrite IH by (done || lia). reflexivity.
Qed.

Lemma init_before_quote_plain s :
  all_bytes plain s = true →
  json.init_before_quote (s +:+ String DQ "") = Some s.
Proof.
  induction s as [|c s IH]; [done|]. cbn [all_bytes].
  intros [Hc Hs]%andb_true_iff.
  change (String c s +:+ ?x) with (String c (s +:+ x)).
  destruct s as [|c' s].
  - reflexivity.
  - change (String c' s +:+ ?x) with (String c' (s +:+ x)) in *.
    cbn [json.init_before_quote]. cbn [json.init_before_quote] in IH.
    by rewrite (IH Hs).
Qed.

(** [unquoteBytes] gives back a string of plain bytes. *)
Lemma unquoteBytes_plain s :
  all_bytes plain s = true → json.unquoteBytes (quote s) = Some s.
Proof.
  intros Hs. unfold json.unquoteBytes, quote.
  change (byte_eqb DQ DQ) with true. cbn iota.
  rewrite (init_before_quote_plain s Hs).
  by apply unquote_loop_plain.
Qed.

Lemma digits_of_uint_acc d acc :
  strconv.digits (Z.pos acc) (DecimalString.NilEmpty.string_of_uint d)
  = Some (Z.pos (Pos.of_uint_acc d acc)).
Proof.
  revert acc. induction d; intros acc;
    cbn [DecimalString.NilEmpty.string_of_uint strconv.digits Pos.of_uint_acc];
    [done|..];
    match goal with
    | |- context [between 48 57 (byte_val ?c)] =>
      change (between 48 57 (byte_val c)) with true; cbn iota;
      let x := eval vm_compute in (byte_val c - 48) in
      change (byte_val c - 48) with x
    end;
    rewrite <- IHd; f_equal; lia.
Qed.

Lemma digits_of_uint d :
  strconv.digits 0 (DecimalString.NilEmpty.string_of_uint d)
  = Some (Z.of_N (Pos.of_uint d)).
Proof.
  induction d;
    cbn [DecimalString.NilEmpty.string_of_uint strconv.digits Pos.of_uint];
    [done|..];
    match goal with
    | |- context [between 48 57 (byte_val ?c)] =>
      change (between 48 57 (byte_val c)) with true; cbn iota;
      let x := eval vm_compute in (0 * 10 + (byte_val c - 48)) in
      change (0 * 10 + (byte_val c - 48)) with x
    end;
    [exact IHd | apply digits_of_uint_acc ..].
Qed.

Lemma digits_of_pos p :
  strconv.digits 0 (DecimalString.NilEmpty.string_of_uint (Pos.to_uint p))
  = Some (Z.pos p).
Proof. by rewrite digits_of_uint, DecimalPos.Unsigned.of_to. Qed.

Lemma digit_no_sign c :
  scanner.isDigit c = true →
  byte_eqb c "+" = false ∧ byte_eqb c "-" = false ∧ byte_eqb c "n" = false
  ∧ byte_eqb c "t" = false ∧ byte_eqb c "f" = false ∧ byte_eqb c DQ = false.
Proof.
  intros H. unfold byte_eqb.
  repeat split;
    match goal with
    | |- Ascii.eqb c ?x = false =>
      destruct (Ascii.eqb_spec c x) as [->|_]; [done|done]
    end.
Qed.

Lemma ParseInt_unsigned c rest :
  scanner.isDigit c = true →
  strconv.ParseInt (String c rest)
  = strconv.digits 0 (String c rest)
      ≫= λ un, if 2 ^ 63 <=? un then None else Some un.
Proof.
  intros H. destruct (digit_no_sign c H) as (H1 & H2 & _).
  unfold strconv.ParseInt, strconv.ParseUint. rewrite H1, H2. cbn [orb negb].
  destruct (strconv.digits 0 (String c rest)) as [un|]; [|done].
  cbn [mbind option_bind andb]. by destruct (2 ^ 63 <=? un).
Qed.

Lemma ParseInt_negative c rest :
  strconv.ParseInt (String "-" (String c rest))
  = strconv.digits 0 (String c rest)
      ≫= λ un, if 2 ^ 63 <? un then None else Some (- un).
Proof.
  unfold strconv.ParseInt, strconv.ParseUint.
  change (byte_eqb "-" "-") with true. change (byte_eqb "-" "+") with false.
  cbn [orb negb].
  destruct (strconv.digits 0 (String c rest)) as [un|]; [|done].
  cbn [mbind option_bind andb]. by destruct (2 ^ 63 <? un).
Qed.

(** The text of a positive number: digits, the first of which is not 0. *)
Lemma string_of_pos p :
  ∃ c rest,
    DecimalString.NilEmpty.string_of_uint (Pos.to_uint p) = String c rest
    ∧ scanner.isDigit c = true ∧ all_bytes scanner.isDigit rest = true.
Proof.
  pose proof (to_uint_head p) as H.
  destruct (Pos.to_uint p) as [|d|d|d|d|d|d|d|d|d|d]; try done;
    cbn [DecimalString.NilEmpty.string_of_uint];
    eexists _, _; (split; [reflexivity|]); (split; [reflexivity|]);
    apply string_of_uint_digits.
Qed.

Lemma ParseInt_Itoa v :
  strconv.ParseInt (strconv.Itoa v) = if int64 v then Some v else None.
Proof.
  unfold strconv.Itoa, DecimalString.NilEmpty.string_of_int, int64.
  destruct v as [|p|p]; cbn [Z.to_int]; [done|..];
    pose proof (digits_of_pos p) as Hd;
    destruct (string_of_pos p) as (c & rest & Hs & Hc & _);
    rewrite Hs in Hd |- *.
  - rewrite (ParseInt_unsigned c rest Hc), Hd. cbn [mbind option_bind].
    destruct (Z.leb_spec (2 ^ 63) (Z.pos p)),
      (Z.leb_spec (- 2 ^ 63) (Z.pos p)), (Z.ltb_spec (Z.pos p) (2 ^ 63));
      done || lia.
  - rewrite (ParseInt_negative c rest), Hd. cbn [mbind option_bind].
    change (- Z.pos p) with (Z.neg p).
    destruct (Z.ltb_spec (2 ^ 63) (Z.pos p)),
      (Z.leb_spec (- 2 ^ 63) (Z.neg p)), (Z.ltb_spec (Z.neg p) (2 ^ 63));
      done || lia.
Qed.

Lemma digits_stop a b acc :
  all_bytes scanner.isDigit a = true →
  strconv.digits acc (a +:+ String "." b) = None.
Proof.
  revert acc. induction a as [|c a IH]; intros acc; [done|].
  cbn [all_bytes]. intros [Hc Ha]%andb_true_iff.
  change (String c a +:+ ?x) with (String c (a +:+ x)).
  cbn [strconv.digits]. unfold scanner.isDigit in Hc. rewrite Hc.
  by apply IH.
Qed.

Lemma ParseInt_fraction v ds :
  strconv.ParseInt (strconv.Itoa v +:+ "." +:+ ds) = None.
Proof.
  unfold strconv.Itoa, DecimalString.NilEmpty.string_of_int.
  change ("." +:+ ds) with (String "." ds).
  destruct v as [|p|p]; cbn [Z.to_int]; [done|..];
    destruct (string_of_pos p) as (c & rest & Hs & Hc & Hr); rewrite Hs.
  - change (String c rest +:+ ?x) with (String c (rest +:+ x)).
    rewrite (ParseInt_unsigned c _ Hc).
    change (String c (rest +:+ ?x)) with (String c rest +:+ x).
    rewrite digits_stop; [done|]. cbn [all_bytes]. by rewrite Hc, Hr.
  - change (String "-" (String c rest) +:+ ?x)
      with (String "-" (String c (rest +:+ x))).
    rewrite (ParseInt_negative c _).
    change (String c (rest +:+ ?x)) with (String c rest +:+ x).
    rewrite digits_stop; [done|]. cbn [all_bytes]. by rewrite Hc, Hr.
Qed.

Lemma literalStore_number c rest f d :
  scanner.isDigit c = true ∨ c = "-"%char →
  json.literalStore (String c rest) f d
  = match f with
    | json.fName => json.saveError (json.field_error f "number") d
    | json.fValue =>
      match strconv.ParseInt (String c rest) with
      | Some n => json.SetInt n d
      | None =>
        json.saveError (json.field_error f ("number " +:+ String c rest)) d
      end
    end.
Proof.
  intros [H | ->]; [|done].
  destruct (digit_no_sign c H) as (_ & _ & H1 & H2 & H3 & H4).
  unfold json.literalStore. by rewrite H1, H2, H3, H4.
Qed.

Lemma Itoa_first v :
  ∃ c rest, strconv.Itoa v = String c rest
            ∧ (scanner.isDigit c = true ∨ c = "-"%char).
Proof.
  unfold strconv.Itoa, DecimalString.NilEmpty.string_of_int.
  destruct v as [|p|p]; cbn [Z.to_int].
  - exists "0"%char, "". by split; [|left].
  - destruct (string_of_pos p) as (c & rest & -> & Hc & _).
    exists c, rest. by split; [|left].
  - eexists _, _. by split; [|right].
Qed.

(** Storing one member of an object: a member that fits is assigned, one
    that does not is an error, which is kept if it is the first. *)
Lemma member_scalar d m :
  well_formed m = true →
  json.member d (as_member (m.1, text_of m.2))
  = if fits m then json.mkDecode (assign (json.target d) m) (json.savedError d)
    else json.saveError (misfit m) d.
Proof.
  destruct m as [k x]. unfold well_formed. cbn [fst snd].
  intros [Hk Hx]%andb_true_iff.
  unfold json.member, as_member, fits, assign, misfit. cbn [fst snd].
  rewrite (unquoteBytes_plain k Hk).
  destruct (json.lookup_field k) as [f|]; [|by destruct d].
  unfold json.value_field.
  destruct x as [s|v|v ds|b|]; cbn [text_of].
  - unfold json.literalStore, quote. change (byte_eqb DQ ?c) with false at 1.
    change (byte_eqb DQ "t" || byte_eqb DQ "f") with false.
    change (byte_eqb DQ DQ) with true. cbn iota.
    change (String DQ (s +:+ String DQ "")) with (quote s).
    rewrite (unquoteBytes_plain s Hx). by destruct f.
  - pose proof (ParseInt_Itoa v) as Hp.
    destruct (Itoa_first v) as (c & rest & Hs & Hc). rewrite Hs in Hp |- *.
    rewrite (literalStore_number c rest f d Hc), Hp.
    destruct f; [done|]. by destruct (int64 v).
  - pose proof (ParseInt_fraction v ds) as Hp.
    destruct (Itoa_first v) as (c & rest & Hs & Hc). rewrite Hs in Hp |- *.
    change (String c rest +:+ ?x) with (String c (rest +:+ x)) in Hp |- *.
    rewrite (literalStore_number c _ f d Hc), Hp. by destruct f.
  - by destruct b, f.
  - by destruct f, d.
Qed.

Lemma member_scalar_error d m e :
  well_formed m = true →
  json.savedError d = Some e →
  json.savedError (json.member d (as_member (m.1, text_of m.2))) = Some e.
Proof.
  intros Hm He. rewrite (member_scalar d m Hm).
  destruct (fits m); [done|]. unfold json.saveError. by rewrite He.
Qed.

Lemma fold_member_error ms d e :
  forallb well_formed ms = true →
  json.savedError d = Some e →
  json.savedError
    (fold_left json.member
       (map as_member (map (λ m, (m.1, text_of m.2)) ms)) d)
  = Some e.
Proof.
  revert d. induction ms as [|m ms IH]; intros d Hms He; [done|].
  cbn [forallb] in Hms. apply andb_true_iff in Hms as [Hm Hms].
  cbn [map fold_left]. apply IH; [done|].
  by apply member_scalar_error.
Qed.

Lemma fold_member_stored ms d :
  forallb well_formed ms = true →
  json.savedError d = None →
  let d' := fold_left json.member
              (map as_member (map (λ m, (m.1, text_of m.2)) ms)) d in
  match stored ms (json.target d) with
  | inl e => json.savedError d' = Some e
  | inr input => d' = json.mkDecode input None
  end.
Proof.
  revert d. induction ms as [|m ms IH]; intros d Hms Hd; cbn zeta.
  { unfold stored. cbn. destruct d. cbn in Hd. by subst. }
  cbn [forallb] in Hms. apply andb_true_iff in Hms as [Hm Hms].
  cbn [map fold_left]. rewrite (member_scalar d m Hm).
  unfold stored. cbn [List.find fold_left].
  destruct (fits m) eqn:Hf; cbn [negb].
  - specialize (IH (json.mkDecode (assign (json.target d) m)
                                  (json.savedError d)) Hms Hd).
    exact IH.
  - apply fold_member_error; [done|]. unfold json.saveError. by rewrite Hd.
Qed.

Lemma flat_scalars ms :
  forallb well_formed ms = true → flat (map (λ m, (m.1, text_of m.2)) ms).
Proof.
  unfold flat. induction ms as [|m ms IH]; intros Hms; [by constructor|].
  cbn [forallb] in Hms. apply andb_true_iff in Hms as [Hm Hms].
  cbn [map]. constructor; [|by apply IH]. cbn [fst snd]. split.
  - unfold well_formed in Hm. apply andb_true_iff in Hm as [Hk _].
    exact (all_bytes_impl plain in_string _ plain_in_string Hk).
  - apply (is_item_text m.1). by destruct m.
Qed.

(** What the handler decodes from an object of well-formed members. *)
Lemma decoded_object ms :
  forallb well_formed ms = true →
  decoded (POST (object_of ms)) = stored ms zero.
Proof.
  intros Hms. unfold decoded, Decode_Body, POST.
  cbn [http.Body http.closed http.content].
  rewrite <- (append_empty_r (object_of ms)). unfold object_of.
  rewrite (Decode_flat _ "" zero (flat_scalars ms Hms)). cbn zeta.
  pose proof (fold_member_stored ms (json.mkDecode zero None) Hms eq_refl)
    as H. cbn zeta in H. cbn [json.target] in H.
  destruct (stored ms zero) as [e|input].
  - by rewrite H.
  - by rewrite H.
Qed.

(** The response to an object of well-formed members. *)
Lemma handle_object ms p :
  forallb well_formed ms = true →
  response (handle processHandler (POST (object_of ms)) p)
  = match stored ms zero with
    | inr input =>
      http.mkResponse 200 (http.Set_ "Content-Type" "application/json" ∅)
        (json.Marshal (response_for input (secret_in (environ p))) +:+ LF)
    | inl e =>
      http.mkResponse 400
        (http.Set_ "X-Content-Type-Options" "nosniff"
           (http.Set_ "Content-Type" "text/plain; charset=utf-8"
              (http.Del "Content-Length" ∅)))
        ("Invalid JSON input: " +:+ Error e +:+ LF)
    end.
Proof.
  intros Hms. pose proof (decoded_object ms Hms) as Hd.
  destruct (stored ms zero) as [e|input].
  - by rewrite (handle_error (POST (object_of ms)) p e eq_refl Hd).
  - by rewrite (handle_ok (POST (object_of ms)) p input eq_refl Hd).
Qed.

Lemma find_misfit ms :
  List.find (λ m, negb (fits m)) ms = None ↔ forallb fits ms = true.
Proof.
  induction ms as [|m ms IH]; [done|]. cbn [List.find forallb].
  destruct (fits m); cbn [negb andb]; [exact IH|done].
Qed.

Lemma stored_app_fit ms1 ms2 input :
  forallb fits ms1 = true →
  stored (ms1 ++ ms2) input = stored ms2 (fold_left assign ms1 input).
Proof.
  revert input. induction ms1 as [|m ms1 IH]; intros input H; [done|].
  cbn [forallb] in H. apply andb_true_iff in H as [Hm H].
  unfold stored in *. cbn [app List.find fold_left]. rewrite Hm. cbn [negb].
  apply IH, H.
Qed.

Lemma stored_name_and_value n v :
  - 2 ^ 63 <= v < 2 ^ 63 →
  stored [("name", Str n); ("value", Int v)] zero
  = inr {| Name := n; Value := v |}.
Proof.
  intros Hv.
  assert (Hi : int64 v = true).
  { unfold int64. apply andb_true_iff.
    split; [apply Z.leb_le|apply Z.ltb_lt]; lia. }
  unfold stored. cbn [List.find]. unfold fits at 1. cbn [fst snd].
  change (json.lookup_field "name") with (Some json.fName). cbn [negb].
  unfold fits at 1. cbn [fst snd].
  change (json.lookup_field "value") with (Some json.fValue).
  rewrite Hi. cbn [negb fold_left]. reflexivity.
Qed.

(** X16.  Text and input correspond: a POST body that is the object with a
    member [name], a string of plain ASCII bytes, and a member [value], an
    integer of 64 bits written in decimal, is answered with 200 and with
    the response object that echoes this very name and this very value. *)
Theorem process_reads_name_and_value (n : string) (v : Z) (p : process) :
  all_bytes plain n = true →
  - 2 ^ 63 <= v < 2 ^ 63 →
  response
    (handle processHandler
       (POST (object_of [("name", Str n); ("value", Int v)])) p)
  = http.mkResponse 200 (http.Set_ "Content-Type" "application/json" ∅)
      (json.Marshal (response_for {| Name := n; Value := v |}
                                  (secret_in (environ p))) +:+ LF).
Proof.
  intros Hn Hv.
  rewrite handle_object
    by (cbn [forallb]; unfold well_formed; cbn [fst snd]; by rewrite Hn).
  by rewrite (stored_name_and_value n v Hv).
Qed.

Lemma process_reads_name_and_value_witness :
  all_bytes plain "Ada L." = true ∧
  - 2 ^ 63 <= -7 < 2 ^ 63 ∧
  response
    (handle processHandler
       (POST (object_of [("name", Str "Ada L."); ("value", Int (-7))]))
       env_hunter2)
  = http.mkResponse 200 (http.Set_ "Content-Type" "application/json" ∅)
      (json.Marshal (response_for {| Name := "Ada L."; Value := -7 |}
                                  (secret_in (environ env_hunter2))) +:+ LF).
Proof.
  split; [reflexivity|]. split; [lia|].
  apply (process_reads_name_and_value "Ada L." (-7) env_hunter2);
    [reflexivity | lia].
Defined.

(** X17.  For a POST body that is an object of well-formed members, the
    status tells whether every member fits: 200 if each member has an
    unknown key, the value [null], a string for [name] or an integer of 64
    bits for [value]; 400 as soon as one member does not, be it a number or
    a boolean for [name], a string, a boolean, a number with a fraction or
    an integer out of range for [value]. *)
Theorem process_status_of_object (ms : list (string * scalar)) (p : process) :
  forallb well_formed ms = true →
  http.StatusCode (response (handle processHandler (POST (object_of ms)) p))
  = if forallb fits ms then http.StatusOK else http.StatusBadRequest.
Proof.
  intros Hms. rewrite (handle_object ms p Hms).
  pose proof (find_misfit ms) as H. unfold stored.
  destruct (List.find _ ms) as [m|].
  - destruct (forallb fits ms); [|done]. discriminate (proj2 H eq_refl).
  - by rewrite (proj1 H eq_refl).
Qed.

Lemma process_status_of_object_witness :
  forallb well_formed [("name", Str "x"); ("value", Frac 1 "0")] = true ∧
  http.StatusCode
    (response
       (handle processHandler
          (POST (object_of [("name", Str "x"); ("value", Frac 1 "0")]))
          env_hunter2))
  = if forallb fits [("name", Str "x"); ("value", Frac 1 "0")]
    then http.StatusOK else http.StatusBadRequest.
Proof.
  split; [reflexivity|].
  apply (process_status_of_object
           [("name", Str "x"); ("value", Frac 1 "0")] env_hunter2).
  reflexivity.
Defined.

(** X18.  The 400 response to an object of well-formed members reports the
    first member that does not fit, in the words of the decoder: the kind
    of the value (for [value] also the number itself), the field and the
    type of the field. *)
Theorem process_reports_first_misfit
    (ms1 ms2 : list (string * scalar)) (m : string * scalar) (p : process) :
  forallb well_formed (ms1 ++ m :: ms2) = true →
  forallb fits ms1 = true →
  fits m = false →
  http.ResponseBody
    (response (handle processHandler (POST (object_of (ms1 ++ m :: ms2))) p))
  = "Invalid JSON input: " +:+ Error (misfit m) +:+ LF.
Proof.
  intros Hms H1 Hm. rewrite (handle_object _ p Hms).
  rewrite (stored_app_fit ms1 (m :: ms2) zero H1).
  unfold stored. cbn [List.find]. by rewrite Hm.
Qed.

Lemma process_reports_first_misfit_witness :
  forallb well_formed ([("name", Str "x")] ++ ("value", Str "7") :: []) = true ∧
  forallb fits [("name", Str "x")] = true ∧
  fits ("value", Str "7") = false ∧
  http.ResponseBody
    (response
       (handle processHandler
          (POST (object_of ([("name", Str "x")] ++ ("value", Str "7") :: [])))
          env_hunter2))
  = "Invalid JSON input: json: cannot unmarshal string into Go struct field ProcessInput.value of type int"
      +:+ LF.
Proof.
  split; [reflexivity|]. split; [reflexivity|]. split; [reflexivity|].
  apply (process_reports_first_misfit
           [("name", Str "x")] [] ("value", Str "7") env_hunter2);
    reflexivity.
Defined.

Lemma forallb_well_formed_app ms1 ms2 :
  forallb well_formed (ms1 ++ ms2) = true ↔
  forallb well_formed ms1 = true ∧ forallb well_formed ms2 = true.
Proof. rewrite forallb_app. apply andb_true_iff. Qed.

Lemma stored_skip ms1 ms2 m input :
  fits m = true → (∀ i, assign i m = i) →
  stored (ms1 ++ m :: ms2) input = stored (ms1 ++ ms2) input.
Proof.
  intros Hm Ha. revert input. induction ms1 as [|m1 ms1 IH]; intros input.
  - unfold stored. cbn [app List.find fold_left]. by rewrite Hm, Ha.
  - unfold stored in *. cbn [app List.find fold_left].
    destruct (negb (fits m1)); [done|]. apply IH.
Qed.

(** X19.  A member whose key is neither [name] nor [value] (in any case of
    the letters), or whose value is [null], is ignored wherever it stands:
    the response is the one to the object without it. *)
Theorem process_ignores_member
    (ms1 ms2 : list (string * scalar)) (m : string * scalar) (p : process) :
  forallb well_formed (ms1 ++ m :: ms2) = true →
  json.lookup_field m.1 = None ∨ m.2 = Null →
  response (handle processHandler (POST (object_of (ms1 ++ m :: ms2))) p)
  = response (handle processHandler (POST (object_of (ms1 ++ ms2))) p).
Proof.
  intros Hms Hm.
  assert (Hms' : forallb well_formed (ms1 ++ ms2) = true).
  { apply forallb_well_formed_app in Hms as [H1 H2].
    cbn [forallb] in H2. apply andb_true_iff in H2 as [_ H2].
    by apply forallb_well_formed_app. }
  rewrite (handle_object _ p Hms), (handle_object _ p Hms').
  rewrite (stored_skip ms1 ms2 m zero); [done|..].
  - unfold fits. destruct Hm as [-> | ->]; [done|].
    by destruct (json.lookup_field m.1) as [[]|].
  - intros i. unfold assign. destruct Hm as [-> | ->]; [done|].
    by destruct (json.lookup_field m.1) as [[]|].
Qed.

Lemma process_ignores_member_witness :
  forallb well_formed
    ([("name", Str "x")] ++ ("comment", Bool true) :: [("value", Int 3)])
  = true ∧
  (json.lookup_field ("comment", Bool true).1 = None
   ∨ ("comment", Bool true).2 = Null) ∧
  response
    (handle processHandler
       (POST (object_of ([("name", Str "x")]
                         ++ ("comment", Bool true) :: [("value", Int 3)])))
       env_hunter2)
  = response
      (handle processHandler
         (POST (object_of ([("name", Str "x")] ++ [("value", Int 3)])))
         env_hunter2).
Proof.
  split; [reflexivity|]. split; [left; reflexivity|].
  apply (process_ignores_member
           [("name", Str "x")] [("value", Int 3)] ("comment", Bool true)
           env_hunter2);
    [reflexivity | left; reflexivity].
Defined.

Lemma lookup_field_folded k :
  json.lookup_field k = lookup_folded (json.foldName k).
Proof.
  unfold json.lookup_field, lookup_folded.
  change (json.foldName "name") with "NAME".
  change (json.foldName "value") with "VALUE".
  destruct (String.eqb_spec k "name") as [->|_]; [done|].
  destruct (String.eqb_spec k "value") as [->|_]; [done|].
  reflexivity.
Qed.

Lemma stored_fold_case ms ms' input :
  Forall2 (λ m m', json.foldName m.1 = json.foldName m'.1 ∧ m.2 = m'.2)
          ms ms' →
  stored ms input = stored ms' input.
Proof.
  intros H. revert input.
  induction H as [|[k x] [k' x'] ms ms' [Hk Hx] _ IH]; intros input; [done|].
  cbn [fst snd] in Hk, Hx. subst x'.
  assert (Hl : json.lookup_field k = json.lookup_field k')
    by (by rewrite !lookup_field_folded, Hk).
  assert (Hf : fits (k, x) = fits (k', x))
    by (unfold fits; cbn [fst snd]; by rewrite Hl).
  assert (Hm : misfit (k, x) = misfit (k', x))
    by (unfold misfit; cbn [fst snd]; by rewrite Hl).
  assert (Ha : ∀ i, assign i (k, x) = assign i (k', x))
    by (intros i; unfold assign; cbn [fst snd]; by rewrite Hl).
  unfold stored in *. cbn [List.find fold_left]. rewrite Hf, Ha.
  destruct (negb _); [by rewrite Hm|]. apply IH.
Qed.

Lemma fold_assign_unset_name ms input :
  Forall (λ m, json.lookup_field m.1 ≠ Some json.fName) ms →
  Name (fold_left assign ms input) = Name input.
Proof.
  revert input. induction ms as [|m ms IH]; intros input H; [done|].
  apply Forall_cons in H as [Hm H]. cbn [fold_left]. rewrite (IH _ H).
  unfold assign. destruct (json.lookup_field m.1) as [[]|]; try done.
  by destruct m.2.
Qed.

Lemma fold_assign_unset_value ms input :
  Forall (λ m, json.lookup_field m.1 ≠ Some json.fValue) ms →
  Value (fold_left assign ms input) = Value input.
Proof.
  revert input. induction ms as [|m ms IH]; intros input H; [done|].
  apply Forall_cons in H as [Hm H]. cbn [fold_left]. rewrite (IH _ H).
  unfold assign. destruct (json.lookup_field m.1) as [[]|]; try done.
  by destruct m.2.
Qed.

(** X21.  A field that no member names keeps its zero value: when an
    object of well-formed members is accepted, the response echoes some
    input whose name is empty if no key selects [name], and whose value is
    0 if no key selects [value]. *)
Theorem process_unset_fields_zero (ms : list (string * scalar)) (p : process) :
  forallb well_formed ms = true →
  http.StatusCode (response (handle processHandler (POST (object_of ms)) p))
  = http.StatusOK →
  ∃ input,
    http.ResponseBody
      (response (handle processHandler (POST (object_of ms)) p))
    = json.Marshal (response_for input (secret_in (environ p))) +:+ LF
    ∧ (Forall (λ m, json.lookup_field m.1 ≠ Some json.fName) ms →
       Name input = "")
    ∧ (Forall (λ m, json.lookup_field m.1 ≠ Some json.fValue) ms →
       Value input = 0).
Proof.
  intros Hms. rewrite (handle_object ms p Hms). unfold stored.
  destruct (List.find _ ms) as [m|]; [done|]. intros _.
  exists (fold_left assign ms zero). split; [done|]. split; intros H.
  - by rewrite fold_assign_unset_name.
  - by rewrite fold_assign_unset_value.
Qed.

Lemma process_unset_fields_zero_witness :
  forallb well_formed [("name", Str "x")] = true ∧
  http.StatusCode
    (response
       (handle processHandler (POST (object_of [("name", Str "x")]))
               env_hunter2))
  = http.StatusOK ∧
  ∃ input,
    http.ResponseBody
      (response
         (handle processHandler (POST (object_of [("name", Str "x")]))
                 env_hunter2))
    = json.Marshal (response_for input (secret_in (environ env_hunter2)))
      +:+ LF
    ∧ (Forall (λ m, json.lookup_field m.1 ≠ Some json.fName)
              [("name", Str "x")] →
       Name input = "")
    ∧ (Forall (λ m, json.lookup_field m.1 ≠ Some json.fValue)
              [("name", Str "x")] →
       Value input = 0).
Proof.
  split; [reflexivity|]. split; [reflexivity|].
  apply (process_unset_fields_zero [("name", Str "x")] env_hunter2);
    reflexivity.
Defined.

Lemma agree_assign f a b m :
  agree f a b → agree f (assign a m) (assign b m).
Proof.
  unfold agree, assign. intros H.
  destruct (json.lookup_field m.1) as [[]|], m.2, f; cbn; done.
Qed.

Lemma assign_agree f a b m :
  json.lookup_field m.1 = Some f → fits m = true → m.2 ≠ Null →
  agree f a b → assign a m = assign b m.
Proof.
  unfold agree, assign, fits. intros -> Hm Hn H.
  destruct f, m.2; try done; cbn in H |- *; by rewrite H.
Qed.

Lemma stored_agree f ms2 ms3 m a b :
  json.lookup_field m.1 = Some f → fits m = true → m.2 ≠ Null →
  agree f a b →
  stored (ms2 ++ m :: ms3) a = stored (ms2 ++ m :: ms3) b.
Proof.
  intros Hl Hm Hn. revert a b.
  induction ms2 as [|m' ms2 IH]; intros a b H.
  - unfold stored. cbn [app List.find fold_left]. rewrite Hm. cbn [negb].
    by rewrite (assign_agree f a b m Hl Hm Hn H).
  - unfold stored in *. cbn [app List.find fold_left].
    destruct (negb (fits m')); [done|].
    apply IH, agree_assign, H.
Qed.

Lemma agree_assigned f a m :
  json.lookup_field m.1 = Some f → agree f a (assign a m).
Proof.
  unfold agree, assign. intros ->. by destruct f, m.2.
Qed.

Lemma stored_overridden ms1 ms2 ms3 m1 m2 input :
  json.lookup_field m1.1 = json.lookup_field m2.1 →
  fits m1 = true → fits m2 = true → m2.2 ≠ Null →
  stored (ms1 ++ m1 :: ms2 ++ m2 :: ms3) input
  = stored (ms1 ++ ms2 ++ m2 :: ms3) input.
Proof.
  intros Hl H1 H2 Hn. revert input.
  induction ms1 as [|m ms1 IH]; intros input.
  - cbn [app]. unfold stored at 1. cbn [List.find fold_left].
    rewrite H1. cbn [negb].
    change (stored (ms2 ++ m2 :: ms3) (assign input m1)
            = stored (ms2 ++ m2 :: ms3) input).
    destruct (json.lookup_field m2.1) as [f|] eqn:E.
    + symmetry. apply (stored_agree f); try done.
      by apply agree_assigned.
    + unfold assign at 1. by rewrite Hl.
  - unfold stored in *. cbn [app List.find fold_left].
    destruct (negb (fits m)); [done|]. apply IH.
Qed.

(** X22.  Of two members for the same field, the later one wins: a member
    that fits has no effect on the response when a later member, which
    fits and is not [null], selects the same field. *)
Theorem process_later_member_wins
    (ms1 ms2 ms3 : list (string * scalar)) (m1 m2 : string * scalar)
    (p : process) :
  forallb well_formed (ms1 ++ m1 :: ms2 ++ m2 :: ms3) = true →
  json.lookup_field m1.1 = json.lookup_field m2.1 →
  fits m1 = true → fits m2 = true → m2.2 ≠ Null →
  response
    (handle processHandler
       (POST (object_of (ms1 ++ m1 :: ms2 ++ m2 :: ms3))) p)
  = response
      (handle processHandler (POST (object_of (ms1 ++ ms2 ++ m2 :: ms3))) p).
Proof.
  intros Hms Hl H1 H2 Hn.
  assert (Hms' : forallb well_formed (ms1 ++ ms2 ++ m2 :: ms3) = true).
  { apply forallb_well_formed_app in Hms as [Ha Hb].
    cbn [forallb] in Hb. apply andb_true_iff in Hb as [_ Hb].
    by apply forallb_well_formed_app. }
  rewrite (handle_object _ p Hms), (handle_object _ p Hms').
  by rewrite (stored_overridden ms1 ms2 ms3 m1 m2 zero Hl H1 H2 Hn).
Qed.

Lemma process_later_member_wins_witness :
  forallb well_formed
    ([] ++ ("name", Str "a") :: [("value", Int 1)] ++ ("NAME", Str "b") :: [])
  = true ∧
  json.lookup_field ("name", Str "a").1 = json.lookup_field ("NAME", Str "b").1 ∧
  fits ("name", Str "a") = true ∧ fits ("NAME", Str "b") = true ∧
  ("NAME", Str "b").2 ≠ Null ∧
  response
    (handle processHandler
       (POST (object_of ([] ++ ("name", Str "a")
                            :: [("value", Int 1)] ++ ("NAME", Str "b") :: [])))
       env_hunter2)
  = response
      (handle processHandler
         (POST (object_of ([] ++ [("value", Int 1)] ++ ("NAME", Str "b") :: [])))
         env_hunter2).
Proof.
  split; [reflexivity|]. split; [reflexivity|]. split; [reflexivity|].
  split; [reflexivity|]. split; [discriminate|].
  apply (process_later_member_wins
           [] [("value", Int 1)] [] ("name", Str "a") ("NAME", Str "b")
           env_hunter2);
    [reflexivity | reflexivity | reflexivity | reflexivity | discriminate].
Defined.

(** X23.  What a request to [/process] adds to the log depends on the
    request alone, never on the environment, so the secret is not logged:
    there are entries that the handler appends whatever the process is,
    none for a method other than POST, one after a decode failure, two
    after a success. *)
Theorem process_log_ignores_process (r : http.Request) :
  ∃ entries,
    (∀ p, logged (after (handle processHandler r p)) = logged p ++ entries)
    ∧ ∀ p,
        length entries
        = match http.StatusCode (response (handle processHandler r p)) with
          | 200 => 2%nat
          | 400 => 1%nat
          | _ => 0%nat
          end.
Proof.
  destruct (String.eqb_spec (http.Method r) http.MethodPost) as [Hm|Hm].
  - destruct (decoded r) as [e|input] eqn:Hd.
    + eexists. split; intros p; rewrite (handle_error _ _ _ Hm Hd);
        cbn [after logged response http.StatusCode]; reflexivity.
    + eexists. split; intros p; rewrite (handle_ok _ _ _ Hm Hd);
        cbn [after logged response http.StatusCode]; reflexivity.
  - exists []. split; intros p; rewrite (handle_method _ _ Hm);
      cbn [after logged response]; [by rewrite app_nil_r|reflexivity].
Qed.

Lemma simple_htmlSafe c :
  simple c = true →
  (byte_val c <? utf8.RuneSelf) = true ∧ json.htmlSafe (byte_val c) = true.
Proof.
  unfold simple, plain, html_safe, json.htmlSafe, between, utf8.RuneSelf.
  cbn zeta. intros H.
  repeat match type of H with
         | _ && _ = true => apply andb_true_iff in H as [? H]
         | negb _ = true => apply negb_true_iff in H
         | _ || _ = false => apply orb_false_iff in H as [? H]
         end.
  repeat match goal with
         | H : _ && _ = true |- _ => apply andb_true_iff in H as [? ?]
         | H : negb _ = true |- _ => apply negb_true_iff in H
         | H : _ || _ = false |- _ => apply orb_false_iff in H as [? ?]
         | H : (_ <=? _) = true |- _ => apply Z.leb_le in H
         | H : (_ <? _) = true |- _ => apply Z.ltb_lt in H
         | H : (_ =? _) = false |- _ => apply Z.eqb_neq in H
         end.
  split; [apply Z.ltb_lt; lia|].
  apply andb_true_iff. split.
  - apply andb_true_iff. split; apply Z.leb_le; lia.
  - apply negb_true_iff.
    repeat (apply orb_false_iff; split); apply Z.eqb_neq; lia.
Qed.

Lemma appendString_loop_simple fuel s :
  (String.length s ≤ fuel)%nat →
  all_bytes simple s = true → json.appendString_loop fuel s = s.
Proof.
  revert fuel. induction s as [|c s IH]; intros fuel Hf Hs;
    [by destruct fuel|].
  cbn [all_bytes] in Hs. apply andb_true_iff in Hs as [Hc Hs].
  destruct fuel as [|fuel]; cbn [String.length] in Hf; [lia|].
  destruct (simple_htmlSafe c Hc) as [H1 H2].
  cbn [json.appendString_loop]. rewrite H1, H2.
  by rewrite IH by (done || lia).
Qed.

(** The encoder writes a string of simple bytes between quotation marks,
    as it is. *)
Lemma appendString_simple s :
  all_bytes simple s = true → json.appendString s = quote s.
Proof.
  intros Hs. unfold json.appendString, quote.
  by rewrite appendString_loop_simple.
Qed.

Lemma simple_plain s : all_bytes simple s = true → all_bytes plain s = true.
Proof.
  apply all_bytes_impl. intros c. unfold simple.
  by intros [H _]%andb_true_iff.
Qed.

(** X24.  A name of simple bytes comes back byte for byte: for such a name,
    an integer of 64 bits and a secret of simple bytes, the body of the
    response is the object with the members [message], [received_name],
    [received_value] and [secret_from_env] in this order, written without
    any space and with every string as it is, and a newline. *)
Theorem process_echoes_verbatim (n : string) (v : Z) (p : process) :
  all_bytes simple n = true →
  - 2 ^ 63 <= v < 2 ^ 63 →
  all_bytes simple (secret_in (environ p)) = true →
  http.ResponseBody
    (response
       (handle processHandler
          (POST (object_of [("name", Str n); ("value", Int v)])) p))
  = object_of
      [("message", Str ("Successfully processed input for " +:+ n +:+ "."));
       ("received_name", Str n);
       ("received_value", Int v);
       ("secret_from_env", Str (secret_in (environ p)))]
    +:+ LF.
Proof.
  intros Hn Hv Hs.
  rewrite handle_object
    by (cbn [forallb]; unfold well_formed; cbn [fst snd];
        by rewrite (simple_plain n Hn)).
  rewrite (stored_name_and_value n v Hv). cbn [http.ResponseBody]. f_equal.
  unfold json.Marshal, response_for.
  cbn [Message ReceivedName ReceivedValue SecretFromEnv Name Value].
  rewrite (appendString_simple n Hn), (appendString_simple _ Hs).
  rewrite appendString_simple
    by (rewrite !all_bytes_app, Hn; reflexivity).
  unfold object_of, object_text. cbn [map members_text fst snd text_of].
  unfold member_text. cbn [fst snd]. rewrite !append_assoc. reflexivity.
Qed.

Lemma process_echoes_verbatim_witness :
  all_bytes simple "Ada L." = true ∧
  - 2 ^ 63 <= 42 < 2 ^ 63 ∧
  all_bytes simple (secret_in (environ env_hunter2)) = true ∧
  http.ResponseBody
    (response
       (handle processHandler
          (POST (object_of [("name", Str "Ada L."); ("value", Int 42)]))
          env_hunter2))
  = object_of
      [("message",
        Str ("Successfully processed input for " +:+ "Ada L." +:+ "."));
       ("received_name", Str "Ada L.");
       ("received_value", Int 42);
       ("secret_from_env", Str (secret_in (environ env_hunter2)))]
    +:+ LF.
Proof.
  split; [reflexivity|]. split; [lia|]. split; [reflexivity|].
  apply (process_echoes_verbatim "Ada L." 42 env_hunter2);
    [reflexivity | lia | reflexivity].
Defined.

(** * Strings through the encoder and the decoder

    What the response carries is settled by reading it back: the decoder
    stores well-formed UTF-8 only, [appendString] and [unquoteBytes] are
    inverse on well-formed UTF-8, and the body of a 200 response is parsed
    into its four members. *)

(** ** Bytes and bits *)

Lemma byte_val_range c : 0 <= byte_val c < 256.
Proof.
  unfold byte_val. pose proof (N_ascii_bounded c) as H. lia.
Qed.

Lemma byte_of_val c : byte_of (byte_val c) = c.
Proof.
  unfold byte_of. pose proof (byte_val_range c) as H.
  change 255 with (Z.ones 8). rewrite Z.land_ones by lia.
  rewrite Z.mod_small by lia. unfold byte_val. rewrite N2Z.id.
  apply ascii_N_embedding.
Qed.

Lemma byte_val_of x : 0 <= x < 256 → byte_val (byte_of x) = x.
Proof.
  intros H. unfold byte_of, byte_val.
  change 255 with (Z.ones 8). rewrite Z.land_ones by lia.
  rewrite Z.mod_small by lia. rewrite N_ascii_embedding by lia. lia.
Qed.

Lemma lor_add n a b :
  0 <= n → 0 <= b < 2 ^ n → Z.lor (a * 2 ^ n) b = a * 2 ^ n + b.
Proof.
  intros Hn Hb. symmetry. apply Z.add_nocarry_lor.
  apply Z.bits_inj'. intros i Hi. rewrite Z.land_spec, Z.bits_0.
  destruct (Z.lt_ge_cases i n) as [H|H].
  - by rewrite Z.mul_pow2_bits_low.
  - rewrite <- (Z.mod_small b (2 ^ n)) by lia.
    rewrite Z.mod_pow2_bits_high by lia. apply andb_false_r.
Qed.

Lemma land_low n x : 0 <= n → Z.land x (2 ^ n - 1) = x mod 2 ^ n.
Proof.
  intros Hn. rewrite <- Z.land_ones by done. f_equal.
  rewrite Z.ones_equiv. lia.
Qed.

Ltac to_arith :=
  repeat match goal with
         | H : _ && _ = true |- _ => apply andb_true_iff in H as [? ?]
         | H : _ || _ = false |- _ => apply orb_false_iff in H as [? ?]
         | H : between _ _ _ = true |- _ => unfold between in H
         | H : between _ _ _ = false |- _ => unfold between in H
         | H : _ && _ = false |- _ => apply andb_false_iff in H
         | H : (_ <=? _) = true |- _ => apply Z.leb_le in H
         | H : (_ <=? _) = false |- _ => apply Z.leb_gt in H
         | H : (_ <? _) = true |- _ => apply Z.ltb_lt in H
         | H : (_ <? _) = false |- _ => apply Z.ltb_ge in H
         | H : (_ =? _) = true |- _ => apply Z.eqb_eq in H
         | H : (_ =? _) = false |- _ => apply Z.eqb_neq in H
         end.

(** Decide the comparisons of the goal one after the other. *)
Ltac decide_ifs :=
  repeat match goal with
         | |- context [?a <? ?b] =>
           destruct (Z.ltb_spec a b); try lia; cbn [orb andb negb]
         | |- context [?a <=? ?b] =>
           destruct (Z.leb_spec a b); try lia; cbn [orb andb negb]
         | |- context [?a =? ?b] =>
           destruct (Z.eqb_spec a b); try lia; cbn [orb andb negb]
         end.

(** Evaluate what [DecodeRune] computes from the entry [x] of [first]. *)
Ltac first_entry x :=
  let a := eval vm_compute in (utf8.as_ <=? x) in
  change (utf8.as_ <=? x) with a;
  let b := eval vm_compute in (Z.land x 7) in
  change (Z.land x 7) with b;
  let c := eval vm_compute in (utf8.acceptRanges (Z.shiftr x 4)) in
  change (utf8.acceptRanges (Z.shiftr x 4)) with c;
  cbn [fst snd]; unfold utf8.locb, utf8.hicb.

Lemma DecodeRune2 c0 c1 rest :
  between 0xC2 0xDF (byte_val c0) = true →
  between 0x80 0xBF (byte_val c1) = true →
  utf8.DecodeRune (String c0 (String c1 rest))
  = ((byte_val c0 - 0xC0) * 64 + (byte_val c1 - 0x80), 2%nat).
Proof.
  intros H0 H1. to_arith. unfold utf8.DecodeRune. cbv zeta.
  generalize dependent (byte_val c1). generalize dependent (byte_val c0).
  intros p0 ? ? b1 ? ?.
  assert (Hf : utf8.first p0 = utf8.s1) by (unfold utf8.first; decide_ifs; done).
  rewrite Hf. first_entry utf8.s1. decide_ifs. f_equal.
  rewrite Z.shiftl_mul_pow2 by lia.
  change 31 with (2 ^ 5 - 1). change 63 with (2 ^ 6 - 1).
  rewrite !land_low by lia. rewrite lor_add by (try lia; apply Z.mod_pos_bound; lia).
  Z.div_mod_to_equations. lia.
Qed.

Lemma lor_sum n a b :
  0 <= n → a mod 2 ^ n = 0 → 0 <= b < 2 ^ n → Z.lor a b = a + b.
Proof.
  intros Hn Ha Hb.
  rewrite (Z.div_mod a (2 ^ n)) at 1 2 by lia. rewrite Ha, Z.add_0_r.
  rewrite (Z.mul_comm (2 ^ n)). by apply lor_add.
Qed.

Ltac arith := lia || (Z.div_mod_to_equations; lia).

Lemma DecodeRune3 c0 c1 c2 rest :
  between 0xE0 0xEF (byte_val c0) = true →
  between (if byte_val c0 =? 0xE0 then 0xA0 else 0x80)
          (if byte_val c0 =? 0xED then 0x9F else 0xBF) (byte_val c1) = true →
  between 0x80 0xBF (byte_val c2) = true →
  utf8.DecodeRune (String c0 (String c1 (String c2 rest)))
  = ((byte_val c0 - 0xE0) * 4096 + (byte_val c1 - 0x80) * 64
     + (byte_val c2 - 0x80), 3%nat).
Proof.
  intros H0 H1 H2. unfold utf8.DecodeRune. cbv zeta.
  generalize dependent (byte_val c2). generalize dependent (byte_val c1).
  generalize dependent (byte_val c0). intros p0 H0 b1 H1 b2 H2.
  assert (Hv : 128 <= b1 <= 191 →
               Z.lor (Z.lor (Z.shiftl (Z.land p0 15) 12)
                            (Z.shiftl (Z.land b1 63) 6))
                     (Z.land b2 63)
               = (p0 - 224) * 4096 + (b1 - 128) * 64 + (b2 - 128)).
  { intros Hb. to_arith.
    change 15 with (2 ^ 4 - 1). change 63 with (2 ^ 6 - 1).
    rewrite !land_low by lia.
    replace (p0 `mod` 2 ^ 4) with (p0 - 224) by arith.
    replace (b1 `mod` 2 ^ 6) with (b1 - 128) by arith.
    replace (b2 `mod` 2 ^ 6) with (b2 - 128) by arith.
    rewrite !Z.shiftl_mul_pow2 by lia.
    rewrite (lor_sum 12 (_ * 2 ^ 12) (_ * 2 ^ 6)) by arith.
    rewrite (lor_sum 6) by arith. lia. }
  revert H1.
  destruct (Z.eqb_spec p0 224) as [->|N1];
    [change (224 =? 237) with false
    |destruct (Z.eqb_spec p0 237) as [->|N2]]; intros H1; to_arith.
  - change (utf8.first 224) with utf8.s2. first_entry utf8.s2.
    decide_ifs. f_equal. apply Hv. lia.
  - change (utf8.first 237) with utf8.s4. first_entry utf8.s4.
    decide_ifs. f_equal. apply Hv. lia.
  - assert (Hf : utf8.first p0 = utf8.s3)
      by (unfold utf8.first; decide_ifs; done).
    rewrite Hf. first_entry utf8.s3. decide_ifs. f_equal. apply Hv. lia.
Qed.

Lemma DecodeRune4 c0 c1 c2 c3 rest :
  between 0xF0 0xF4 (byte_val c0) = true →
  between (if byte_val c0 =? 0xF0 then 0x90 else 0x80)
          (if byte_val c0 =? 0xF4 then 0x8F else 0xBF) (byte_val c1) = true →
  between 0x80 0xBF (byte_val c2) = true →
  between 0x80 0xBF (byte_val c3) = true →
  utf8.DecodeRune (String c0 (String c1 (String c2 (String c3 rest))))
  = ((byte_val c0 - 0xF0) * 262144 + (byte_val c1 - 0x80) * 4096
     + (byte_val c2 - 0x80) * 64 + (byte_val c3 - 0x80), 4%nat).
Proof.
  intros H0 H1 H2 H3. unfold utf8.DecodeRune. cbv zeta.
  generalize dependent (byte_val c3). generalize dependent (byte_val c2).
  generalize dependent (byte_val c1). generalize dependent (byte_val c0).
  intros p0 H0 b1 H1 b2 H2 b3 H3.
  assert (Hv : 128 <= b1 <= 191 →
               Z.lor (Z.lor (Z.lor (Z.shiftl (Z.land p0 7) 18)
                                   (Z.shiftl (Z.land b1 63) 12))
                            (Z.shiftl (Z.land b2 63) 6))
                     (Z.land b3 63)
               = (p0 - 240) * 262144 + (b1 - 128) * 4096
                 + (b2 - 128) * 64 + (b3 - 128)).
  { intros Hb. to_arith.
    change 7 with (2 ^ 3 - 1). change 63 with (2 ^ 6 - 1).
    rewrite !land_low by lia.
    replace (p0 `mod` 2 ^ 3) with (p0 - 240) by arith.
    replace (b1 `mod` 2 ^ 6) with (b1 - 128) by arith.
    replace (b2 `mod` 2 ^ 6) with (b2 - 128) by arith.
    replace (b3 `mod` 2 ^ 6) with (b3 - 128) by arith.
    rewrite !Z.shiftl_mul_pow2 by lia.
    rewrite (lor_sum 18 (_ * 2 ^ 18) (_ * 2 ^ 12)) by arith.
    rewrite (lor_sum 12 _ (_ * 2 ^ 6)) by arith.
    rewrite (lor_sum 6) by arith. lia. }
  revert H1.
  destruct (Z.eqb_spec p0 240) as [->|N1];
    [change (240 =? 244) with false
    |destruct (Z.eqb_spec p0 244) as [->|N2]]; intros H1; to_arith.
  - change (utf8.first 240) with utf8.s5. first_entry utf8.s5.
    decide_ifs. f_equal. apply Hv. lia.
  - change (utf8.first 244) with utf8.s7. first_entry utf8.s7.
    decide_ifs. f_equal. apply Hv. lia.
  - assert (Hf : utf8.first p0 = utf8.s6)
      by (unfold utf8.first; decide_ifs; done).
    rewrite Hf. first_entry utf8.s6. decide_ifs. f_equal. apply Hv. lia.
Qed.

Ltac byte_eq c :=
  etrans; [|apply (byte_of_val c)]; f_equal;
  rewrite ?Z.shiftr_div_pow2 by lia;
  change 63 with (2 ^ 6 - 1); rewrite ?land_low by lia.

Lemma EncodeRune2 c0 c1 :
  between 0xC2 0xDF (byte_val c0) = true →
  between 0x80 0xBF (byte_val c1) = true →
  utf8.EncodeRune ((byte_val c0 - 0xC0) * 64 + (byte_val c1 - 0x80))
  = String c0 (String c1 "").
Proof.
  intros H0 H1. to_arith.
  unfold utf8.EncodeRune, between.
  decide_ifs; unfold bytes; cbn [foldr];
    (f_equal;
     [byte_eq c0; rewrite (lor_sum 5) by arith; arith
     |f_equal; byte_eq c1; rewrite (lor_sum 6) by arith; arith]).
Qed.

Lemma EncodeRune3 c0 c1 c2 :
  between 0xE0 0xEF (byte_val c0) = true →
  between (if byte_val c0 =? 0xE0 then 0xA0 else 0x80)
          (if byte_val c0 =? 0xED then 0x9F else 0xBF) (byte_val c1) = true →
  between 0x80 0xBF (byte_val c2) = true →
  utf8.EncodeRune ((byte_val c0 - 0xE0) * 4096 + (byte_val c1 - 0x80) * 64
                   + (byte_val c2 - 0x80))
  = String c0 (String c1 (String c2 "")).
Proof.
  intros H0 H1 H2.
  assert (Hb : 128 <= byte_val c1 <= 191
               ∧ (byte_val c0 = 224 → 160 <= byte_val c1)
               ∧ (byte_val c0 = 237 → byte_val c1 <= 159)).
  { revert H1. destruct (Z.eqb_spec (byte_val c0) 224) as [E|N];
      [rewrite E; change (224 =? 237) with false
      |destruct (Z.eqb_spec (byte_val c0) 237) as [E|N']];
      intros H1; to_arith; lia. }
  clear H1. destruct Hb as (Hb & Hlo & Hhi). to_arith.
  unfold utf8.EncodeRune, between, utf8.MaxRune, utf8.surrogateMin,
    utf8.surrogateMax.
  decide_ifs; unfold utf8.enc3, bytes; cbn [foldr];
    (f_equal;
     [byte_eq c0; rewrite (lor_sum 4) by arith; arith
     |f_equal;
      [byte_eq c1; rewrite (lor_sum 6) by arith; arith
      |f_equal; byte_eq c2; rewrite (lor_sum 6) by arith; arith]]).
Qed.

Lemma EncodeRune4 c0 c1 c2 c3 :
  between 0xF0 0xF4 (byte_val c0) = true →
  between (if byte_val c0 =? 0xF0 then 0x90 else 0x80)
          (if byte_val c0 =? 0xF4 then 0x8F else 0xBF) (byte_val c1) = true →
  between 0x80 0xBF (byte_val c2) = true →
  between 0x80 0xBF (byte_val c3) = true →
  utf8.EncodeRune ((byte_val c0 - 0xF0) * 262144 + (byte_val c1 - 0x80) * 4096
                   + (byte_val c2 - 0x80) * 64 + (byte_val c3 - 0x80))
  = String c0 (String c1 (String c2 (String c3 ""))).
Proof.
  intros H0 H1 H2 H3.
  assert (Hb : 128 <= byte_val c1 <= 191
               ∧ (byte_val c0 = 240 → 144 <= byte_val c1)
               ∧ (byte_val c0 = 244 → byte_val c1 <= 143)).
  { revert H1. destruct (Z.eqb_spec (byte_val c0) 240) as [E|N];
      [rewrite E; change (240 =? 244) with false
      |destruct (Z.eqb_spec (byte_val c0) 244) as [E|N']];
      intros H1; to_arith; lia. }
  clear H1. destruct Hb as (Hb & Hlo & Hhi). to_arith.
  unfold utf8.EncodeRune, between, utf8.MaxRune, utf8.surrogateMin,
    utf8.surrogateMax.
  decide_ifs; unfold bytes; cbn [foldr];
    (f_equal;
     [byte_eq c0; rewrite (lor_sum 3) by arith; arith
     |f_equal;
      [byte_eq c1; rewrite (lor_sum 6) by arith; arith
      |f_equal;
       [byte_eq c2; rewrite (lor_sum 6) by arith; arith
       |f_equal; byte_eq c3; rewrite (lor_sum 6) by arith; arith]]]).
Qed.

Lemma byte_val_lor n k x :
  0 <= n → 0 <= k → k mod 2 ^ n = 0 → 0 <= x < 2 ^ n → k + 2 ^ n <= 256 →
  byte_val (byte_of (Z.lor k x)) = k + x.
Proof.
  intros Hn Hk Hm Hx Hb. rewrite (lor_sum n) by done.
  apply byte_val_of. lia.
Qed.

Lemma valid_utf8_ascii c s :
  byte_val c < 0x80 → valid_utf8 (String c s) = valid_utf8 s.
Proof.
  intros H. cbn [valid_utf8]. cbv zeta.
  by destruct (Z.ltb_spec (byte_val c) 128); [|lia].
Qed.

(** As [decide_ifs], with the tests for equality first and with division. *)
Ltac decide_tests :=
  repeat match goal with
         | |- context [?a =? ?b] =>
           destruct (Z.eqb_spec a b); try arith; cbn [orb andb negb]
         | |- context [?a <? ?b] =>
           destruct (Z.ltb_spec a b); try arith; cbn [orb andb negb]
         | |- context [?a <=? ?b] =>
           destruct (Z.leb_spec a b); try arith; cbn [orb andb negb]
         end.

Lemma valid_utf8_enc2 r s :
  0x80 <= r <= 0x7FF →
  valid_utf8 (bytes [Z.lor 0xC0 (Z.shiftr r 6); Z.lor 0x80 (Z.land r 0x3F)]
              +:+ s)
  = valid_utf8 s.
Proof.
  intros Hr. unfold bytes. cbn [foldr].
  change (String ?a (String ?b "") +:+ s) with (String a (String b s)).
  cbn [valid_utf8]. cbv zeta.
  rewrite Z.shiftr_div_pow2 by lia. change 63 with (2 ^ 6 - 1).
  rewrite land_low by lia.
  rewrite (byte_val_lor 5 192) by arith.
  rewrite (byte_val_lor 6 128) by arith.
  unfold between. decide_tests; reflexivity.
Qed.

Lemma valid_utf8_enc3 r s :
  0x800 <= r <= 0xFFFF → ¬ (0xD800 <= r <= 0xDFFF) →
  valid_utf8 (utf8.enc3 r +:+ s) = valid_utf8 s.
Proof.
  intros Hr Hs. unfold utf8.enc3, bytes. cbn [foldr].
  change (String ?a (String ?b (String ?c "")) +:+ s)
    with (String a (String b (String c s))).
  cbn [valid_utf8]. cbv zeta.
  rewrite !Z.shiftr_div_pow2 by lia. change 63 with (2 ^ 6 - 1).
  rewrite !land_low by lia.
  rewrite (byte_val_lor 4 224) by arith.
  rewrite !(byte_val_lor 6 128) by arith.
  unfold between. decide_tests; reflexivity.
Qed.

Lemma valid_utf8_enc4 r s :
  0x10000 <= r <= 0x10FFFF →
  valid_utf8 (bytes [Z.lor 0xF0 (Z.shiftr r 18);
                     Z.lor 0x80 (Z.land (Z.shiftr r 12) 0x3F);
                     Z.lor 0x80 (Z.land (Z.shiftr r 6) 0x3F);
                     Z.lor 0x80 (Z.land r 0x3F)] +:+ s)
  = valid_utf8 s.
Proof.
  intros Hr. unfold bytes. cbn [foldr].
  change (String ?a (String ?b (String ?c (String ?d ""))) +:+ s)
    with (String a (String b (String c (String d s)))).
  cbn [valid_utf8]. cbv zeta.
  rewrite !Z.shiftr_div_pow2 by lia. change 63 with (2 ^ 6 - 1).
  rewrite !land_low by lia.
  rewrite (byte_val_lor 3 240) by arith.
  rewrite !(byte_val_lor 6 128) by arith.
  unfold between. decide_tests; reflexivity.
Qed.

(** Whatever the rune, [EncodeRune] writes well-formed UTF-8. *)
Lemma valid_utf8_EncodeRune r s :
  valid_utf8 (utf8.EncodeRune r +:+ s) = valid_utf8 s.
Proof.
  unfold utf8.EncodeRune, between, utf8.MaxRune, utf8.surrogateMin,
    utf8.surrogateMax.
  destruct (Z.leb_spec 0 r); cbn [andb orb];
    [destruct (Z.leb_spec r 127); cbn [andb orb] |].
  - unfold bytes. cbn [foldr].
    change (String ?a "" +:+ s) with (String a s). apply valid_utf8_ascii.
    rewrite byte_val_of; lia.
  - destruct (Z.leb_spec r 2047); [apply valid_utf8_enc2; lia|].
    destruct (Z.ltb_spec r 0); [lia|].
    destruct (Z.ltb_spec 1114111 r); cbn [andb orb];
      [apply valid_utf8_enc3; unfold utf8.RuneError; lia|].
    destruct (Z.leb_spec 55296 r); cbn [andb orb];
      [destruct (Z.leb_spec r 57343); cbn [andb orb];
       [apply valid_utf8_enc3; unfold utf8.RuneError; lia|] |].
    + destruct (Z.leb_spec r 65535);
        [apply valid_utf8_enc3; lia | apply valid_utf8_enc4; lia].
    + destruct (Z.leb_spec r 65535); [|lia]. apply valid_utf8_enc3; lia.
  - destruct (Z.ltb_spec r 0); [|lia]. cbn [orb].
    apply valid_utf8_enc3; unfold utf8.RuneError; lia.
Qed.

(** ** What the decoder stores is well formed *)

Lemma option_map_Some {A B} (f : A → B) (o : option A) (b : B) :
  option_map f o = Some b → ∃ a, o = Some a ∧ b = f a.
Proof. destruct o; [intros [= <-]; eauto | done]. Qed.

(** A string that [unquoteBytes] returns is well-formed UTF-8, whatever the
    bytes between the quotation marks were. *)
Lemma unquote_loop_valid fuel x s :
  json.unquote_loop fuel x = Some s → valid_utf8 s = true.
Proof.
  revert x s. induction fuel as [|fuel IH]; intros x s.
  { destruct x; cbn; [by intros [= <-]|done]. }
  destruct x as [|c r1]; [by intros [= <-]|]. cbn [json.unquote_loop].
  cbv zeta.
  assert (Hasc : ∀ c' y, byte_val c' < 128 →
            option_map (String c') (json.unquote_loop fuel y) = Some s →
            valid_utf8 s = true).
  { intros c' y Hc (s' & Hs' & ->)%option_map_Some.
    rewrite valid_utf8_ascii by done. by apply (IH y). }
  assert (Hrune : ∀ r y,
            option_map (String.append (utf8.EncodeRune r))
                       (json.unquote_loop fuel y) = Some s →
            valid_utf8 s = true).
  { intros r y (s' & Hs' & ->)%option_map_Some.
    rewrite valid_utf8_EncodeRune. by apply (IH y). }
  destruct (byte_eqb c "\") eqn:E1.
  - destruct r1 as [|e r2]; [done|].
    destruct (byte_eqb e DQ || byte_eqb e "\" || byte_eqb e "/"
              || byte_eqb e "'") eqn:E2.
    { apply Hasc. unfold byte_eqb in E2.
      repeat (apply orb_true_iff in E2 as [E2|E2]);
        apply Ascii.eqb_eq in E2; subst e; done. }
    repeat match goal with
           | |- (if ?b then _ else _) = Some _ → _ => destruct b eqn:?
           | |- option_map (String _) _ = Some _ → _ => apply Hasc; done
           | |- option_map (String.append _) _ = Some _ → _ => apply Hrune
           | |- None = Some _ → _ => done
           end.
  - destruct (byte_eqb c DQ || (byte_val c <? 32)); [done|].
    destruct (Z.ltb_spec (byte_val c) utf8.RuneSelf) as [H|H].
    + apply Hasc. exact H.
    + destruct (utf8.DecodeRune (String c r1)) as [rr size]. apply Hrune.
Qed.

Lemma unquoteBytes_valid x s :
  json.unquoteBytes x = Some s → valid_utf8 s = true.
Proof.
  unfold json.unquoteBytes. destruct x as [|q x]; [done|].
  destruct (byte_eqb q DQ); [|done].
  destruct (json.init_before_quote x) as [inner|]; [|done].
  apply unquote_loop_valid.
Qed.

Lemma digits_nonneg s acc un :
  0 <= acc → strconv.digits acc s = Some un → 0 <= un.
Proof.
  revert acc. induction s as [|c s IH]; intros acc Ha; cbn [strconv.digits].
  { intros [= <-]. done. }
  cbv zeta. destruct (between 48 57 (byte_val c)) eqn:E; [|done].
  apply IH. to_arith. lia.
Qed.

(** [ParseInt] returns integers of 64 bits only. *)
Lemma ParseInt_int64 s n : strconv.ParseInt s = Some n → int64 n = true.
Proof.
  unfold strconv.ParseInt, strconv.ParseUint. destruct s as [|c s1]; [done|].
  cbv zeta.
  set (s' := if byte_eqb c "+" || byte_eqb c "-" then s1 else String c s1).
  destruct s' as [|c' s'']; [done|].
  destruct (strconv.digits 0 (String c' s'')) as [un|] eqn:Hd; [|done].
  apply digits_nonneg in Hd; [|done].
  unfold int64.
  destruct (byte_eqb c "-"); cbn [negb andb];
    destruct (Z.leb_spec (2 ^ 63) un), (Z.ltb_spec (2 ^ 63) un);
    try done; intros [= <-]; apply andb_true_iff;
    split; (apply Z.leb_le || apply Z.ltb_lt); lia.
Qed.

(** The decoder's target: a name that is well-formed UTF-8 and a value of
    64 bits. *)
Lemma literalStore_sound item f d :
  valid_utf8 (Name (json.target d)) = true →
  int64 (Value (json.target d)) = true →
  valid_utf8 (Name (json.target (json.literalStore item f d))) = true
  ∧ int64 (Value (json.target (json.literalStore item f d))) = true.
Proof.
  intros Hn Hv.
  assert (Herr : ∀ e, valid_utf8 (Name (json.target (json.saveError e d))) = true
                      ∧ int64 (Value (json.target (json.saveError e d))) = true).
  { intros e. unfold json.saveError. by destruct (json.savedError d). }
  unfold json.literalStore. destruct item as [|c rest]; [done|].
  destruct (byte_eqb c "n"); [done|].
  destruct (byte_eqb c "t" || byte_eqb c "f"); [apply Herr|].
  destruct (byte_eqb c DQ).
  - destruct (json.unquoteBytes (String c rest)) as [s|] eqn:Hs; [|done].
    destruct f; [|apply Herr]. cbn. split; [|done].
    by apply (unquoteBytes_valid _ _ Hs).
  - destruct f; [apply Herr|].
    destruct (strconv.ParseInt (String c rest)) as [n|] eqn:Hp; [|apply Herr].
    cbn. split; [done|]. by apply (ParseInt_int64 _ _ Hp).
Qed.

Lemma member_sound d m :
  valid_utf8 (Name (json.target d)) = true →
  int64 (Value (json.target d)) = true →
  valid_utf8 (Name (json.target (json.member d m))) = true
  ∧ int64 (Value (json.target (json.member d m))) = true.
Proof.
  intros Hn Hv. unfold json.member.
  destruct (json.unquoteBytes m.1) as [key|]; [|done].
  destruct (json.lookup_field key) as [f|]; [|done].
  unfold json.value_field.
  destruct m.2; [by apply literalStore_sound|..];
    unfold json.saveError; by destruct (json.savedError d).
Qed.

Lemma fold_member_sound ms d :
  valid_utf8 (Name (json.target d)) = true →
  int64 (Value (json.target d)) = true →
  valid_utf8 (Name (json.target (fold_left json.member ms d))) = true
  ∧ int64 (Value (json.target (fold_left json.member ms d))) = true.
Proof.
  revert d. induction ms as [|m ms IH]; intros d Hn Hv; [done|].
  cbn [fold_left]. destruct (member_sound d m Hn Hv). by apply IH.
Qed.

(** Whatever the body, a decoded input has a name that is well-formed UTF-8
    and a value of 64 bits. *)
Lemma decoded_sound r input :
  decoded r = inr input →
  valid_utf8 (Name input) = true ∧ int64 (Value input) = true.
Proof.
  intros (b & Hb)%decoded_inr. revert Hb. unfold Decode_Body.
  assert (H : ∀ buf final e,
            json.Decode buf final zero = (input, e) →
            valid_utf8 (Name input) = true ∧ int64 (Value input) = true).
  { intros buf final e. unfold json.Decode.
    destruct (json.readValue buf final); [|by intros [= <- _]].
    unfold json.unmarshal.
    destruct (json.parse _) as [tree|]; [|by intros [= <- _]].
    cbv zeta. intros [= <- _]. unfold json.value.
    destruct tree as [item|es|ms].
    - destruct item as [|c ?]; [done|].
      repeat match goal with
             | |- context [if ?b then _ else _] => destruct b
             end; try done;
        unfold json.saveError; cbn; done.
    - done.
    - by apply fold_member_sound. }
  destruct (http.closed (http.Body r)); intros [= Hd _]; eauto.
Qed.

(** ** The encoder and the decoder of strings are inverse *)

Lemma valid_utf8_inv s :
  valid_utf8 s = true →
  s = ""
  ∨ (∃ c r, s = String c r ∧ byte_val c < 0x80 ∧ valid_utf8 r = true)
  ∨ (∃ c0 c1 r, s = String c0 (String c1 r)
       ∧ between 0xC2 0xDF (byte_val c0) = true
       ∧ between 0x80 0xBF (byte_val c1) = true
       ∧ valid_utf8 r = true)
  ∨ (∃ c0 c1 c2 r, s = String c0 (String c1 (String c2 r))
       ∧ between 0xE0 0xEF (byte_val c0) = true
       ∧ between (if byte_val c0 =? 0xE0 then 0xA0 else 0x80)
                 (if byte_val c0 =? 0xED then 0x9F else 0xBF)
                 (byte_val c1) = true
       ∧ between 0x80 0xBF (byte_val c2) = true
       ∧ valid_utf8 r = true)
  ∨ (∃ c0 c1 c2 c3 r, s = String c0 (String c1 (String c2 (String c3 r)))
       ∧ between 0xF0 0xF4 (byte_val c0) = true
       ∧ between (if byte_val c0 =? 0xF0 then 0x90 else 0x80)
                 (if byte_val c0 =? 0xF4 then 0x8F else 0xBF)
                 (byte_val c1) = true
       ∧ between 0x80 0xBF (byte_val c2) = true
       ∧ between 0x80 0xBF (byte_val c3) = true
       ∧ valid_utf8 r = true).
Proof.
  destruct s as [|c0 s1]; [by left|]. cbn [valid_utf8]. cbv zeta.
  destruct (Z.ltb_spec (byte_val c0) 128) as [H0|H0].
  { intros Hv. right. left. eauto. }
  destruct s1 as [|c1 s2]; [done|].
  destruct (between 194 223 (byte_val c0)) eqn:E2.
  { intros [H1 Hv]%andb_true_iff. right. right. left.
    exists c0, c1, s2. eauto. }
  destruct s2 as [|c2 s3]; [done|].
  destruct (between 224 239 (byte_val c0)) eqn:E3.
  { intros [[H1 H2]%andb_true_iff Hv]%andb_true_iff. right. right. right.
    left. exists c0, c1, c2, s3. eauto. }
  destruct s3 as [|c3 s4]; [done|].
  intros [[[[H1 H2]%andb_true_iff H3]%andb_true_iff H4]%andb_true_iff
            Hv]%andb_true_iff.
  right. right. right. right. exists c0, c1, c2, c3, s4. eauto 10.
Qed.

(** One round of [unquote_loop] on what [appendString] writes for a byte
    of ASCII that it escapes. *)
Lemma unquote_loop_escape c X fuel :
  (byte_val c <? 0x80) = true →
  json.htmlSafe (byte_val c) = false →
  json.unquote_loop (S fuel) (json.escape_byte c +:+ X)
  = option_map (String c) (json.unquote_loop fuel X).
Proof.
  destruct c as [[] [] [] [] [] [] [] []]; intros H1 H2;
    try (vm_compute in H1; discriminate);
    try (vm_compute in H2; discriminate); reflexivity.
Qed.

(** One round of [unquote_loop] on the bytes of a rune. *)
Lemma unquote_loop_rune fuel c rest r size :
  0x80 <= byte_val c →
  utf8.DecodeRune (String c rest) = (r, size) →
  json.unquote_loop (S fuel) (String c rest)
  = option_map (String.append (utf8.EncodeRune r))
               (json.unquote_loop fuel (skip size (String c rest))).
Proof.
  intros Hc Hd. cbn [json.unquote_loop]. cbv zeta. unfold byte_eqb.
  destruct (Ascii.eqb_spec c "\") as [->|_]; [vm_compute in Hc; done|].
  destruct (Ascii.eqb_spec c DQ) as [->|_]; [vm_compute in Hc; done|].
  unfold utf8.RuneSelf. cbn [orb].
  destruct (Z.ltb_spec (byte_val c) 32); [lia|].
  destruct (Z.ltb_spec (byte_val c) 128); [lia|].
  by rewrite Hd.
Qed.

(** One round of [appendString_loop] on the bytes of a rune other than the
    two line separators. *)
Lemma appendString_loop_rune fuel c rest r size :
  0x80 <= byte_val c →
  utf8.DecodeRune (String c rest) = (r, size) →
  size ≠ 1%nat → r ≠ 0x2028 → r ≠ 0x2029 →
  json.appendString_loop (S fuel) (String c rest)
  = json.take size (String c rest)
    +:+ json.appendString_loop fuel (skip size (String c rest)).
Proof.
  intros Hc Hd Hs H1 H2. cbn [json.appendString_loop]. cbv zeta.
  unfold utf8.RuneSelf. destruct (Z.ltb_spec (byte_val c) 128); [lia|].
  rewrite Hd.
  destruct (Nat.eqb_spec size 1); [done|]. rewrite andb_false_r.
  destruct (Z.eqb_spec r 8232); [done|].
  destruct (Z.eqb_spec r 8233); [done|]. reflexivity.
Qed.

Lemma htmlSafe_plain c :
  (byte_val c <? 0x80) = true → json.htmlSafe (byte_val c) = true →
  plain c = true.
Proof.
  destruct c as [[] [] [] [] [] [] [] []]; intros H1 H2;
    try (vm_compute in H1; discriminate);
    try (vm_compute in H2; discriminate); reflexivity.
Qed.

Lemma escape_byte_length c : (2 ≤ String.length (json.escape_byte c))%nat.
Proof. destruct c as [[] [] [] [] [] [] [] []]; vm_compute; lia. Qed.

Lemma appendString_loop_separator fuel c rest r size :
  0x80 <= byte_val c →
  utf8.DecodeRune (String c rest) = (r, size) →
  size ≠ 1%nat → r = 0x2028 ∨ r = 0x2029 →
  json.appendString_loop (S fuel) (String c rest)
  = "\u202" +:+ String (hex_digit (Z.land r 15)) ""
    +:+ json.appendString_loop fuel (skip size (String c rest)).
Proof.
  intros Hc Hd Hs Hr. cbn [json.appendString_loop]. cbv zeta.
  unfold utf8.RuneSelf. destruct (Z.ltb_spec (byte_val c) 128); [lia|].
  rewrite Hd.
  destruct (Nat.eqb_spec size 1); [done|]. rewrite andb_false_r.
  by destruct Hr as [-> | ->].
Qed.

Lemma unquote_loop_separator fuel r X :
  r = 0x2028 ∨ r = 0x2029 →
  json.unquote_loop (S fuel)
    ("\u202" +:+ String (hex_digit (Z.land r 15)) "" +:+ X)
  = option_map (String.append (utf8.EncodeRune r))
               (json.unquote_loop fuel X).
Proof. by intros [-> | ->]. Qed.

(** Decoding what the encoder writes for a well-formed string gives the
    string back. *)
Lemma unquote_appendString_loop n s fa fu :
  (String.length s ≤ n)%nat → (String.length s ≤ fa)%nat →
  (String.length (json.appendString_loop fa s) ≤ fu)%nat →
  valid_utf8 s = true →
  json.unquote_loop fu (json.appendString_loop fa s) = Some s.
Proof.
  revert s fa fu. induction n as [|n IH]; intros s fa fu Hn Hfa Hfu Hv.
  { destruct s; [|cbn in Hn; lia]. by destruct fa, fu. }
  destruct (valid_utf8_inv s Hv)
    as [->|[(c & r & -> & Hc & Hr)
          |[(c0 & c1 & r & -> & H0 & H1 & Hr)
           |[(c0 & c1 & c2 & r & -> & H0 & H1 & H2 & Hr)
            |(c0 & c1 & c2 & c3 & r & -> & H0 & H1 & H2 & H3 & Hr)]]]].
  - by destruct fa, fu.
  - destruct fa as [|fa]; cbn [String.length] in Hn, Hfa; [lia|].
    revert Hfu. cbn [json.appendString_loop]. cbv zeta. unfold utf8.RuneSelf.
    destruct (Z.ltb_spec (byte_val c) 128) as [_|?]; [|lia].
    assert (Hb : (byte_val c <? 128) = true) by (apply Z.ltb_lt; lia).
    destruct (json.htmlSafe (byte_val c)) eqn:Hs.
    + destruct fu as [|fu]; cbn [String.length]; [lia|]. intros Hfu.
      destruct (plain_not_special c (htmlSafe_plain c Hb Hs))
        as (E1 & E2 & E3 & E4).
      cbn [json.unquote_loop]. cbv zeta. rewrite E1, E2, E3, E4. cbn [orb].
      rewrite (IH r fa fu) by (done || lia). reflexivity.
    + rewrite length_append. pose proof (escape_byte_length c) as Hl.
      destruct fu as [|fu]; [lia|]. intros Hfu.
      rewrite (unquote_loop_escape c _ fu Hb Hs).
      rewrite (IH r fa fu) by (done || lia). reflexivity.
  - destruct fa as [|fa]; cbn [String.length] in Hn, Hfa; [lia|].
    pose proof (DecodeRune2 c0 c1 r H0 H1) as Hd.
    revert Hfu.
    rewrite (appendString_loop_rune fa c0 _ _ _ ltac:(to_arith; lia) Hd)
      by (to_arith; lia).
    cbn [json.take skip]. change (String c0 (String c1 "") +:+ ?x)
      with (String c0 (String c1 x)).
    destruct fu as [|fu]; cbn [String.length]; [lia|]. intros Hfu.
    rewrite (unquote_loop_rune fu c0 _ _ _ ltac:(to_arith; lia)
               (DecodeRune2 c0 c1 _ H0 H1)).
    cbn [skip]. rewrite (IH r fa fu) by (done || lia).
    cbn [option_map]. by rewrite (EncodeRune2 c0 c1 H0 H1).
  - destruct fa as [|fa]; cbn [String.length] in Hn, Hfa; [lia|].
    pose proof (DecodeRune3 c0 c1 c2 r H0 H1 H2) as Hd.
    pose proof (EncodeRune3 c0 c1 c2 H0 H1 H2) as He.
    set (x := (byte_val c0 - 224) * 4096 + (byte_val c1 - 128) * 64
              + (byte_val c2 - 128)) in *.
    assert (Hc0 : 128 <= byte_val c0) by (to_arith; lia).
    revert Hfu.
    destruct (Z.eq_dec x 8232) as [E|N1];
      [|destruct (Z.eq_dec x 8233) as [E|N2]].
    1,2: rewrite (appendString_loop_separator fa c0 _ _ _ Hc0 Hd)
           by (done || lia || auto);
         cbn [skip]; rewrite !length_append;
         destruct fu as [|fu]; (cbn [String.length]; try lia); intros Hfu;
         rewrite (unquote_loop_separator fu x) by auto;
         rewrite (IH r fa fu) by (done || lia);
         cbn [option_map]; by rewrite He.
    rewrite (appendString_loop_rune fa c0 _ _ _ Hc0 Hd) by done.
    cbn [json.take skip]. change (String c0 (String c1 (String c2 "")) +:+ ?y)
      with (String c0 (String c1 (String c2 y))).
    destruct fu as [|fu]; cbn [String.length]; [lia|]. intros Hfu.
    rewrite (unquote_loop_rune fu c0 _ _ _ Hc0
               (DecodeRune3 c0 c1 c2 _ H0 H1 H2)).
    cbn [skip]. rewrite (IH r fa fu) by (done || lia).
    cbn [option_map]. fold x. by rewrite He.
  - destruct fa as [|fa]; cbn [String.length] in Hn, Hfa; [lia|].
    pose proof (DecodeRune4 c0 c1 c2 c3 r H0 H1 H2 H3) as Hd.
    pose proof (EncodeRune4 c0 c1 c2 c3 H0 H1 H2 H3) as He.
    assert (Hc0 : 128 <= byte_val c0) by (to_arith; lia).
    assert (Hx : 65536 <= (byte_val c0 - 240) * 262144
                          + (byte_val c1 - 128) * 4096
                          + (byte_val c2 - 128) * 64 + (byte_val c3 - 128)).
    { revert H1. destruct (Z.eqb_spec (byte_val c0) 240) as [E|N];
        intros H1; to_arith; lia. }
    revert Hfu.
    rewrite (appendString_loop_rune fa c0 _ _ _ Hc0 Hd) by (done || lia).
    cbn [json.take skip].
    change (String c0 (String c1 (String c2 (String c3 ""))) +:+ ?y)
      with (String c0 (String c1 (String c2 (String c3 y)))).
    destruct fu as [|fu]; cbn [String.length]; [lia|]. intros Hfu.
    rewrite (unquote_loop_rune fu c0 _ _ _ Hc0
               (DecodeRune4 c0 c1 c2 c3 _ H0 H1 H2 H3)).
    cbn [skip]. rewrite (IH r fa fu) by (done || lia).
    cbn [option_map]. by rewrite He.
Qed.

Lemma init_before_quote_app x :
  json.init_before_quote (x +:+ String DQ "") = Some x.
Proof.
  induction x as [|c x IH]; [done|].
  change (String c x +:+ ?y) with (String c (x +:+ y)).
  destruct x as [|c' x]; [reflexivity|].
  change (String c' x +:+ ?y) with (String c' (x +:+ y)) in *.
  cbn [json.init_before_quote] in *. by rewrite IH.
Qed.

(** [unquoteBytes] undoes [appendString] on well-formed UTF-8. *)
Lemma unquoteBytes_appendString s :
  valid_utf8 s = true →
  json.unquoteBytes (json.appendString s) = Some s.
Proof.
  intros Hs. unfold json.unquoteBytes, json.appendString.
  change (byte_eqb DQ DQ) with true. cbn iota.
  rewrite init_before_quote_app.
  by apply (unquote_appendString_loop (String.length s)).
Qed.

(** ** The response, read as JSON *)

Lemma continues_in_string e ps er a :
  all_bytes in_string a = true →
  continues (scanner.mk scanner.InString e ps er) a
  = Some (scanner.mk scanner.InString e ps er).
Proof.
  induction a as [|c a IH]; [done|]. cbn [all_bytes continues].
  intros [Hc Ha]%andb_true_iff. rewrite (step_in_string _ _ _ _ Hc).
  by apply IH.
Qed.

Lemma continues_escape_byte e ps er c :
  (byte_val c <? utf8.RuneSelf) = true →
  continues (scanner.mk scanner.InString e ps er) (json.escape_byte c)
  = Some (scanner.mk scanner.InString e ps er).
Proof.
  destruct c as [[] [] [] [] [] [] [] []]; vm_compute; congruence.
Qed.

(** Inside a string literal every byte that [appendString] writes
    continues the literal. *)
Lemma continues_appendString_loop e ps er fuel src :
  continues (scanner.mk scanner.InString e ps er)
            (json.appendString_loop fuel src)
  = Some (scanner.mk scanner.InString e ps er).
Proof.
  revert src. induction fuel as [|fuel IH]; intros [|c rest]; try done.
  cbn [json.appendString_loop].
  destruct (byte_val c <? utf8.RuneSelf) eqn:Hb.
  - destruct (json.htmlSafe (byte_val c)) eqn:Hs.
    + cbn [continues].
      rewrite (step_in_string _ _ _ _ (htmlSafe_in_string c Hs)). apply IH.
    + rewrite continues_app, (continues_escape_byte _ _ _ _ Hb). apply IH.
  - assert (Hc : high c = true).
    { apply Z.leb_le. apply Z.ltb_ge in Hb. exact Hb. }
    pose proof (DecodeRune_high c rest Hc) as Hh.
    destruct (utf8.DecodeRune (String c rest)) as [r size]. cbn [snd] in Hh.
    destruct (_ && _).
    { rewrite continues_app.
      change (continues (scanner.mk scanner.InString e ps er) "\ufffd")
        with (Some (scanner.mk scanner.InString e ps er)).
      apply IH. }
    destruct (_ || _) eqn:Er.
    + rewrite !continues_app.
      apply orb_true_iff in Er as [->%Z.eqb_eq | ->%Z.eqb_eq];
        (etransitivity; [|apply (IH (skip size (String c rest)))]);
        reflexivity.
    + rewrite continues_app, continues_in_string; [apply IH|].
      exact (all_bytes_impl high in_string _ high_in_string Hh).
Qed.

(** What [appendString] writes is one literal for the scanner. *)
Lemma is_item_appendString src : is_item (json.appendString src).
Proof.
  exists DQ,
    (json.appendString_loop (String.length src) src +:+ String DQ ""),
    (in_value scanner.InString), scanner.EndValue.
  split; [done|]. split; [done|]. split; [|done].
  unfold in_value. by rewrite continues_app, continues_appendString_loop.
Qed.

Lemma walk_bytes_members_then ms m f0 done t :
  f0 = scanner.BeginString ∨ f0 = scanner.BeginStringOrEmpty →
  flat (m :: ms) →
  json.walk_bytes
    (json.mkWalk (in_key f0) None [json.InObject done None] None)
    (members_text (m :: ms) +:+ String "}" t)
  = json.walk_bytes
      (json.mkWalk (scanner.mk scanner.EndTop true [] None) None []
         (Some (json.Object (done ++ map as_member (m :: ms))))) t.
Proof.
  revert m f0 done. induction ms as [|m' ms IH]; intros m f0 done Hf0 Hms.
  - apply Forall_cons in Hms as [[Hk Hi] _]. cbn [members_text].
    destruct (walk_bytes_member m (String "}" t) f0 done [] None Hf0 Hk Hi)
      as (f & Hf & ->).
    cbn [json.walk_bytes]. unfold json.walk_byte at 1. cbn [json.scan].
    by rewrite (end_item_brace f Hf).
  - apply Forall_cons in Hms as [[Hk Hi] Hms].
    change (members_text (m :: m' :: ms))
      with (member_text m +:+ "," +:+ members_text (m' :: ms)).
    rewrite !append_assoc.
    destruct (walk_bytes_member m
                ("," +:+ members_text (m' :: ms) +:+ String "}" t)
                f0 done [] None Hf0 Hk Hi) as (f & Hf & ->).
    change ("," +:+ ?x) with (String "," x). cbn [json.walk_bytes].
    unfold json.walk_byte at 1. cbn [json.scan].
    rewrite (end_item_comma f Hf).
    cbn [json.literal json.stack json.top json.flush json.put json.scan].
    rewrite (IH m' _ _ (or_introl eq_refl) Hms).
    by rewrite <- app_assoc.
Qed.

(** An object without nesting, followed by a newline, is parsed into its
    members. *)
Lemma parse_object_line m ms :
  flat (m :: ms) →
  json.parse (object_text (m :: ms) +:+ LF)
  = Some (json.Object (map as_member (m :: ms))).
Proof.
  intros Hms. unfold json.parse, object_text. rewrite !append_assoc.
  change ("{" +:+ ?x) with (String "{" x). cbn [json.walk_bytes].
  unfold json.walk_byte at 1. cbn [json.scan].
  change (scanner.step scanner.reset "{")
    with (in_key scanner.BeginStringOrEmpty, scanner.scanBeginObject).
  cbn [json.literal json.stack json.top json.open json.scan].
  change ("}" +:+ LF) with (String "}" LF). unfold json.open.
  cbn [json.literal json.stack json.top json.scan].
  by rewrite (walk_bytes_members_then ms m _ [] LF (or_intror eq_refl) Hms).
Qed.

Lemma Marshal_object_text v : json.Marshal v = object_text (marshalled v).
Proof.
  unfold json.Marshal, object_text, marshalled.
  cbn [members_text]. unfold member_text. cbn [fst snd].
  rewrite !append_assoc. reflexivity.
Qed.

Lemma flat_marshalled v : flat (marshalled v).
Proof.
  unfold flat, marshalled.
  repeat (constructor; [cbn [fst snd]; split; [reflexivity|]|]);
    try apply is_item_appendString; [|constructor].
  exact (is_item_text "" (Int (ReceivedValue v)) eq_refl).
Qed.

(** The body of a 200 response, read as JSON, is an object of four
    members. *)
Lemma parse_Marshal_line v :
  json.parse (json.Marshal v +:+ LF)
  = Some (json.Object (map as_member (marshalled v))).
Proof.
  rewrite Marshal_object_text. apply parse_object_line, flat_marshalled.
Qed.

(** Reading back the three strings and the integer of a response whose
    strings are well-formed UTF-8. *)
Lemma read_Marshal v :
  let body := json.Marshal v +:+ LF in
  (valid_utf8 (Message v) = true →
   string_member "message" body = Some (Message v)) ∧
  (valid_utf8 (ReceivedName v) = true →
   string_member "received_name" body = Some (ReceivedName v)) ∧
  (int64 (ReceivedValue v) = true →
   int_member "received_value" body = Some (ReceivedValue v)) ∧
  (valid_utf8 (SecretFromEnv v) = true →
   string_member "secret_from_env" body = Some (SecretFromEnv v)).
Proof.
  cbv zeta. unfold string_member, int_member, member_literal.
  rewrite parse_Marshal_line.
  repeat split; intros H.
  - by apply unquoteBytes_appendString.
  - by apply unquoteBytes_appendString.
  - change (strconv.ParseInt (strconv.Itoa (ReceivedValue v))
            = Some (ReceivedValue v)).
    by rewrite ParseInt_Itoa, H.
  - by apply unquoteBytes_appendString.
Qed.

Lemma valid_utf8_app a b :
  valid_utf8 a = true → valid_utf8 b = true → valid_utf8 (a +:+ b) = true.
Proof.
  intros Ha Hb. remember (String.length a) as n eqn:Hn.
  revert a Ha Hn. induction n as [n IH] using lt_wf_ind. intros a Ha ->.
  destruct (valid_utf8_inv a Ha)
    as [->|[(c & r & -> & Hc & Hr)
          |[(c0 & c1 & r & -> & H0 & H1 & Hr)
           |[(c0 & c1 & c2 & r & -> & H0 & H1 & H2 & Hr)
            |(c0 & c1 & c2 & c3 & r & -> & H0 & H1 & H2 & H3 & Hr)]]]].
  - exact Hb.
  - change (String c r +:+ b) with (String c (r +:+ b)).
    rewrite valid_utf8_ascii by done.
    apply (IH (String.length r)); [cbn; lia|done..].
  - assert (IHr : valid_utf8 (r +:+ b) = true)
      by (apply (IH (String.length r)); [cbn; lia|done..]).
    change (String c0 (String c1 r) +:+ b) with (String c0 (String c1 (r +:+ b))).
    cbn [valid_utf8]. cbv zeta. rewrite H0, H1, IHr.
    destruct (Z.ltb_spec (byte_val c0) 128); [to_arith; lia|done].
  - assert (IHr : valid_utf8 (r +:+ b) = true)
      by (apply (IH (String.length r)); [cbn; lia|done..]).
    change (String c0 (String c1 (String c2 r)) +:+ b)
      with (String c0 (String c1 (String c2 (r +:+ b)))).
    cbn [valid_utf8]. cbv zeta. rewrite H0, H1, H2, IHr.
    destruct (Z.ltb_spec (byte_val c0) 128); [to_arith; lia|].
    destruct (between 194 223 (byte_val c0)) eqn:E; [to_arith; lia|done].
  - assert (IHr : valid_utf8 (r +:+ b) = true)
      by (apply (IH (String.length r)); [cbn; lia|done..]).
    change (String c0 (String c1 (String c2 (String c3 r))) +:+ b)
      with (String c0 (String c1 (String c2 (String c3 (r +:+ b))))).
    cbn [valid_utf8]. cbv zeta. rewrite H0, H1, H2, H3, IHr.
    destruct (Z.ltb_spec (byte_val c0) 128); [to_arith; lia|].
    destruct (between 194 223 (byte_val c0)) eqn:E; [to_arith; lia|].
    destruct (between 224 239 (byte_val c0)) eqn:E'; [to_arith; lia|done].
Qed.

(** The response to a decoded request, read as JSON. *)
Lemma read_response r p input :
  http.Method r = http.MethodPost →
  decoded r = inr input →
  let body := http.ResponseBody (response (handle processHandler r p)) in
  string_member "message" body
  = Some ("Successfully processed input for " +:+ Name input +:+ ".")
  ∧ string_member "received_name" body = Some (Name input)
  ∧ int_member "received_value" body = Some (Value input)
  ∧ (valid_utf8 (secret_in (environ p)) = true →
     string_member "secret_from_env" body = Some (secret_in (environ p))).
Proof.
  intros Hm Hd body. subst body. rewrite (handle_ok _ _ _ Hm Hd).
  cbn [response http.ResponseBody].
  destruct (decoded_sound r input Hd) as [Hn Hv].
  destruct (read_Marshal (response_for input (secret_in (environ p))))
    as (H1 & H2 & H3 & H4).
  cbn [response_for Message ReceivedName ReceivedValue SecretFromEnv] in *.
  split; [|by auto].
  apply H1. apply (valid_utf8_app "Successfully processed input for ");
    [reflexivity|]. by apply valid_utf8_app.
Qed.

(** * The claims about the content of the response *)

(** C1.  A POST request to [/process] whose body decodes into a
    [ProcessInput] is answered with status 200, content type
    [application/json] and a JSON document: read as JSON, the body is an
    object whose [message] is "Successfully processed input for <name>.",
    whose [received_name] is the decoded name and whose [received_value]
    is the decoded value.  This holds for every decoded input: the decoder
    stores well-formed UTF-8 and integers of 64 bits only, and on those the
    encoder and the decoder are inverse. *)
Theorem C1_process_echoes_input (r : http.Request) (p : process)
    (input : ProcessInput) :
  http.Method r = http.MethodPost →
  decoded r = inr input →
  let resp := response (handle processHandler r p) in
  http.StatusCode resp = http.StatusOK ∧
  ContentType resp = "application/json" ∧
  json.Valid (http.ResponseBody resp) = true ∧
  string_member "message" (http.ResponseBody resp)
  = Some ("Successfully processed input for " +:+ Name input +:+ ".") ∧
  string_member "received_name" (http.ResponseBody resp) = Some (Name input) ∧
  int_member "received_value" (http.ResponseBody resp) = Some (Value input).
Proof.
  intros Hm Hd resp. subst resp.
  destruct (read_response r p input Hm Hd) as (H1 & H2 & H3 & _).
  split; [by rewrite (handle_ok _ _ _ Hm Hd)|].
  split; [by rewrite (handle_ok _ _ _ Hm Hd)|].
  split; [|done].
  rewrite (handle_ok _ _ _ Hm Hd). apply Valid_Marshal.
Qed.

Lemma C1_witness :
  http.Method (POST sample_body) = http.MethodPost ∧
  decoded (POST sample_body) = inr sample_input ∧
  let resp := response (handle processHandler (POST sample_body) env_hunter2) in
  http.StatusCode resp = http.StatusOK ∧
  ContentType resp = "application/json" ∧
  json.Valid (http.ResponseBody resp) = true ∧
  string_member "message" (http.ResponseBody resp)
  = Some ("Successfully processed input for " +:+ Name sample_input +:+ ".") ∧
  string_member "received_name" (http.ResponseBody resp)
  = Some (Name sample_input) ∧
  int_member "received_value" (http.ResponseBody resp)
  = Some (Value sample_input).
Proof.
  split; [reflexivity|]. split; [vm_compute; reflexivity|].
  apply (C1_process_echoes_input (POST sample_body) env_hunter2 sample_input);
    [reflexivity | vm_compute; reflexivity].
Defined.

(** C4, as the specification states it, fails: [API_SECRET_MESSAGE] may hold
    any bytes, and the JSON encoder writes U+FFFD for every byte that is
    not part of well-formed UTF-8.  With the variable set to the single
    byte 0xFF the response carries the escape [\ufffd]; read as JSON, its
    [secret_from_env] is the three bytes of U+FFFD, not the value of the
    variable. *)
Lemma C4_counterexample :
  let X := String "255" "" in
  let p := mkProcess (<["API_SECRET_MESSAGE" := X]> ∅) [] in
  let body :=
    http.ResponseBody (response (handle processHandler (POST sample_body) p)) in
  decoded (POST sample_body) = inr sample_input ∧
  environ p !! "API_SECRET_MESSAGE" = Some X ∧
  X ≠ "" ∧
  body = js ("{'message':'Successfully processed input for test.',"
               +:+ "'received_name':'test','received_value':42,"
               +:+ "'secret_from_env':'\ufffd'}") +:+ LF ∧
  string_member "secret_from_env" body = Some (bytes [0xEF; 0xBF; 0xBD]) ∧
  string_member "secret_from_env" body ≠ Some X.
Proof.
  cbv zeta. split; [vm_compute; reflexivity|]. split; [vm_compute; reflexivity|].
  split; [discriminate|]. split; [vm_compute; reflexivity|].
  split; [vm_compute; reflexivity | vm_compute; discriminate].
Qed.

(** C4, amended.  For a successfully decoded request the body is the
    encoding of the response whose secret is the fallback
    "Default secret (env var not set)" when [API_SECRET_MESSAGE] is unset
    or empty, and the value of the variable otherwise.  Read as JSON, the
    field [secret_from_env] is the fallback in the first case, and in the
    second it is the value X of the variable whenever X is well-formed
    UTF-8. *)
Theorem C4_secret_from_env (r : http.Request) (p : process)
    (input : ProcessInput) :
  http.Method r = http.MethodPost →
  decoded r = inr input →
  let body := http.ResponseBody (response (handle processHandler r p)) in
  (environ p !! "API_SECRET_MESSAGE" = None
   ∨ environ p !! "API_SECRET_MESSAGE" = Some "" →
   string_member "secret_from_env" body
   = Some "Default secret (env var not set)") ∧
  (∀ X : string,
     environ p !! "API_SECRET_MESSAGE" = Some X → X ≠ "" →
     valid_utf8 X = true →
     string_member "secret_from_env" body = Some X) ∧
  ∃ secret : string,
    body
    = json.Marshal {|
        Message := "Successfully processed input for " +:+ Name input +:+ ".";
        ReceivedName := Name input;
        ReceivedValue := Value input;
        SecretFromEnv := secret
      |} +:+ LF ∧
    (environ p !! "API_SECRET_MESSAGE" = None
     ∨ environ p !! "API_SECRET_MESSAGE" = Some "" →
     secret = "Default secret (env var not set)") ∧
    (∀ X : string,
       environ p !! "API_SECRET_MESSAGE" = Some X → X ≠ "" → secret = X).
Proof.
  intros Hm Hd body. subst body.
  destruct (read_response r p input Hm Hd) as (_ & _ & _ & Hs).
  assert (Hunset : environ p !! "API_SECRET_MESSAGE" = None
                   ∨ environ p !! "API_SECRET_MESSAGE" = Some "" →
                   secret_in (environ p) = "Default secret (env var not set)").
  { unfold secret_in. by intros [-> | ->]. }
  assert (Hset : ∀ X, environ p !! "API_SECRET_MESSAGE" = Some X → X ≠ "" →
                      secret_in (environ p) = X).
  { intros X HX Hne. unfold secret_in. rewrite HX. cbn.
    by destruct (String.eqb_spec X ""). }
  split; [|split].
  - intros H. rewrite <- (Hunset H). apply Hs. by rewrite (Hunset H).
  - intros X HX Hne Hv. rewrite <- (Hset X HX Hne). apply Hs.
    by rewrite (Hset X HX Hne).
  - exists (secret_in (environ p)).
    split; [by rewrite (handle_ok _ _ _ Hm Hd)|]. by split.
Qed.

Lemma C4_witness :
  http.Method (POST sample_body) = http.MethodPost ∧
  decoded (POST sample_body) = inr sample_input ∧
  environ env_hunter2 !! "API_SECRET_MESSAGE" = Some "hunter2" ∧
  valid_utf8 "hunter2" = true ∧
  string_member "secret_from_env"
    (http.ResponseBody
       (response (handle processHandler (POST sample_body) env_hunter2)))
  = Some "hunter2".
Proof.
  split; [reflexivity|]. split; [vm_compute; reflexivity|].
  split; [reflexivity|]. split; [reflexivity|].
  destruct (C4_secret_from_env (POST sample_body) env_hunter2 sample_input)
    as (_ & Hset & _); [reflexivity | vm_compute; reflexivity |].
  apply Hset; [reflexivity | discriminate | reflexivity].
Defined.

(** C7, as the specification states it, fails: start the process with
    [API_SECRET_MESSAGE=A] and no [.env] file, and let the environment
    change to [API_SECRET_MESSAGE=B] before a request arrives.  The response
    carries B, the value at the time of the request, not A, the value at
    start-up: the handler calls [os.Getenv] on every request. *)
Lemma C7_counterexample :
  let started :=
    (main (inl (os_PathError "open .env: no such file or directory"))
          (mkProcess (<["API_SECRET_MESSAGE" := "A"]> ∅) [])).2 in
  let changed := (os.Setenv "API_SECRET_MESSAGE" "B" started).2 in
  let body :=
    http.ResponseBody
      (response (handle processHandler (POST sample_body) changed)) in
  environ started !! "API_SECRET_MESSAGE" = Some "A" ∧
  body = js ("{'message':'Successfully processed input for test.',"
               +:+ "'received_name':'test','received_value':42,"
               +:+ "'secret_from_env':'B'}") +:+ LF ∧
  string_member "secret_from_env" body = Some "B" ∧
  string_member "secret_from_env" body ≠ Some "A".
Proof.
  cbv zeta. split; [vm_compute; reflexivity|].
  split; [vm_compute; reflexivity|].
  split; [vm_compute; reflexivity | vm_compute; discriminate].
Qed.

(** C7, amended.  [secret_from_env] does not keep the value that
    [API_SECRET_MESSAGE] had at start-up: read from the response as JSON, it
    is the value the variable has in the environment of the process when
    the request is handled (or the fallback, if that value is empty),
    provided it is well-formed UTF-8.  No other variable plays a part in a
    response: two processes that agree on [API_SECRET_MESSAGE] give the
    same responses, whatever [APP_PORT], [ANOTHER_CONFIG_VALUE] or any other
    variable hold.  The address [main] listens on is the port that the
    environment gives when start-up is over.  Neither handler changes the
    environment: after start-up and any number of requests it is as
    start-up left it, and so is [secret_from_env], as long as nothing else
    changes the environment. *)
Theorem C7_secret_read_per_request (file : error + gmap string string)
    (p0 : process) (prior : list (pattern * http.Request))
    (r : http.Request) (input : ProcessInput) :
  http.Method r = http.MethodPost →
  decoded r = inr input →
  let resolve (v : string) :=
    if String.eqb v "" then "Default secret (env var not set)" else v in
  let secret_of (p : process) :=
    string_member "secret_from_env"
      (http.ResponseBody (response (handle processHandler r p))) in
  (∀ p : process,
     valid_utf8 (resolve (os.Getenv "API_SECRET_MESSAGE" p).1) = true →
     secret_of p = Some (resolve (os.Getenv "API_SECRET_MESSAGE" p).1)) ∧
  (∀ (pat : pattern) (r' : http.Request) (p q : process),
     environ p !! "API_SECRET_MESSAGE" = environ q !! "API_SECRET_MESSAGE" →
     response (handle (DefaultServeMux pat) r' p)
     = response (handle (DefaultServeMux pat) r' q)) ∧
  let started := (main file p0).2 in
  let now := (serve prior started).2 in
  (main file p0).1 = ":" +:+ port_in (environ started) ∧
  environ now = environ started ∧
  (valid_utf8 (resolve (os.Getenv "API_SECRET_MESSAGE" started).1) = true →
   secret_of now = Some (resolve (os.Getenv "API_SECRET_MESSAGE" started).1)).
Proof.
  intros Hm Hd resolve secret_of.
  assert (Hat : ∀ p : process,
            valid_utf8 (resolve (os.Getenv "API_SECRET_MESSAGE" p).1) = true →
            secret_of p = Some (resolve (os.Getenv "API_SECRET_MESSAGE" p).1)).
  { intros p Hv. destruct (read_response r p input Hm Hd) as (_ & _ & _ & Hs).
    exact (Hs Hv). }
  split; [exact Hat|]. split.
  { intros pat r' p q He. destruct pat; [reflexivity|]. cbn [DefaultServeMux].
    destruct (String.eqb_spec (http.Method r') http.MethodPost) as [Hm'|Hm'].
    - destruct (decoded r') as [e|input'] eqn:Hd'.
      + by rewrite !(handle_error _ _ _ Hm' Hd').
      + rewrite !(handle_ok _ _ _ Hm' Hd'). unfold secret_in. by rewrite He.
    - by rewrite !(handle_method _ _ Hm'). }
  intros started now.
  assert (He : environ now = environ started) by apply serve_environ.
  split; [subst started; by rewrite main_run|].
  split; [exact He|]. intros Hv.
  assert (Hg : (os.Getenv "API_SECRET_MESSAGE" now).1
               = (os.Getenv "API_SECRET_MESSAGE" started).1)
    by (unfold os.Getenv; cbn [fst]; by rewrite He).
  rewrite <- Hg. apply Hat. by rewrite Hg.
Qed.

Lemma C7_witness :
  http.Method (POST sample_body) = http.MethodPost ∧
  decoded (POST sample_body) = inr sample_input ∧
  let started :=
    (main (inl (os_PathError "open .env: no such file or directory"))
          env_hunter2).2 in
  let now := (serve [(health, GET); (process_, POST "not json")] started).2 in
  environ now = environ started ∧
  string_member "secret_from_env"
    (http.ResponseBody (response (handle processHandler (POST sample_body) now)))
  = Some "hunter2".
Proof.
  split; [reflexivity|]. split; [vm_compute; reflexivity|].
  destruct (C7_secret_read_per_request
              (inl (os_PathError "open .env: no such file or directory"))
              env_hunter2 [(health, GET); (process_, POST "not json")]
              (POST sample_body) sample_input)
    as (_ & _ & _ & He & Hs); [reflexivity | vm_compute; reflexivity |].
  split; [exact He|]. apply Hs. reflexivity.
Defined.

(** * Further properties, continued *)

(** X7.  A variable that the environment lacks is taken from the [.env]
    file, if [os.Setenv] accepts it; so the port and the secret of the
    responses can both come from the file: a non-empty [APP_PORT] of the
    file is the port, and a non-empty [API_SECRET_MESSAGE] of the file that
    is well-formed UTF-8 is the [secret_from_env] of every response to a
    decoded request, read as JSON. *)
Theorem main_takes_from_dotenv (m : gmap string string) (p : process)
    (k v : string) :
  environ p !! k = None →
  m !! k = Some v →
  settable k v = true →
  environ (main (inr m) p).2 !! k = Some v ∧
  (k = "APP_PORT" → v ≠ "" → (main (inr m) p).1 = ":" +:+ v) ∧
  (k = "API_SECRET_MESSAGE" → v ≠ "" → valid_utf8 v = true →
   ∀ r input,
     http.Method r = http.MethodPost → decoded r = inr input →
     string_member "secret_from_env"
       (http.ResponseBody
          (response (handle processHandler r (main (inr m) p).2)))
     = Some v).
Proof.
  intros Hk Hm Hs.
  assert (Hl : environ (main (inr m) p).2 !! k = Some v).
  { rewrite main_run. cbn [fst snd environ].
    by rewrite Load_lookup, Hk, Hm, Hs. }
  split; [exact Hl|]. split.
  - intros -> Hv. rewrite main_run. cbn [fst snd]. rewrite main_run in Hl.
    cbn [snd environ] in Hl. unfold port_in. rewrite Hl. cbn.
    by destruct (String.eqb_spec v "").
  - intros -> Hv Hu r input Hr Hd.
    destruct (read_response r (main (inr m) p).2 input Hr Hd)
      as (_ & _ & _ & H).
    assert (E : secret_in (environ (main (inr m) p).2) = v).
    { unfold secret_in. rewrite Hl. cbn. by destruct (String.eqb_spec v ""). }
    rewrite E in H. by apply H.
Qed.

Lemma main_takes_from_dotenv_witness :
  environ (mkProcess ∅ []) !! "API_SECRET_MESSAGE" = None ∧
  (<["API_SECRET_MESSAGE" := "s3cret"]> (∅ : gmap string string))
    !! "API_SECRET_MESSAGE" = Some "s3cret" ∧
  settable "API_SECRET_MESSAGE" "s3cret" = true ∧
  decoded (POST sample_body) = inr sample_input ∧
  string_member "secret_from_env"
    (http.ResponseBody
       (response
          (handle processHandler (POST sample_body)
             (main (inr (<["API_SECRET_MESSAGE" := "s3cret"]> ∅))
                   (mkProcess ∅ [])).2)))
  = Some "s3cret".
Proof.
  split; [reflexivity|]. split; [reflexivity|]. split; [reflexivity|].
  split; [vm_compute; reflexivity|].
  destruct (main_takes_from_dotenv
              (<["API_SECRET_MESSAGE" := "s3cret"]> ∅) (mkProcess ∅ [])
              "API_SECRET_MESSAGE" "s3cret")
    as (_ & _ & H); [reflexivity | reflexivity | reflexivity |].
  apply (H eq_refl ltac:(discriminate) eq_refl (POST sample_body)
           sample_input); [reflexivity | vm_compute; reflexivity].
Defined.

Lemma same_letter_toUpper c d :
  same_letter c d = true → json.toUpper c = json.toUpper d.
Proof.
  unfold same_letter. cbv zeta.
  intros [[H|H]%orb_true_iff|H]%orb_true_iff.
  - apply Z.eqb_eq in H. f_equal.
    by rewrite <- (byte_of_val c), <- (byte_of_val d), H.
  - apply andb_true_iff in H as [Hc Hd]. apply Z.eqb_eq in Hd.
    unfold json.toUpper. cbv zeta. rewrite Hc, Hd.
    destruct (between 97 122 (byte_val c - 32)) eqn:E; [to_arith; lia|].
    by rewrite <- Hd, byte_of_val.
  - apply andb_true_iff in H as [Hd Hc]. apply Z.eqb_eq in Hc.
    unfold json.toUpper. cbv zeta. rewrite Hd, Hc.
    destruct (between 97 122 (byte_val d - 32)) eqn:E; [to_arith; lia|].
    by rewrite <- Hc, byte_of_val.
Qed.

Lemma same_case_foldName a b :
  same_case a b = true → json.foldName a = json.foldName b.
Proof.
  revert b. induction a as [|c a IH]; intros [|d b]; try done.
  cbn [same_case json.foldName]. intros [Hc Ha]%andb_true_iff.
  by rewrite (same_letter_toUpper c d Hc), (IH b Ha).
Qed.

(** X20.  Keys are matched without regard to the case of their ASCII
    letters: two objects of well-formed members whose keys differ only by
    letters in the other case (a to z against A to Z), and whose values are
    the same, get the same response. *)
Theorem process_keys_fold_case (ms ms' : list (string * scalar)) (p : process) :
  forallb well_formed ms = true →
  forallb well_formed ms' = true →
  Forall2 (λ m m', same_case m.1 m'.1 = true ∧ m.2 = m'.2) ms ms' →
  response (handle processHandler (POST (object_of ms)) p)
  = response (handle processHandler (POST (object_of ms')) p).
Proof.
  intros Hms Hms' H.
  rewrite (handle_object _ p Hms), (handle_object _ p Hms').
  rewrite (stored_fold_case ms ms' zero); [done|].
  eapply Forall2_impl; [exact H|]. intros m m' [Hk Hv]. split; [|done].
  by apply same_case_foldName.
Qed.

Lemma process_keys_fold_case_witness :
  forallb well_formed [("Name", Str "x"); ("VALUE", Int 3)] = true ∧
  forallb well_formed [("name", Str "x"); ("value", Int 3)] = true ∧
  Forall2 (λ m m', same_case m.1 m'.1 = true ∧ m.2 = m'.2)
          [("Name", Str "x"); ("VALUE", Int 3)]
          [("name", Str "x"); ("value", Int 3)] ∧
  response
    (handle processHandler
       (POST (object_of [("Name", Str "x"); ("VALUE", Int 3)])) env_hunter2)
  = response
      (handle processHandler
         (POST (object_of [("name", Str "x"); ("value", Int 3)])) env_hunter2).
Proof.
  assert (H : Forall2
                (λ m m' : string * scalar,
                   same_case m.1 m'.1 = true ∧ m.2 = m'.2)
                [("Name", Str "x"); ("VALUE", Int 3)]
                [("name", Str "x"); ("value", Int 3)]).
  { repeat constructor. }
  split; [reflexivity|]. split; [reflexivity|]. split; [exact H|].
  apply (process_keys_fold_case
           [("Name", Str "x"); ("VALUE", Int 3)]
           [("name", Str "x"); ("value", Int 3)] env_hunter2);
    [reflexivity | reflexivity | exact H].
Defined.
